(** * MLLP transport of the RevStream services

    A shallow embedding of the two programs that speak MLLP in this
    repository,

      - [RevStream/billing-simulator/server.py]  (the receiver), and
      - [RevStream/hl7-sender/sender.py]         (the sender),

    together with the Python built-ins they call ([bytes.index], [in],
    slicing, [str.split], [str.startswith], [bytes.replace],
    [bytes.decode('utf-8', errors='replace')] and [str.encode]).

    Python [bytes] are lists of [Byte.byte]; a Python [str] is a list of code
    points (numbers in [N]); a raised exception is a [None] or a dedicated
    constructor; sockets, the clock and the file system are explicit
    oracles and the effects of a session are recorded as a list of events. *)

From Stdlib Require Import String Ascii.
From Stdlib Require Import List Bool Arith NArith ZArith Lia Zify.
From Stdlib Require Import Strings.Byte.
Import ListNotations.
Local Open Scope list_scope.

(* ================================================================= *)
(** ** Python built-ins *)

Module Py.

Definition bytes := list byte.

(** A [str] is a sequence of code points.  Python allows every value in
    [0 .. 0x10FFFF], lone surrogates included. *)
Definition codepoint := N.
Definition str := list codepoint.

(** A source-level string literal (all of them are ASCII here). *)
Definition lit (s : string) : str :=
  map N_of_ascii (list_ascii_of_string s).
Arguments lit s%_string.

Definition CR : codepoint := 13%N.      (* '\r' *)
Definition PIPE : codepoint := 124%N.   (* '|'  *)

(* --------------------------------------------------------------- *)
(** *** Sequences: search and slices *)

Section Seq.
Context {A : Type}.
Variable eqb : A -> A -> bool.

(** [l.startswith(p)] *)
Fixpoint startswith (p l : list A) : bool :=
  match p, l with
  | [], _ => true
  | _ :: _, [] => false
  | x :: p', y :: l' => eqb x y && startswith p' l'
  end.

(** [l.find(sub)]: the index of the first occurrence of [sub], searched
    left to right. [l.index(sub)] is the same when it does not raise. *)
Fixpoint find (sub l : list A) : option nat :=
  if startswith sub l then Some 0
  else match l with
       | [] => None
       | _ :: l' => option_map S (find sub l')
       end.

(** [sub in l] *)
Definition contains (sub l : list A) : bool :=
  match find sub l with Some _ => true | None => false end.

(** [l[start:stop]] for indices that are not negative. An empty slice
    results when [stop <= start]. *)
Definition slice (start stop : nat) (l : list A) : list A :=
  firstn (stop - start) (skipn start l).

(** [l[1:-2]]: a negative bound counts from the end and is clamped. *)
Definition slice_1_m2 (l : list A) : list A :=
  slice 1 (length l - 2) l.

(** [l.replace(old, b'')] for a non-empty [old]: every occurrence found
    scanning left to right is dropped; [skip] counts the elements of the
    occurrence under the cursor which are still to be dropped. *)
Fixpoint remove_from (old : list A) (skip : nat) (l : list A) : list A :=
  match l with
  | [] => []
  | x :: l' =>
      match skip with
      | S k => remove_from old k l'
      | O => if startswith old l
             then remove_from old (length old - 1) l'
             else x :: remove_from old 0 l'
      end
  end.

Definition remove_all (old l : list A) : list A := remove_from old 0 l.

(** [s.split(sep)] for a one-element separator: never an empty list. *)
Fixpoint split (sep : A) (s : list A) : list (list A) :=
  match s with
  | [] => [[]]
  | c :: s' =>
      if eqb c sep then [] :: split sep s'
      else match split sep s' with
           | h :: r => (c :: h) :: r
           | [] => [[c]]
           end
  end.
End Seq.

Definition bfind := find Byte.eqb.
Definition bcontains := contains Byte.eqb.
Definition sstartswith := startswith N.eqb.
Definition ssplit := split N.eqb.

(* --------------------------------------------------------------- *)
(** *** UTF-8

    [bytes.decode('utf-8', errors=...)] and [str.encode()] are CPython
    built-ins.  The decoder below follows CPython's [utf8_decode]: it
    accepts exactly the well-formed sequences of the Unicode standard
    (no overlong forms, no surrogates, nothing above U+10FFFF) and reports
    every maximal ill-formed subsequence as one error.  The error policy
    is applied afterwards: ['strict'] raises at the first error,
    ['replace'] puts U+FFFD in its place. *)

Definition REPLACEMENT : codepoint := 0xFFFD%N.

Definition byte_of (n : N) : byte :=
  match Byte.of_N n with Some b => b | None => x00 end.

Definition is_cont (b : byte) : bool :=
  ((0x80 <=? Byte.to_N b) && (Byte.to_N b <=? 0xBF))%N.

(** The second byte of a three or four byte sequence has a range that
    depends on the first one. *)
Definition second_ok (n0 : N) (b1 : byte) : bool :=
  (((if n0 =? 0xE0 then 0xA0 else if n0 =? 0xF0 then 0x90 else 0x80)
      <=? Byte.to_N b1) &&
   (Byte.to_N b1 <=?
      (if n0 =? 0xED then 0x9F else if n0 =? 0xF4 then 0x8F else 0xBF)))%N.

(** The six payload bits of a continuation byte. *)
Definition low6 (b : byte) : N := (Byte.to_N b - 0x80)%N.

Inductive item :=
| Scalar (c : codepoint)
| Malformed.

Fixpoint utf8_scan (bs : bytes) : list item :=
  match bs with
  | [] => []
  | b0 :: t =>
      let n0 := Byte.to_N b0 in
      if (n0 <? 0x80)%N then Scalar n0 :: utf8_scan t
      else if (n0 <? 0xC2)%N then Malformed :: utf8_scan t
      else if (n0 <? 0xE0)%N then
        match t with
        | [] => [Malformed]
        | b1 :: t1 =>
            if is_cont b1
            then Scalar ((n0 - 0xC0) * 64 + low6 b1)%N :: utf8_scan t1
            else Malformed :: utf8_scan t
        end
      else if (n0 <? 0xF0)%N then
        match t with
        | [] => [Malformed]
        | b1 :: t1 =>
            if second_ok n0 b1 then
              match t1 with
              | [] => [Malformed]
              | b2 :: t2 =>
                  if is_cont b2
                  then Scalar (((n0 - 0xE0) * 64 + low6 b1) * 64 + low6 b2)%N
                         :: utf8_scan t2
                  else Malformed :: utf8_scan t1
              end
            else Malformed :: utf8_scan t
        end
      else if (n0 <? 0xF5)%N then
        match t with
        | [] => [Malformed]
        | b1 :: t1 =>
            if second_ok n0 b1 then
              match t1 with
              | [] => [Malformed]
              | b2 :: t2 =>
                  if is_cont b2 then
                    match t2 with
                    | [] => [Malformed]
                    | b3 :: t3 =>
                        if is_cont b3
                        then Scalar ((((n0 - 0xF0) * 64 + low6 b1) * 64
                                      + low6 b2) * 64 + low6 b3)%N
                               :: utf8_scan t3
                        else Malformed :: utf8_scan t2
                    end
                  else Malformed :: utf8_scan t1
              end
            else Malformed :: utf8_scan t
        end
      else Malformed :: utf8_scan t
  end.

(** [bs.decode('utf-8', errors='replace')] *)
Definition decode_replace (bs : bytes) : str :=
  map (fun i => match i with Scalar c => c | Malformed => REPLACEMENT end)
      (utf8_scan bs).

(** [bs.decode('utf-8')]; [None] is [UnicodeDecodeError]. *)
Fixpoint strict (items : list item) : option str :=
  match items with
  | [] => Some []
  | Scalar c :: r => option_map (cons c) (strict r)
  | Malformed :: _ => None
  end.

Definition decode_strict (bs : bytes) : option str := strict (utf8_scan bs).

(** The encoding of one code point; [None] is [UnicodeEncodeError]
    (surrogates are not allowed). *)
Definition encode1 (c : codepoint) : option bytes :=
  (if c <? 0x80 then Some [byte_of c]
   else if c <? 0x800 then
     Some [byte_of (0xC0 + c / 64); byte_of (0x80 + c mod 64)]
   else if c <? 0x10000 then
     if (0xD800 <=? c) && (c <? 0xE000) then None
     else Some [byte_of (0xE0 + c / 4096);
                byte_of (0x80 + (c / 64) mod 64);
                byte_of (0x80 + c mod 64)]
   else if c <? 0x110000 then
     Some [byte_of (0xF0 + c / 262144);
           byte_of (0x80 + (c / 4096) mod 64);
           byte_of (0x80 + (c / 64) mod 64);
           byte_of (0x80 + c mod 64)]
   else None)%N.

(** [s.encode()] *)
Fixpoint encode (s : str) : option bytes :=
  match s with
  | [] => Some []
  | c :: s' =>
      match encode1 c, encode s' with
      | Some a, Some b => Some (a ++ b)
      | _, _ => None
      end
  end.

End Py.

(* ================================================================= *)
(** ** billing-simulator/server.py: framing *)

Module Server.
Import Py.

Definition MLLP_START : bytes := [x0b].
Definition MLLP_END : bytes := [x1c; x0d].

(** One evaluation of the loop condition and of the slicing of
    [handle_client] (lines 114-123, before the text decoding): [None] when
    the [while] condition is false, else the bytes [mllp_message[1:-2]]
    and the new [buffer]. *)
Definition deframe (buffer : bytes) : option (bytes * bytes) :=
  match bfind MLLP_START buffer, bfind MLLP_END buffer with
  | Some start_idx, Some e =>
      let end_idx := e + length MLLP_END in
      let mllp_message := slice start_idx end_idx buffer in
      let buffer' := skipn end_idx buffer in
      Some (slice_1_m2 mllp_message, buffer')
  | _, _ => None
  end.

(** The frames the inner [while] loop takes off a buffer, and what it
    leaves.  [fuel] bounds the number of iterations. *)
Fixpoint decode_all_fuel (fuel : nat) (buffer : bytes) : list bytes * bytes :=
  match fuel with
  | O => ([], buffer)
  | S fuel' =>
      match deframe buffer with
      | None => ([], buffer)
      | Some (payload, buffer') =>
          let (ps, rest) := decode_all_fuel fuel' buffer' in
          (payload :: ps, rest)
      end
  end.

Definition decode_all (buffer : bytes) : list bytes * bytes :=
  decode_all_fuel (length buffer) buffer.

(* --------------------------------------------------------------- *)
(** *** Acknowledgments: [create_ack] *)

Record control_fields := {
  sending_app : str;
  sending_facility : str;
  receiving_app : str;
  receiving_facility : str;
  msg_control_id : str
}.

(** [xs[i]]: [None] stands for [IndexError]. *)
Definition getitem {A : Type} (xs : list A) (i : nat) : option A :=
  nth_error xs i.

Notation "x <- a ;; b" :=
  (match a with Some x => b | None => None end)
    (at level 61, a at next level, right associativity).

(** [create_ack], lines 31-47: the five fields read from the MSH line,
    or the defaults. *)
Definition create_ack_fields (message : str) : option control_fields :=
  let lines := ssplit CR message in
  let msh := match lines with l :: _ => l | [] => [] end in
  let fields := ssplit PIPE msh in
  if 10 <=? length fields then
    f2 <- getitem fields 2 ;;
    f3 <- getitem fields 3 ;;
    f4 <- getitem fields 4 ;;
    f5 <- getitem fields 5 ;;
    f9 <- getitem fields 9 ;;
    Some {| sending_app := f2;
            sending_facility := f3;
            receiving_app := f4;
            receiving_facility := f5;
            msg_control_id := f9 |}
  else
    Some {| sending_app := lit "UNKNOWN";
            sending_facility := lit "UNKNOWN";
            receiving_app := lit "BILLING";
            receiving_facility := lit "HOSPITAL";
            msg_control_id := lit "0" |}.

(** [create_ack], lines 51-55: the f-string. *)
Definition ack_text (timestamp : str) (cf : control_fields) : str :=
  lit "MSH|^~\&|" ++ receiving_app cf ++ lit "|" ++ receiving_facility cf
    ++ lit "|" ++ sending_app cf ++ lit "|" ++ sending_facility cf ++ lit "|"
    ++ timestamp ++ lit "||ACK^P03|" ++ msg_control_id cf ++ lit "|P|2.5"
    ++ [CR]
    ++ lit "MSA|AA|" ++ msg_control_id cf
    ++ lit "|Message received successfully" ++ [CR].

(** [create_ack]; [timestamp] is what [strftime] returned.  [None] when
    an exception leaves the function. *)
Definition create_ack (timestamp : str) (message : str) : option bytes :=
  cf <- create_ack_fields message ;;
  ack <- encode (ack_text timestamp cf) ;;
  Some (MLLP_START ++ ack ++ MLLP_END).

(* --------------------------------------------------------------- *)
(** *** [extract_message_info] *)

Record message_info := {
  message_type : str;
  patient_id : str;
  codes : list str
}.

(** The body of the [for line in lines] loop, lines 82-94. *)
Definition info_line (info : message_info) (line : str)
  : option message_info :=
  if sstartswith (lit "MSH|") line then
    let fields := ssplit PIPE line in
    if 8 <? length fields then
      f8 <- getitem fields 8 ;;
      Some {| message_type := f8;
              patient_id := patient_id info;
              codes := codes info |}
    else Some info
  else if sstartswith (lit "PID|") line then
    let fields := ssplit PIPE line in
    if 3 <? length fields then
      f3 <- getitem fields 3 ;;
      Some {| message_type := message_type info;
              patient_id := f3;
              codes := codes info |}
    else Some info
  else if sstartswith (lit "FT1|") line then
    let fields := ssplit PIPE line in
    if 25 <? length fields then
      code <- (if 24 <? length fields then getitem fields 24
               else Some (lit "N/A")) ;;
      Some {| message_type := message_type info;
              patient_id := patient_id info;
              codes := codes info ++ [code] |}
    else Some info
  else Some info.

Fixpoint info_lines (info : message_info) (lines : list str)
  : option message_info :=
  match lines with
  | [] => Some info
  | line :: lines' =>
      info' <- info_line info line ;;
      info_lines info' lines'
  end.

Definition extract_message_info (message : str) : option message_info :=
  info_lines {| message_type := lit "Unknown";
                patient_id := lit "Unknown";
                codes := [] |}
             (ssplit CR message).

(* --------------------------------------------------------------- *)
(** *** The session: [handle_client] *)

(** What the program cannot decide by itself: the clock read by
    [create_ack] and the outcome of [save_message] and of [conn.send] for
    the [k]-th message of the session ([false]: the call raises). A
    successful [conn.send] is taken to transmit the whole
    acknowledgment. *)
Record env := {
  clock : nat -> string;
  save_ok : nat -> str -> bool;
  send_ok : nat -> bytes -> bool
}.

Inductive event :=
| Received (hl7_message : str)      (* lines 123-127 *)
| Info (info : message_info)        (* lines 130-133 *)
| Saved (hl7_message : str)         (* line 136 *)
| Sent (ack : bytes)                (* lines 140-141 *)
| ErrorLogged                       (* line 145 *)
| ConnClosed.                       (* lines 147-148 *)

(** [handled] counts the messages acknowledged so far; it only indexes
    the oracles of [env]. *)
Record state := {
  buffer : bytes;
  handled : nat;
  log : list event
}.

Definition logged (st : state) (evs : list event) (buffer' : bytes) : state :=
  {| buffer := buffer'; handled := handled st; log := log st ++ evs |}.

Inductive outcome :=
| Continue (st : state)
| Raised (st : state).

(** One iteration of the inner [while] loop, lines 114-142; [None] when
    the loop condition is false. *)
Definition iteration (e : env) (st : state) : option outcome :=
  match deframe (buffer st) with
  | None => None
  | Some (payload, buffer') =>
      let hl7_message := decode_replace payload in
      let k := handled st in
      match extract_message_info hl7_message with
      | None => Some (Raised (logged st [Received hl7_message] buffer'))
      | Some info =>
          let seen := [Received hl7_message; Info info] in
          if save_ok e k hl7_message then
            match create_ack (lit (clock e k)) hl7_message with
            | None =>
                Some (Raised (logged st (seen ++ [Saved hl7_message]) buffer'))
            | Some ack =>
                if send_ok e k ack then
                  Some (Continue
                          {| buffer := buffer';
                             handled := S k;
                             log := log st ++ seen
                                      ++ [Saved hl7_message; Sent ack] |})
                else
                  Some (Raised
                          (logged st (seen ++ [Saved hl7_message]) buffer'))
            end
          else Some (Raised (logged st seen buffer'))
      end
  end.

(** The inner [while] loop. *)
Fixpoint drain_fuel (e : env) (fuel : nat) (st : state) : outcome :=
  match fuel with
  | O => Continue st
  | S fuel' =>
      match iteration e st with
      | None => Continue st
      | Some (Continue st') => drain_fuel e fuel' st'
      | Some (Raised st') => Raised st'
      end
  end.

Definition drain (e : env) (st : state) : outcome :=
  drain_fuel e (length (buffer st)) st.

(** What [conn.recv(4096)] does: it returns bytes ([b''] when the peer
    has closed) or raises. *)
Inductive recv_result :=
| Data (data : bytes)
| RecvRaises.

Inductive session :=
| Awaiting (st : state)      (* blocked in [recv]: nothing more in the script *)
| Closed (st : state).

Definition close (st : state) (evs : list event) : session :=
  Closed (logged st (evs ++ [ConnClosed]) (buffer st)).

(** The outer [while True] loop with its [try]/[except]/[finally]. *)
Fixpoint serve (e : env) (script : list recv_result) (st : state) : session :=
  match script with
  | [] => Awaiting st
  | RecvRaises :: _ => close st [ErrorLogged]
  | Data [] :: _ => close st []
  | Data data :: script' =>
      match drain e {| buffer := buffer st ++ data;
                       handled := handled st;
                       log := log st |} with
      | Continue st' => serve e script' st'
      | Raised st' => close st' [ErrorLogged]
      end
  end.

Definition handle_client (e : env) (script : list recv_result) : session :=
  serve e script {| buffer := []; handled := 0; log := [] |}.

End Server.

(* ================================================================= *)
(** ** hl7-sender/sender.py *)

Module Sender.
Import Py.

Definition MLLP_START : bytes := [x0b].
Definition MLLP_END : bytes := [x1c; x0d].

(** The exceptions the [except] clauses of [send_hl7_message] tell apart:
    [socket.timeout], [ConnectionRefusedError], and any other [Exception]
    with its text (a reset by the peer is one of these). *)
Inductive exn :=
| socket_timeout
| ConnectionRefusedError
| OtherException (text : str).

Inductive result (A : Type) :=
| Ok (a : A)
| Raise (e : exn).
Arguments Ok {A} a.
Arguments Raise {A} e.

(** The peer and the network as the socket calls see them.  [create] is
    the making of the socket, lines 34-35 ([socket.socket] and
    [settimeout]), which the system may refuse.  The socket has a timeout
    of 30 seconds: a [recv] for which the script holds nothing raises
    [socket.timeout]. *)
Record network := {
  create : result unit;
  connect : result unit;
  send : bytes -> result unit;
  recv : list (result bytes)
}.

Inductive sockop :=
| OpConnect
| OpSend (data : bytes)
| OpRecv
| OpClose.

(** Lines 45-52: the response and the number of [recv] calls made. *)
Fixpoint receive (response : bytes) (script : list (result bytes))
  : result bytes * nat :=
  match script with
  | [] => (Raise socket_timeout, 1)
  | Raise e :: _ => (Raise e, 1)
  | Ok [] :: _ => (Ok response, 1)
  | Ok data :: script' =>
      let response' := response ++ data in
      if bcontains MLLP_END response' then (Ok response', 1)
      else let (r, n) := receive response' script' in (r, S n)
  end.

(** Lines 61-66. *)
Definition handler (e : exn) : str :=
  match e with
  | socket_timeout => lit "Connection timed out"
  | ConnectionRefusedError => lit "Connection refused - is the server running?"
  | OtherException text => lit "Error: " ++ text
  end.

(** [send_hl7_message]: the value returned ([None] when an exception
    reaches the caller) and the calls made on the socket, in order.  The
    encoding of line 32 and the making of the socket, lines 34-35, stand
    before the [try]: what they raise is not handled, and no socket is
    there to be closed. *)
Definition send_hl7_message (net : network) (message : str)
  : option str * list sockop :=
  match encode message with
  | None => (None, [])
  | Some payload =>
      let mllp_message := MLLP_START ++ payload ++ MLLP_END in
      match create net with
      | Raise _ => (None, [])
      | Ok _ =>
          match connect net with
          | Raise e => (Some (handler e), [OpConnect; OpClose])
          | Ok _ =>
              match send net mllp_message with
              | Raise e =>
                  (Some (handler e),
                   [OpConnect; OpSend mllp_message; OpClose])
              | Ok _ =>
                  let (r, n) := receive [] (recv net) in
                  let ops := [OpConnect; OpSend mllp_message]
                               ++ repeat OpRecv n ++ [OpClose] in
                  match r with
                  | Raise e => (Some (handler e), ops)
                  | Ok [] => (Some (lit "No response received"), ops)
                  | Ok response =>
                      (Some (decode_replace
                               (remove_all Byte.eqb MLLP_END
                                  (remove_all Byte.eqb MLLP_START response))),
                       ops)
                  end
              end
          end
      end
  end.

(** [create_default_mdm_message], lines 128-145; [timestamp] is what
    [strftime] returned.  Each segment of the f-string is in brackets. *)
Definition create_default_mdm_message (timestamp : str) : str :=
  (lit "MSH|^~\&|EHR|HOSPITAL|REVSTREAM|INTEGRATION|" ++ timestamp
     ++ lit "||MDM^T02|MSG001|P|2.5") ++ [CR]
  ++ (lit "EVN|T02|" ++ timestamp) ++ [CR]
  ++ lit ("PID|1||PAT001^^^HOSPITAL^MR||DOE^JOHN^A||19800115|M|||"
            ++ "123 MAIN ST^^ANYTOWN^ST^12345") ++ [CR]
  ++ lit "PV1|1|I|MED^101^A|E|||DOC001^SMITH^JANE|||MED||||ADM" ++ [CR]
  ++ (lit "TXA|1|OP|TX|" ++ timestamp ++ lit "|DOC001^SMITH^JANE|"
        ++ timestamp ++ lit "||||DOC123||||||AU") ++ [CR]
  ++ lit ("OBX|1|TX|PROCEDURE^Operative Note||"
            ++ "Patient presents with acute appendicitis. "
            ++ "Laparoscopic appendectomy performed successfully. "
            ++ "No complications observed. "
            ++ "Diagnosis: Acute appendicitis with peritoneal abscess.||")
  ++ [CR].

End Sender.

Import Py.

(* ================================================================= *)
(** ** Vocabulary of the properties *)

Definition frame (p : bytes) : bytes :=
  Server.MLLP_START ++ p ++ Server.MLLP_END.

(** A payload without the start marker and without the end marker. *)
Definition clean (p : bytes) : Prop :=
  bcontains Server.MLLP_START p = false /\
  bcontains Server.MLLP_END p = false.

(** The code points [str.encode()] accepts. *)
Definition encodable (c : codepoint) : bool :=
  ((c <? 0xD800) || ((0xE000 <=? c) && (c <? 0x110000)))%N.

Definition item_ok (i : item) : Prop :=
  match i with Scalar c => encodable c = true | Malformed => True end.

Definition first_line (message : str) : str := hd [] (ssplit CR message).

Definition default_fields : Server.control_fields :=
  {| Server.sending_app := lit "UNKNOWN";
     Server.sending_facility := lit "UNKNOWN";
     Server.receiving_app := lit "BILLING";
     Server.receiving_facility := lit "HOSPITAL";
     Server.msg_control_id := lit "0" |}.

Definition ack_header (timestamp : str) (cf : Server.control_fields) : str :=
  lit "MSH|^~\&|" ++ Server.receiving_app cf ++ lit "|"
    ++ Server.receiving_facility cf ++ lit "|" ++ Server.sending_app cf
    ++ lit "|" ++ Server.sending_facility cf ++ lit "|" ++ timestamp
    ++ lit "||ACK^P03|" ++ Server.msg_control_id cf ++ lit "|P|2.5".

Definition ack_status (cf : Server.control_fields) : str :=
  lit "MSA|AA|" ++ Server.msg_control_id cf
    ++ lit "|Message received successfully".

Definition sample_message : str :=
  lit "MSH|^~\&|EHR|HOSPITAL|REVSTREAM|INTEGRATION|20240101000000|"
    ++ lit "|MDM^T02|MSG001|P|2.5"
    ++ [CR] ++ lit "EVN|T02|20240101000000" ++ [CR].

(** The header positions as the specification numbers them: message type
    in field 9, message identifier in field 10. *)
Definition positions_as_specified (message : str) : Prop :=
  forall info cf,
    Server.extract_message_info message = Some info ->
    Server.create_ack_fields message = Some cf ->
    nth_error (ssplit PIPE (first_line message)) 9
      = Some (Server.message_type info) /\
    (forall f10, nth_error (ssplit PIPE (first_line message)) 10 = Some f10 ->
                 Server.msg_control_id cf = f10).

Definition encodable_str (s : str) : Prop :=
  Forall (fun c => encodable c = true) s.

(** Storage and socket work. *)
Definition reliable (e : Server.env) : Prop :=
  (forall k m, Server.save_ok e k m = true) /\
  (forall k a, Server.send_ok e k a = true).

(** The state the loop is in after a message was handled. *)
Definition handled_state (st : Server.state) (buffer' : bytes)
    (message : str) (info : Server.message_info) (ack : bytes)
  : Server.state :=
  {| Server.buffer := buffer';
     Server.handled := S (Server.handled st);
     Server.log := Server.log st
                     ++ [Server.Received message; Server.Info info;
                         Server.Saved message; Server.Sent ack] |}.

(** An environment in which nothing fails. *)
Definition steady : Server.env :=
  {| Server.clock := fun _ => "20240102030405"%string;
     Server.save_ok := fun _ _ => true;
     Server.send_ok := fun _ _ => true |}.

(** An environment whose storage always fails. *)
Definition disk_full : Server.env :=
  {| Server.clock := fun _ => "20240102030405"%string;
     Server.save_ok := fun _ _ => false;
     Server.send_ok := fun _ _ => true |}.

(** The acknowledgment of receipt as the specification has it: storage of
    the first message fails, its acknowledgment is sent all the same and
    the session goes on. *)
Definition acknowledged_despite_failure (e : Server.env) (p : bytes) : Prop :=
  Server.save_ok e 0 (decode_replace p) = false ->
  exists st ack,
    Server.handle_client e [Server.Data (frame p)] = Server.Awaiting st /\
    In (Server.Sent ack) (Server.log st).









(* ================================================================= *)
(** ** Vocabulary: sessions, fields and exchanges *)

(** The state after [data] was added to the buffer (line 111). *)
Definition feed (st : Server.state) (data : bytes) : Server.state :=
  {| Server.buffer := Server.buffer st ++ data;
     Server.handled := Server.handled st;
     Server.log := Server.log st |}.

Definition feed_outcome (o : Server.outcome) (c : bytes) : Server.outcome :=
  match o with
  | Server.Continue st => Server.Continue (feed st c)
  | Server.Raised st => Server.Raised (feed st c)
  end.

Definition session_state (s : Server.session) : Server.state :=
  match s with Server.Awaiting st | Server.Closed st => st end.

Definition is_closed (s : Server.session) : bool :=
  match s with Server.Closed _ => true | Server.Awaiting _ => false end.

(** Two sessions in which the same things happened; the bytes left in the
    buffers may differ. *)
Definition same_events (s1 s2 : Server.session) : Prop :=
  is_closed s1 = is_closed s2 /\
  Server.handled (session_state s1) = Server.handled (session_state s2) /\
  Server.log (session_state s1) = Server.log (session_state s2).

(** The events of [k] messages that were received, stored and acknowledged
    one after the other. *)
Inductive served (e : Server.env) : nat -> list Server.event -> Prop :=
| served_none : served e 0 []
| served_next (k : nat) (evs : list Server.event) (m : str)
    (info : Server.message_info) (ack : bytes) :
    served e k evs ->
    Server.extract_message_info m = Some info ->
    Server.save_ok e k m = true ->
    Server.create_ack (lit (Server.clock e k)) m = Some ack ->
    Server.send_ok e k ack = true ->
    served e (S k)
           (evs ++ [Server.Received m; Server.Info info;
                    Server.Saved m; Server.Sent ack]).

(** The events between the last acknowledgment and the closing of the
    connection: the peer closed; [recv] raised; the storage of the [k]-th
    message failed; the sending of its acknowledgment failed. *)
Definition last_events (e : Server.env) (k : nat) (evs : list Server.event)
  : Prop :=
  evs = [] \/
  evs = [Server.ErrorLogged] \/
  (exists m info,
      Server.extract_message_info m = Some info /\
      Server.save_ok e k m = false /\
      evs = [Server.Received m; Server.Info info; Server.ErrorLogged]) \/
  (exists m info ack,
      Server.extract_message_info m = Some info /\
      Server.save_ok e k m = true /\
      Server.create_ack (lit (Server.clock e k)) m = Some ack /\
      Server.send_ok e k ack = false /\
      evs = [Server.Received m; Server.Info info; Server.Saved m;
             Server.ErrorLogged]).

(** The log of a state holds the events of the messages it counts. *)
Definition served_state (e : Server.env) (st : Server.state) : Prop :=
  served e (Server.handled st) (Server.log st).

(** An environment in which the acknowledgments cannot be sent. *)
Definition peer_gone : Server.env :=
  {| Server.clock := fun _ => "20240102030405"%string;
     Server.save_ok := fun _ _ => true;
     Server.send_ok := fun _ _ => false |}.

(** Field [i] of every line that starts with [segment] and has more than
    [n] fields, in the order of the lines. *)
Definition picked (segment : str) (n i : nat) (lines : list str)
  : list str :=
  flat_map (fun line =>
              if sstartswith segment line
                 && (n <? length (ssplit PIPE line))
              then [nth i (ssplit PIPE line) []]
              else [])
           lines.

(** A text without field separator and without segment terminator. *)
Definition plain (s : str) : Prop := ~ In PIPE s /\ ~ In CR s.

Definition plain_fields (cf : Server.control_fields) : Prop :=
  plain (Server.sending_app cf) /\ plain (Server.sending_facility cf) /\
  plain (Server.receiving_app cf) /\ plain (Server.receiving_facility cf) /\
  plain (Server.msg_control_id cf).

(** The control fields with sender and receiver exchanged. *)
Definition swapped (cf : Server.control_fields) : Server.control_fields :=
  {| Server.sending_app := Server.receiving_app cf;
     Server.sending_facility := Server.receiving_facility cf;
     Server.receiving_app := Server.sending_app cf;
     Server.receiving_facility := Server.sending_facility cf;
     Server.msg_control_id := Server.msg_control_id cf |}.

(** A text without the two characters of the MLLP markers. *)
Definition marker_free (s : str) : Prop :=
  Forall (fun c => c <> 0x0B%N /\ c <> 0x1C%N) s.

(** A peer that takes the message and sends [chunks], one for each
    [recv]. *)
Definition answering (chunks : list bytes) : Sender.network :=
  {| Sender.create := Sender.Ok tt;
     Sender.connect := Sender.Ok tt;
     Sender.send := fun _ => Sender.Ok tt;
     Sender.recv := map Sender.Ok chunks |}.

(** The messages stored and the acknowledgments sent, as the log has
    them. *)
Definition stored (log : list Server.event) : list str :=
  flat_map (fun ev => match ev with Server.Saved m => [m] | _ => [] end) log.

Definition acknowledged (log : list Server.event) : list bytes :=
  flat_map (fun ev => match ev with Server.Sent a => [a] | _ => [] end) log.

(** The acknowledgments [create_ack] builds for the payloads, the first of
    them being the [k]-th message of the session. *)
Fixpoint acks_for (e : Server.env) (k : nat) (payloads : list bytes)
  : list (option bytes) :=
  match payloads with
  | [] => []
  | p :: payloads' =>
      Server.create_ack (lit (Server.clock e k)) (decode_replace p)
        :: acks_for e (S k) payloads'
  end.

(** What [strftime] returns for a format of digits. *)
Definition digits (s : str) : Prop :=
  Forall (fun c => (48 <= c <= 57)%N) s.

(* ================================================================= *)
(** ** Vocabulary: what the caller is told, what an acknowledgment says *)




(** Storage and socket work for the message of payload [p], the [k]-th of
    the session: it is stored and its acknowledgment is sent. *)
Definition goes_through (e : Server.env) (k : nat) (p : bytes) : Prop :=
  Server.save_ok e k (decode_replace p) = true /\
  forall ack,
    Server.create_ack (lit (Server.clock e k)) (decode_replace p) = Some ack ->
    Server.send_ok e k ack = true.

(** A storage with room for [n] messages. *)
Definition disk_full_after (n : nat) : Server.env :=
  {| Server.clock := fun _ => "20240102030405"%string;
     Server.save_ok := fun k _ => k <? n;
     Server.send_ok := fun _ _ => true |}.

(** A peer that takes [n] acknowledgments and is gone. *)
Definition peer_gone_after (n : nat) : Server.env :=
  {| Server.clock := fun _ => "20240102030405"%string;
     Server.save_ok := fun _ _ => true;
     Server.send_ok := fun k _ => k <? n |}.

(** The control ID of a message, as its acknowledgment has to echo it:
    field 9 of the first line when that line has at least 10 fields, and
    0 otherwise. *)
Definition control_id (message : str) : str :=
  if 10 <=? length (ssplit PIPE (first_line message))
  then nth 9 (ssplit PIPE (first_line message)) []
  else lit "0".

(** The bytes of a text of ASCII characters. *)
Definition ascii_bytes (s : string) : bytes := list_byte_of_string s.
Arguments ascii_bytes s%_string.

(** Two payloads with headers of their own, and one whose first line is
    no header, before a line that is one. *)
Definition first_payload : bytes :=
  ascii_bytes ("MSH|^~\&|EHR|HOSPITAL|REVSTREAM|INTEGRATION|"
                 ++ "20240101000000||MDM^T02|MSG001|P|2.5").

Definition second_payload : bytes :=
  ascii_bytes ("MSH|^~\&|LAB|CLINIC|BILLING|FINANCE|"
                 ++ "20240101000001||ORU^R01|MSG002|P|2.5").

Definition odd_payload : bytes :=
  ascii_bytes "XXX|1|2|3|4|5|6|7|8|ID9|10" ++ [x0d]
    ++ ascii_bytes "MSH|^~\&|a|b|c|d|e||TYPE|ID|P|2.5".


(* ================================================================= *)
(** ** Tactics *)

(** [lia] reads [N.div] and [N.modulo] through their Euclidean equations. *)
Ltac Zify.zify_post_hook ::= Z.to_euclidean_division_equations.

Ltac cmp_cases :=
  repeat (match goal with
    | |- context [(?a =? ?b)%N] => destruct (N.eqb_spec a b); try lia
    | |- context [(?a <? ?b)%N] => destruct (N.ltb_spec a b); try lia
    | |- context [(?a <=? ?b)%N] => destruct (N.leb_spec a b); try lia
    end; cbv beta iota delta [andb]).

Ltac not_in_lit := cbv; intuition discriminate.

(** The side conditions of the scanning equations; [bound] rewrites the
    value of a byte made from a number. *)
Ltac scan_side bound :=
  unfold is_cont, second_ok, low6; rewrite ?bound by lia; cmp_cases;
  first [reflexivity | lia | f_equal; f_equal; lia].

(** A separator does not occur in a text made of literals and of texts
    known to be free of it; [join] and [check] are the lemmas on
    concatenation and on literals. *)
Ltac no_sep join check :=
  repeat apply join;
  first [assumption | apply check; vm_compute; reflexivity].

(* ================================================================= *)
(** ** Searching in sequences *)

Section SeqFacts.
Context {A : Type}.
Variable eqb : A -> A -> bool.
Hypothesis eqb_refl : forall x, eqb x x = true.

Lemma startswith_app (p l : list A) : startswith eqb p (p ++ l) = true.
Proof.
  induction p as [|x p IH]; simpl; [reflexivity|].
  now rewrite eqb_refl, IH.
Qed.

Lemma startswith_length (p l : list A) :
  startswith eqb p l = true -> length p <= length l.
Proof.
  revert l; induction p as [|x p IH]; intros [|y l]; simpl; intros H;
    try lia; try discriminate.
  apply andb_true_iff in H as [_ H]. apply IH in H. lia.
Qed.

(** An occurrence that fits in [l] does not depend on what follows. *)
Lemma startswith_within (p l r : list A) :
  length p <= length l ->
  startswith eqb p (l ++ r) = startswith eqb p l.
Proof.
  revert l; induction p as [|x p IH]; intros [|y l]; simpl; intros H;
    try reflexivity; try lia.
  rewrite IH by lia. reflexivity.
Qed.

Lemma find_cons (sub : list A) (y : A) (l : list A) :
  find eqb sub (y :: l)
  = if startswith eqb sub (y :: l) then Some 0
    else option_map S (find eqb sub l).
Proof. reflexivity. Qed.

Lemma find_nil (sub : list A) :
  find eqb sub [] = if startswith eqb sub [] then Some 0 else None.
Proof. reflexivity. Qed.

Lemma find_bound (sub l : list A) (k : nat) :
  find eqb sub l = Some k -> k + length sub <= length l.
Proof.
  revert k; induction l as [|y l IH]; intros k.
  - rewrite find_nil. destruct (startswith eqb sub []) eqn:E; [|discriminate].
    intros [= <-]. apply startswith_length in E. simpl in *. lia.
  - rewrite find_cons. destruct (startswith eqb sub (y :: l)) eqn:E.
    + intros [= <-]. apply startswith_length in E. simpl in *. lia.
    + destruct (find eqb sub l) as [j|]; simpl; [|discriminate].
      intros [= <-]. specialize (IH j eq_refl). simpl. lia.
Qed.

(** The first occurrence stays the first one when the sequence grows. *)
Lemma find_app (sub l r : list A) (k : nat) :
  find eqb sub l = Some k -> find eqb sub (l ++ r) = Some k.
Proof.
  revert k; induction l as [|y l IH]; intros k.
  - rewrite find_nil. destruct (startswith eqb sub []) eqn:E; [|discriminate].
    intros [= <-]. destruct sub; [|discriminate].
    destruct r; reflexivity.
  - intros H. pose proof (find_bound _ _ _ H) as Hb. revert H.
    change ((y :: l) ++ r) with (y :: l ++ r). rewrite !find_cons.
    change (y :: l ++ r) with ((y :: l) ++ r).
    rewrite startswith_within by (simpl in *; lia).
    destruct (startswith eqb sub (y :: l)); [trivial|].
    destruct (find eqb sub l) as [j|]; simpl; [|discriminate].
    intros [= <-]. now rewrite (IH j eq_refl).
Qed.

Lemma contains_app_false (sub l r : list A) :
  contains eqb sub (l ++ r) = false -> contains eqb sub l = false.
Proof.
  unfold contains. destruct (find eqb sub l) as [k|] eqn:E; [|reflexivity].
  now rewrite (find_app _ _ r _ E).
Qed.

Lemma split_nonempty (sep : A) (s : list A) : split eqb sep s <> [].
Proof.
  destruct s as [|c s]; simpl; [discriminate|].
  destruct (eqb c sep); [discriminate|].
  destruct (split eqb sep s); discriminate.
Qed.

Lemma split_Forall (P : A -> Prop) (sep : A) (s : list A) :
  Forall P s -> Forall (Forall P) (split eqb sep s).
Proof.
  induction 1 as [|c s Hc Hs IH]; simpl.
  - repeat constructor.
  - destruct (eqb c sep); [constructor; [constructor|assumption]|].
    destruct (split eqb sep s) as [|h r].
    + repeat constructor. assumption.
    + inversion IH; subst. constructor; [constructor|]; assumption.
Qed.
End SeqFacts.

(* ================================================================= *)
(** ** The markers in a buffer *)


Lemma sender_frame (p : bytes) :
  Sender.MLLP_START ++ p ++ Sender.MLLP_END = frame p.
Proof. reflexivity. Qed.

Lemma frame_length (p : bytes) : length (frame p) = length p + 3.
Proof. unfold frame. simpl. rewrite length_app. simpl. lia. Qed.

Lemma startswith_end (a b : byte) (l : bytes) :
  startswith Byte.eqb Server.MLLP_END (a :: b :: l)
  = Byte.eqb x1c a && Byte.eqb x0d b.
Proof. simpl. now rewrite andb_true_r. Qed.

Lemma startswith_end_short (a : byte) :
  startswith Byte.eqb Server.MLLP_END [a] = false.
Proof. simpl. apply andb_false_r. Qed.

Lemma find_end_cons (a : byte) (l : bytes) :
  bfind Server.MLLP_END (a :: l) = None ->
  startswith Byte.eqb Server.MLLP_END (a :: l) = false /\
  bfind Server.MLLP_END l = None.
Proof.
  unfold bfind. rewrite find_cons.
  destruct (startswith Byte.eqb Server.MLLP_END (a :: l)); [discriminate|].
  destruct (find Byte.eqb Server.MLLP_END l); [discriminate|]. auto.
Qed.

(** The end marker appended to a payload that has none is the first one. *)
Lemma find_end_after (p rest : bytes) :
  bcontains Server.MLLP_END p = false ->
  bfind Server.MLLP_END (p ++ Server.MLLP_END ++ rest) = Some (length p).
Proof.
  unfold bcontains, contains. fold (bfind Server.MLLP_END p).
  induction p as [|a p IH]; intros H.
  - reflexivity.
  - destruct (bfind Server.MLLP_END (a :: p)) eqn:E; [discriminate|].
    apply find_end_cons in E as [E1 E2].
    assert (Hs : startswith Byte.eqb Server.MLLP_END
                   (a :: p ++ Server.MLLP_END ++ rest) = false).
    { destruct p as [|b p].
      - simpl. destruct (Byte.eqb x1c a); reflexivity.
      - simpl app. rewrite startswith_end. now rewrite startswith_end in E1. }
    unfold bfind in *. change ((a :: p) ++ Server.MLLP_END ++ rest)
      with (a :: p ++ Server.MLLP_END ++ rest).
    rewrite find_cons, Hs, IH by now rewrite E2. reflexivity.
Qed.

Lemma find_end_frame (p rest : bytes) :
  bcontains Server.MLLP_END p = false ->
  bfind Server.MLLP_END (frame p ++ rest) = Some (S (length p)).
Proof.
  intros H. unfold frame. simpl app. rewrite <- app_assoc.
  pose proof (find_end_after p rest H) as F. unfold bfind in *.
  rewrite find_cons, F. destruct p; reflexivity.
Qed.

Lemma slice_frame (p rest : bytes) :
  slice_1_m2 (slice 0 (S (length p) + 2) (frame p ++ rest)) = p.
Proof.
  assert (E : slice 0 (S (length p) + 2) (frame p ++ rest) = frame p).
  { unfold slice. rewrite Nat.sub_0_r, skipn_O, firstn_app, frame_length.
    replace (S (length p) + 2 - (length p + 3)) with 0 by lia.
    rewrite firstn_O, app_nil_r. apply firstn_all2.
    rewrite frame_length. lia. }
  rewrite E. unfold slice_1_m2, slice. rewrite frame_length.
  replace (length p + 3 - 2 - 1) with (length p) by lia.
  change (skipn 1 (frame p)) with (p ++ Server.MLLP_END).
  now rewrite firstn_app, firstn_all, Nat.sub_diag, firstn_O, app_nil_r.
Qed.

(** One pass of the loop over a buffer that starts with a frame takes
    exactly that frame. *)
Lemma deframe_frame (p rest : bytes) :
  bcontains Server.MLLP_END p = false ->
  Server.deframe (frame p ++ rest) = Some (p, rest).
Proof.
  intros H. unfold Server.deframe. rewrite (find_end_frame p rest H).
  change (bfind Server.MLLP_START (frame p ++ rest)) with (Some 0).
  cbv zeta iota beta. change (length Server.MLLP_END) with 2.
  rewrite slice_frame. f_equal. f_equal.
  rewrite skipn_app, skipn_all2 by (rewrite frame_length; lia).
  rewrite frame_length.
  replace (S (length p) + 2 - (length p + 3)) with 0 by lia. reflexivity.
Qed.

Lemma deframe_nil : Server.deframe [] = None.
Proof. reflexivity. Qed.

(** A pass shortens the buffer by two bytes at least. *)
Lemma deframe_shrinks (b payload b' : bytes) :
  Server.deframe b = Some (payload, b') -> length b' + 2 <= length b.
Proof.
  unfold Server.deframe.
  destruct (bfind Server.MLLP_START b); [|discriminate].
  destruct (bfind Server.MLLP_END b) as [e|] eqn:E; [|discriminate].
  intros [= _ <-]. apply find_bound in E. rewrite length_skipn.
  simpl in *. lia.
Qed.

(** The loop on three buffers: one frame; an end marker in front of the
    frame; noise, two frames and the beginning of a third. *)
Example decode_all_one_frame :
  Server.decode_all [x0b; x41; x42; x1c; x0d] = ([[x41; x42]], []).
Proof. reflexivity. Qed.

Example decode_all_end_first :
  Server.decode_all [x1c; x0d; x0b; x41; x1c; x0d] = ([[]; [x41]], []).
Proof. reflexivity. Qed.

Example decode_all_partial :
  Server.decode_all [x55; x0b; x41; x1c; x0d; x0b; x1c; x0d; x0b; x1c]
  = ([[x41]; []], [x0b; x1c]).
Proof. reflexivity. Qed.

(** The codec on what CPython returns for the same input. *)
Example decode_replace_euro :
  decode_replace [xe2; x82; xac; x41; xff; xe2; x82]
  = [0x20AC; 0x41; 0xFFFD; 0xFFFD]%N.
Proof. reflexivity. Qed.

Example encode_planes :
  encode [0x20AC; 0x41; 0xFFFD; 0x1F600]%N
  = Some [xe2; x82; xac; x41; xef; xbf; xbd; xf0; x9f; x98; x80].
Proof. reflexivity. Qed.

Example decode_replace_ill_formed :
  decode_replace [xf0; x9f; x98; x80; xe0; x80; xed; xa0; x80; xf4; x90;
                  xc0; xc1; xc2]
  = [0x1F600; 0xFFFD; 0xFFFD; 0xFFFD; 0xFFFD; 0xFFFD; 0xFFFD; 0xFFFD;
     0xFFFD; 0xFFFD; 0xFFFD]%N.
Proof. reflexivity. Qed.

Example split_lines :
  ssplit CR (lit "MSH|a" ++ [CR] ++ lit "PID" ++ [CR])
  = [lit "MSH|a"; lit "PID"; []].
Proof. reflexivity. Qed.

Example replace_once :
  remove_all Byte.eqb Sender.MLLP_END [x1c; x1c; x0d; x0d] = [x1c; x0d].
Proof. reflexivity. Qed.

(** C1. Round-trip framing: for every payload [p] that holds neither the
    start marker 0x0B nor the end marker 0x1C 0x0D, the receiver's loop
    run on the buffer the sender builds, 0x0B + p + 0x1C 0x0D, takes
    exactly the one payload [p] and leaves an empty buffer. *)
Theorem roundtrip_framing (p : bytes) :
  clean p ->
  Server.decode_all (Sender.MLLP_START ++ p ++ Sender.MLLP_END) = ([p], []).
Proof.
  intros [_ He]. rewrite sender_frame. unfold Server.decode_all.
  rewrite frame_length. replace (length p + 3) with (S (length p + 2)) by lia.
  simpl Server.decode_all_fuel.
  rewrite <- (app_nil_r (frame p)), (deframe_frame p [] He).
  destruct (length p + 2); reflexivity.
Qed.

Lemma clean_A : clean [x41].
Proof. split; reflexivity. Qed.

Lemma roundtrip_framing_witness :
  Server.decode_all (Sender.MLLP_START ++ [x41] ++ Sender.MLLP_END)
  = ([[x41]], []).
Proof. exact (roundtrip_framing [x41] clean_A). Defined.

(* ================================================================= *)
(** ** UTF-8: what is encoded decodes to itself *)

Lemma to_N_byte_of (n : N) : (n < 256)%N -> Byte.to_N (byte_of n) = n.
Proof.
  intros H. unfold byte_of. destruct (Byte.of_N n) as [b|] eqn:E.
  - now apply Byte.to_of_N.
  - apply Byte.of_N_None_iff in E. lia.
Qed.

(** The scanner on a well-formed sequence of one, two, three and four
    bytes. *)
Lemma scan1 (b0 : byte) (t : bytes) :
  (Byte.to_N b0 < 0x80)%N ->
  utf8_scan (b0 :: t) = Scalar (Byte.to_N b0) :: utf8_scan t.
Proof. intros H. cbn [utf8_scan]. cmp_cases. reflexivity. Qed.

Lemma scan2 (b0 b1 : byte) (t : bytes) :
  (0xC2 <= Byte.to_N b0 < 0xE0)%N -> is_cont b1 = true ->
  utf8_scan (b0 :: b1 :: t)
  = Scalar ((Byte.to_N b0 - 0xC0) * 64 + low6 b1)%N :: utf8_scan t.
Proof. intros H H1. cbn [utf8_scan]. rewrite H1. cmp_cases. reflexivity. Qed.

Lemma scan3 (b0 b1 b2 : byte) (t : bytes) :
  (0xE0 <= Byte.to_N b0 < 0xF0)%N ->
  second_ok (Byte.to_N b0) b1 = true -> is_cont b2 = true ->
  utf8_scan (b0 :: b1 :: b2 :: t)
  = Scalar (((Byte.to_N b0 - 0xE0) * 64 + low6 b1) * 64 + low6 b2)%N
      :: utf8_scan t.
Proof.
  intros H H1 H2. cbn [utf8_scan]. rewrite H1, H2. cmp_cases. reflexivity.
Qed.

Lemma scan4 (b0 b1 b2 b3 : byte) (t : bytes) :
  (0xF0 <= Byte.to_N b0 < 0xF5)%N ->
  second_ok (Byte.to_N b0) b1 = true ->
  is_cont b2 = true -> is_cont b3 = true ->
  utf8_scan (b0 :: b1 :: b2 :: b3 :: t)
  = Scalar ((((Byte.to_N b0 - 0xF0) * 64 + low6 b1) * 64 + low6 b2) * 64
            + low6 b3)%N
      :: utf8_scan t.
Proof.
  intros H H1 H2 H3. cbn [utf8_scan]. rewrite H1, H2, H3. cmp_cases.
  reflexivity.
Qed.

Lemma some_inj {A} (a b : A) : Some a = Some b -> a = b.
Proof. congruence. Qed.

Lemma scan_encode1 (c : codepoint) (bs rest : bytes) :
  encode1 c = Some bs -> utf8_scan (bs ++ rest) = Scalar c :: utf8_scan rest.
Proof.
  unfold encode1.
  destruct (N.ltb_spec c 0x80).
  { intros <-%some_inj. rewrite <- app_comm_cons, app_nil_l.
    rewrite scan1; scan_side to_N_byte_of. }
  destruct (N.ltb_spec c 0x800).
  { intros <-%some_inj. rewrite <- !app_comm_cons, app_nil_l.
    rewrite scan2; scan_side to_N_byte_of. }
  destruct (N.ltb_spec c 0x10000).
  { destruct (N.leb_spec 0xD800 c); destruct (N.ltb_spec c 0xE000); cbn [andb];
      try discriminate; intros <-%some_inj;
      rewrite <- !app_comm_cons, app_nil_l; rewrite scan3;
      scan_side to_N_byte_of. }
  destruct (N.ltb_spec c 0x110000); [|discriminate].
  intros <-%some_inj; rewrite <- !app_comm_cons, app_nil_l.
  rewrite scan4; scan_side to_N_byte_of.
Qed.

Lemma scan_encode (s : str) (bs : bytes) :
  encode s = Some bs -> utf8_scan bs = map Scalar s.
Proof.
  revert bs; induction s as [|c s IH]; intros bs; cbn [encode].
  - now intros <-%some_inj.
  - destruct (encode1 c) as [a|] eqn:E1; [|discriminate].
    destruct (encode s) as [b|]; [|discriminate].
    intros <-%some_inj. rewrite (scan_encode1 c a b E1), (IH b eq_refl).
    reflexivity.
Qed.

Lemma strict_scalars (s : str) : strict (map Scalar s) = Some s.
Proof. induction s as [|c s IH]; cbn; [|rewrite IH]; reflexivity. Qed.

Lemma decode_strict_encode (s : str) (bs : bytes) :
  encode s = Some bs -> decode_strict bs = Some s.
Proof.
  intros E. unfold decode_strict. rewrite (scan_encode s bs E).
  apply strict_scalars.
Qed.

Lemma decode_replace_encode (s : str) (bs : bytes) :
  encode s = Some bs -> decode_replace bs = s.
Proof.
  intros E. unfold decode_replace. rewrite (scan_encode s bs E), map_map.
  apply map_id.
Qed.

(** What [strict] accepts, [replace] decodes to the same text. *)
Lemma decode_strict_replace (bs : bytes) (s : str) :
  decode_strict bs = Some s -> decode_replace bs = s.
Proof.
  unfold decode_strict, decode_replace. revert s.
  induction (utf8_scan bs) as [|[c|] items IH]; cbn; intros s.
  - now intros <-%some_inj.
  - destruct (strict items) as [r|]; [|discriminate]. cbn.
    intros <-%some_inj. now rewrite (IH r eq_refl).
  - discriminate.
Qed.

Lemma encode1_encodable (c : codepoint) :
  encodable c = true -> exists bs, encode1 c = Some bs.
Proof.
  unfold encodable, encode1. intros H.
  destruct (N.ltb_spec c 0x80); [eauto|].
  destruct (N.ltb_spec c 0x800); [eauto|].
  destruct (N.ltb_spec c 0x10000).
  - destruct (N.leb_spec 0xD800 c); destruct (N.ltb_spec c 0xE000);
      cbn [andb]; eauto.
    revert H. cmp_cases; discriminate.
  - destruct (N.ltb_spec c 0x110000); [eauto|].
    revert H. cmp_cases; discriminate.
Qed.

Lemma encode_encodable (s : str) :
  Forall (fun c => encodable c = true) s -> exists bs, encode s = Some bs.
Proof.
  induction 1 as [|c s Hc _ [b IH]]; cbn [encode]; [eauto|].
  destruct (encode1_encodable c Hc) as [a ->]. rewrite IH. eauto.
Qed.

Lemma second_ok_bounds (n0 : N) (b1 : byte) :
  second_ok n0 b1 = true ->
  (0x80 <= Byte.to_N b1 <= 0xBF /\
   (n0 = 0xE0 -> 0xA0 <= Byte.to_N b1) /\
   (n0 = 0xF0 -> 0x90 <= Byte.to_N b1) /\
   (n0 = 0xED -> Byte.to_N b1 <= 0x9F) /\
   (n0 = 0xF4 -> Byte.to_N b1 <= 0x8F))%N.
Proof.
  unfold second_ok. intros H. apply andb_true_iff in H as [H1 H2].
  apply N.leb_le in H1, H2. revert H1 H2. cmp_cases; lia.
Qed.

Lemma is_cont_bounds (b : byte) :
  is_cont b = true -> (0x80 <= Byte.to_N b <= 0xBF)%N.
Proof.
  unfold is_cont. intros H. apply andb_true_iff in H as [H1 H2].
  apply N.leb_le in H1, H2. lia.
Qed.

Lemma scan_ok_up_to (n : nat) (bs : bytes) :
  length bs <= n -> Forall item_ok (utf8_scan bs).
Proof.
  revert bs; induction n as [|n IH]; intros bs Hn.
  - destruct bs; [constructor|simpl in Hn; lia].
  - destruct bs as [|b0 t]; [constructor|]. cbn [length] in Hn.
    cbn [utf8_scan].
    destruct (N.ltb_spec (Byte.to_N b0) 0x80).
    { constructor; [|apply IH; lia]. unfold item_ok, encodable.
      cmp_cases; reflexivity. }
    destruct (N.ltb_spec (Byte.to_N b0) 0xC2).
    { constructor; [exact I|apply IH; lia]. }
    destruct (N.ltb_spec (Byte.to_N b0) 0xE0).
    { destruct t as [|b1 t1]; [repeat constructor|]. cbn [length] in Hn.
      destruct (is_cont b1) eqn:C1.
      - apply is_cont_bounds in C1.
        constructor; [|apply IH; lia]. unfold item_ok, encodable, low6.
        cmp_cases; reflexivity.
      - constructor; [exact I|apply IH; cbn [length]; lia]. }
    destruct (N.ltb_spec (Byte.to_N b0) 0xF0).
    { destruct t as [|b1 t1]; [repeat constructor|]. cbn [length] in Hn.
      destruct (second_ok (Byte.to_N b0) b1) eqn:C1.
      - apply second_ok_bounds in C1.
        destruct t1 as [|b2 t2]; [repeat constructor|]. cbn [length] in Hn.
        destruct (is_cont b2) eqn:C2.
        + apply is_cont_bounds in C2.
          constructor; [|apply IH; lia]. unfold item_ok, encodable, low6.
          cmp_cases; try reflexivity; lia.
        + constructor; [exact I|apply IH; cbn [length]; lia].
      - constructor; [exact I|apply IH; cbn [length]; lia]. }
    destruct (N.ltb_spec (Byte.to_N b0) 0xF5).
    { destruct t as [|b1 t1]; [repeat constructor|]. cbn [length] in Hn.
      destruct (second_ok (Byte.to_N b0) b1) eqn:C1.
      - apply second_ok_bounds in C1.
        destruct t1 as [|b2 t2]; [repeat constructor|]. cbn [length] in Hn.
        destruct (is_cont b2) eqn:C2.
        + apply is_cont_bounds in C2.
          destruct t2 as [|b3 t3]; [repeat constructor|]. cbn [length] in Hn.
          destruct (is_cont b3) eqn:C3.
          * apply is_cont_bounds in C3.
            constructor; [|apply IH; lia]. unfold item_ok, encodable, low6.
            cmp_cases; try reflexivity; lia.
          * constructor; [exact I|apply IH; cbn [length]; lia].
        + constructor; [exact I|apply IH; cbn [length]; lia].
      - constructor; [exact I|apply IH; cbn [length]; lia]. }
    constructor; [exact I|apply IH; lia].
Qed.

Lemma decode_replace_encodable (bs : bytes) :
  Forall (fun c => encodable c = true) (decode_replace bs).
Proof.
  unfold decode_replace. apply Forall_map.
  eapply Forall_impl; [|apply (scan_ok_up_to (length bs) bs); lia].
  intros [c|]; cbn; auto.
Qed.

Section SplitFacts.
Context {A : Type}.
Variable eqb : A -> A -> bool.
Hypothesis eqb_eq : forall x y, eqb x y = true <-> x = y.

Lemma eqb_neq (x y : A) : x <> y -> eqb x y = false.
Proof.
  intros H. destruct (eqb x y) eqn:E; [|reflexivity].
  apply eqb_eq in E. contradiction.
Qed.

Lemma split_cons_sep (sep : A) (s : list A) :
  split eqb sep (sep :: s) = [] :: split eqb sep s.
Proof. simpl. now rewrite (proj2 (eqb_eq sep sep) eq_refl). Qed.

(** Up to the first separator. *)
Lemma split_app_sep (sep : A) (a b : list A) :
  ~ In sep a -> split eqb sep (a ++ sep :: b) = a :: split eqb sep b.
Proof.
  induction a as [|c a IH]; intros H.
  - apply split_cons_sep.
  - simpl. rewrite eqb_neq by (intros ->; apply H; now left).
    rewrite IH by (intros Hin; apply H; now right). reflexivity.
Qed.

Lemma split_no_sep (sep : A) (a : list A) :
  ~ In sep a -> split eqb sep a = [a].
Proof.
  induction a as [|c a IH]; intros H; [reflexivity|].
  simpl. rewrite eqb_neq by (intros ->; apply H; now left).
  rewrite IH by (intros Hin; apply H; now right). reflexivity.
Qed.

(** No piece holds the separator. *)
Lemma split_pieces (sep : A) (s : list A) :
  Forall (fun piece => ~ In sep piece) (split eqb sep s).
Proof.
  induction s as [|c s IH]; simpl.
  - constructor; [intros []|constructor].
  - destruct (eqb c sep) eqn:E.
    + constructor; [intros []|assumption].
    + assert (Hc : c <> sep).
      { intros ->. rewrite (proj2 (eqb_eq sep sep) eq_refl) in E.
        discriminate. }
      destruct (split eqb sep s) as [|h r].
      * constructor; [|constructor]. intros [->|[]]. now apply Hc.
      * inversion IH; subst. constructor; [|assumption].
        intros [->|Hin]; [now apply Hc|contradiction].
Qed.

(** The pieces are made of elements of the sequence. *)
Lemma split_pieces_notin (sep x : A) (s : list A) :
  ~ In x s -> Forall (fun piece => ~ In x piece) (split eqb sep s).
Proof.
  intros H.
  assert (F : Forall (Forall (fun c => c <> x)) (split eqb sep s)).
  { apply split_Forall. apply Forall_forall. intros c Hc ->. contradiction. }
  eapply Forall_impl; [|exact F]. intros piece Hp Hin.
  rewrite Forall_forall in Hp. exact (Hp x Hin eq_refl).
Qed.
End SplitFacts.

Lemma getitem_some {A : Type} (xs : list A) (i : nat) :
  i < length xs -> exists x, Server.getitem xs i = Some x.
Proof.
  intros H. unfold Server.getitem.
  destruct (nth_error xs i) as [x|] eqn:E; [eauto|].
  apply nth_error_None in E. lia.
Qed.

(** What [create_ack] reads when the MSH line is long enough. *)
Lemma create_ack_fields_long (message : str) :
  10 <= length (ssplit PIPE (first_line message)) ->
  exists f2 f3 f4 f5 f9,
    nth_error (ssplit PIPE (first_line message)) 2 = Some f2 /\
    nth_error (ssplit PIPE (first_line message)) 3 = Some f3 /\
    nth_error (ssplit PIPE (first_line message)) 4 = Some f4 /\
    nth_error (ssplit PIPE (first_line message)) 5 = Some f5 /\
    nth_error (ssplit PIPE (first_line message)) 9 = Some f9 /\
    Server.create_ack_fields message =
      Some {| Server.sending_app := f2;
              Server.sending_facility := f3;
              Server.receiving_app := f4;
              Server.receiving_facility := f5;
              Server.msg_control_id := f9 |}.
Proof.
  intros H. unfold Server.create_ack_fields.
  change (match ssplit CR message with l :: _ => l | [] => [] end)
    with (first_line message).
  set (fields := ssplit PIPE (first_line message)) in *.
  cbv zeta. rewrite (proj2 (Nat.leb_le 10 (length fields)) H).
  destruct (getitem_some fields 2) as [f2 E2]; [lia|].
  destruct (getitem_some fields 3) as [f3 E3]; [lia|].
  destruct (getitem_some fields 4) as [f4 E4]; [lia|].
  destruct (getitem_some fields 5) as [f5 E5]; [lia|].
  destruct (getitem_some fields 9) as [f9 E9]; [lia|].
  exists f2, f3, f4, f5, f9. unfold Server.getitem in *.
  rewrite E2, E3, E4, E5, E9. repeat split.
Qed.

Lemma create_ack_fields_short (message : str) :
  length (ssplit PIPE (first_line message)) < 10 ->
  Server.create_ack_fields message = Some default_fields.
Proof.
  intros H. unfold Server.create_ack_fields.
  change (match ssplit CR message with l :: _ => l | [] => [] end)
    with (first_line message).
  cbv zeta.
  apply Nat.leb_gt in H. now rewrite H.
Qed.

(** C6. Control-field defaulting: the extraction of the control fields in
    [create_ack] returns fields for every message, the empty one included,
    and never raises; when the first line has fewer than 10 pipe-delimited
    fields they are UNKNOWN, UNKNOWN, BILLING, HOSPITAL and the control
    ID 0. *)
Theorem control_field_defaulting (message : str) :
  exists cf,
    Server.create_ack_fields message = Some cf /\
    (length (ssplit PIPE (first_line message)) < 10 -> cf = default_fields).
Proof.
  destruct (Nat.lt_ge_cases (length (ssplit PIPE (first_line message))) 10)
    as [Hs|Hl].
  - exists default_fields. split; [now apply create_ack_fields_short|auto].
  - destruct (create_ack_fields_long message Hl)
      as (f2 & f3 & f4 & f5 & f9 & _ & _ & _ & _ & _ & E).
    eexists. split; [exact E|]. lia.
Qed.

Lemma control_field_defaulting_witness :
  exists cf, Server.create_ack_fields [] = Some cf /\ cf = default_fields.
Proof.
  destruct (control_field_defaulting []) as [cf [E H]].
  exists cf. split; [exact E|]. apply H. vm_compute. lia.
Defined.

Lemma N_eqb_eq (x y : N) : N.eqb x y = true <-> x = y.
Proof. apply N.eqb_eq. Qed.

(** The first line of a message has no carriage return, and neither have
    its fields; a field has no pipe. *)
Lemma first_line_no_cr (message : str) : ~ In CR (first_line message).
Proof.
  unfold first_line, ssplit.
  pose proof (split_pieces N.eqb N_eqb_eq CR message) as F.
  destruct (split N.eqb CR message); [intros []|].
  now inversion F.
Qed.

Lemma field_clean (message : str) (i : nat) (f : str) :
  nth_error (ssplit PIPE (first_line message)) i = Some f ->
  ~ In PIPE f /\ ~ In CR f.
Proof.
  intros E. apply nth_error_In in E. split.
  - pose proof (split_pieces N.eqb N_eqb_eq PIPE (first_line message)) as F.
    rewrite Forall_forall in F. now apply F.
  - pose proof (split_pieces_notin N.eqb PIPE CR (first_line message)
                  (first_line_no_cr message)) as F.
    rewrite Forall_forall in F. now apply F.
Qed.

Lemma ack_text_lines (timestamp : str) (cf : Server.control_fields) :
  Server.ack_text timestamp cf
  = ack_header timestamp cf ++ CR :: ack_status cf ++ CR :: [].
Proof.
  unfold Server.ack_text, ack_header, ack_status.
  repeat rewrite <- app_assoc. reflexivity.
Qed.

Lemma not_in_app {A : Type} (x : A) (l r : list A) :
  ~ In x l -> ~ In x r -> ~ In x (l ++ r).
Proof. intros Hl Hr H. apply in_app_or in H as [H|H]; auto. Qed.

Lemma ack_header_fields (timestamp : str) (cf : Server.control_fields) :
  ~ In PIPE timestamp ->
  ~ In PIPE (Server.sending_app cf) ->
  ~ In PIPE (Server.sending_facility cf) ->
  ~ In PIPE (Server.receiving_app cf) ->
  ~ In PIPE (Server.receiving_facility cf) ->
  ~ In PIPE (Server.msg_control_id cf) ->
  ssplit PIPE (ack_header timestamp cf)
  = [lit "MSH"; lit "^~\&"; Server.receiving_app cf;
     Server.receiving_facility cf; Server.sending_app cf;
     Server.sending_facility cf; timestamp; []; lit "ACK^P03";
     Server.msg_control_id cf; lit "P"; lit "2.5"].
Proof.
  intros Ht Ha Hb Hc Hd Hm. unfold ack_header, ssplit.
  change (lit "MSH|^~\&|" ++ Server.receiving_app cf ++ lit "|"
            ++ Server.receiving_facility cf ++ lit "|"
            ++ Server.sending_app cf ++ lit "|"
            ++ Server.sending_facility cf ++ lit "|" ++ timestamp
            ++ lit "||ACK^P03|" ++ Server.msg_control_id cf ++ lit "|P|2.5")
    with (lit "MSH" ++ PIPE :: lit "^~\&" ++ PIPE ::
          Server.receiving_app cf ++ PIPE ::
          Server.receiving_facility cf ++ PIPE ::
          Server.sending_app cf ++ PIPE ::
          Server.sending_facility cf ++ PIPE ::
          timestamp ++ PIPE :: [] ++ PIPE :: lit "ACK^P03" ++ PIPE ::
          Server.msg_control_id cf ++ PIPE :: lit "P" ++ PIPE :: lit "2.5").
  repeat (rewrite (split_app_sep N.eqb N_eqb_eq);
          [|first [assumption | not_in_lit]]).
  rewrite (split_no_sep N.eqb N_eqb_eq) by not_in_lit. reflexivity.
Qed.

Lemma ack_status_fields (cf : Server.control_fields) :
  ~ In PIPE (Server.msg_control_id cf) ->
  ssplit PIPE (ack_status cf)
  = [lit "MSA"; lit "AA"; Server.msg_control_id cf;
     lit "Message received successfully"].
Proof.
  intros Hm. unfold ack_status, ssplit.
  change (lit "MSA|AA|" ++ Server.msg_control_id cf
            ++ lit "|Message received successfully")
    with (lit "MSA" ++ PIPE :: lit "AA" ++ PIPE ::
          Server.msg_control_id cf ++ PIPE ::
          lit "Message received successfully").
  repeat (rewrite (split_app_sep N.eqb N_eqb_eq);
          [|first [assumption | not_in_lit]]).
  rewrite (split_no_sep N.eqb N_eqb_eq) by not_in_lit. reflexivity.
Qed.

Lemma ack_lines (timestamp : str) (cf : Server.control_fields) :
  ~ In CR timestamp ->
  ~ In CR (Server.sending_app cf) ->
  ~ In CR (Server.sending_facility cf) ->
  ~ In CR (Server.receiving_app cf) ->
  ~ In CR (Server.receiving_facility cf) ->
  ~ In CR (Server.msg_control_id cf) ->
  ssplit CR (Server.ack_text timestamp cf)
  = [ack_header timestamp cf; ack_status cf; []].
Proof.
  intros Ht Ha Hb Hc Hd Hm. rewrite ack_text_lines. unfold ssplit.
  rewrite (split_app_sep N.eqb N_eqb_eq).
  - rewrite (split_app_sep N.eqb N_eqb_eq); [reflexivity|].
    unfold ack_status. repeat apply not_in_app; try assumption; not_in_lit.
  - unfold ack_header. repeat apply not_in_app; try assumption; not_in_lit.
Qed.

(** [extract_message_info] never raises, and only a line that starts with
    [MSH|] touches the message type. *)
Lemma info_line_spec (info : Server.message_info) (line : str) :
  exists info',
    Server.info_line info line = Some info' /\
    (sstartswith (lit "MSH|") line = false ->
     Server.message_type info' = Server.message_type info) /\
    (sstartswith (lit "MSH|") line = true ->
     forall f8, nth_error (ssplit PIPE line) 8 = Some f8 ->
                Server.message_type info' = f8).
Proof.
  unfold Server.info_line.
  destruct (sstartswith (lit "MSH|") line) eqn:M.
  - destruct (8 <? length (ssplit PIPE line)) eqn:L.
    + apply Nat.ltb_lt in L.
      destruct (getitem_some (ssplit PIPE line) 8 L) as [x E]. rewrite E.
      eexists; split; [reflexivity|]. split; [discriminate|].
      intros _ f8 E8. unfold Server.getitem in E. rewrite E8 in E.
      apply some_inj in E. now subst.
    + apply Nat.ltb_ge in L. exists info. split; [reflexivity|].
      split; [discriminate|]. intros _ f8 E8.
      assert (nth_error (ssplit PIPE line) 8 <> None) as H by congruence.
      apply nth_error_Some in H. lia.
  - destruct (sstartswith (lit "PID|") line).
    { destruct (3 <? length (ssplit PIPE line)) eqn:L.
      - apply Nat.ltb_lt in L.
        destruct (getitem_some (ssplit PIPE line) 3 L) as [x E]. rewrite E.
        eexists; split; [reflexivity|]. split; [reflexivity|discriminate].
      - exists info. split; [reflexivity|]. split; [reflexivity|discriminate]. }
    destruct (sstartswith (lit "FT1|") line).
    { destruct (25 <? length (ssplit PIPE line)) eqn:L.
      - apply Nat.ltb_lt in L.
        rewrite (proj2 (Nat.ltb_lt 24 (length (ssplit PIPE line)))) by lia.
        destruct (getitem_some (ssplit PIPE line) 24) as [x E]; [lia|].
        rewrite E.
        eexists; split; [reflexivity|]. split; [reflexivity|discriminate].
      - exists info. split; [reflexivity|]. split; [reflexivity|discriminate]. }
    exists info. split; [reflexivity|]. split; [reflexivity|discriminate].
Qed.

Lemma info_lines_spec (lines : list str) (info : Server.message_info) :
  exists info',
    Server.info_lines info lines = Some info' /\
    ((forall line, In line lines -> sstartswith (lit "MSH|") line = false) ->
     Server.message_type info' = Server.message_type info).
Proof.
  revert info; induction lines as [|line lines IH]; intros info.
  - exists info. split; [reflexivity|auto].
  - destruct (info_line_spec info line) as (i1 & E1 & K1 & _).
    destruct (IH i1) as (i2 & E2 & K2).
    exists i2. cbn [Server.info_lines]. rewrite E1. split; [exact E2|].
    intros H. rewrite K2 by (intros l Hl; apply H; now right).
    apply K1, H. now left.
Qed.

Lemma extract_message_info_total (message : str) :
  exists info, Server.extract_message_info message = Some info.
Proof.
  unfold Server.extract_message_info.
  destruct (info_lines_spec (ssplit CR message)
              {| Server.message_type := lit "Unknown";
                 Server.patient_id := lit "Unknown";
                 Server.codes := [] |}) as (info & E & _).
  eauto.
Qed.

(** C9 as the specification states it, message type in field 9 and message
    identifier in field 10, fails on a well-formed MDM^T02 message: field
    9 is the identifier MSG001, which the receiver echoes, and field 10 is
    the processing ID. *)
Lemma header_field_positions_counterexample :
  ~ positions_as_specified sample_message.
Proof.
  intros H.
  destruct (H {| Server.message_type := lit "MDM^T02";
                 Server.patient_id := lit "Unknown";
                 Server.codes := [] |}
              {| Server.sending_app := lit "EHR";
                 Server.sending_facility := lit "HOSPITAL";
                 Server.receiving_app := lit "REVSTREAM";
                 Server.receiving_facility := lit "INTEGRATION";
                 Server.msg_control_id := lit "MSG001" |}
              eq_refl eq_refl) as [H9 _].
  vm_compute in H9. discriminate H9.
Qed.

(* ================================================================= *)
(** ** Acknowledgments can always be encoded *)

Lemma lit_encodable (s : string) : encodable_str (lit s).
Proof.
  unfold encodable_str, lit. apply Forall_map. apply Forall_forall.
  intros a _.
  pose proof (N_ascii_bounded a) as H. unfold encodable.
  destruct (N.ltb_spec (N_of_ascii a) 0xD800); [reflexivity|lia].
Qed.

Lemma first_line_encodable (message : str) :
  encodable_str message -> encodable_str (first_line message).
Proof.
  unfold encodable_str. intros H. unfold first_line.
  pose proof (split_Forall N.eqb _ CR message H) as F. unfold ssplit.
  destruct (split N.eqb CR message); [constructor|]. now inversion F.
Qed.

Lemma field_encodable (message : str) (i : nat) (f : str) :
  encodable_str message ->
  nth_error (ssplit PIPE (first_line message)) i = Some f -> encodable_str f.
Proof.
  intros H E. apply nth_error_In in E.
  pose proof (split_Forall N.eqb _ PIPE _ (first_line_encodable _ H)) as F.
  rewrite Forall_forall in F. exact (F f E).
Qed.

Lemma ack_text_encodable (timestamp : string) (message : str)
    (cf : Server.control_fields) :
  encodable_str message ->
  Server.create_ack_fields message = Some cf ->
  encodable_str (Server.ack_text (lit timestamp) cf).
Proof.
  intros H E.
  assert (K : encodable_str (Server.sending_app cf) /\
              encodable_str (Server.sending_facility cf) /\
              encodable_str (Server.receiving_app cf) /\
              encodable_str (Server.receiving_facility cf) /\
              encodable_str (Server.msg_control_id cf)).
  { destruct (Nat.lt_ge_cases (length (ssplit PIPE (first_line message))) 10)
      as [Hs|Hl].
    - rewrite (create_ack_fields_short message Hs) in E.
      apply some_inj in E. subst cf. unfold default_fields.
      cbn [Server.sending_app Server.sending_facility Server.receiving_app
           Server.receiving_facility Server.msg_control_id].
      repeat split; apply lit_encodable.
    - destruct (create_ack_fields_long message Hl)
        as (f2 & f3 & f4 & f5 & f9 & E2 & E3 & E4 & E5 & E9 & E').
      rewrite E' in E. apply some_inj in E. subst cf.
      cbn [Server.sending_app Server.sending_facility Server.receiving_app
           Server.receiving_facility Server.msg_control_id].
      repeat split; eapply field_encodable; eauto. }
  destruct K as (K1 & K2 & K3 & K4 & K5).
  unfold Server.ack_text, encodable_str in *.
  repeat (apply Forall_app; split);
    first [assumption | apply lit_encodable | repeat constructor].
Qed.

Lemma create_ack_fields_total (message : str) :
  exists cf, Server.create_ack_fields message = Some cf.
Proof.
  destruct (Nat.lt_ge_cases (length (ssplit PIPE (first_line message))) 10)
    as [Hs|Hl].
  - exists default_fields. now apply create_ack_fields_short.
  - destruct (create_ack_fields_long message Hl)
      as (f2 & f3 & f4 & f5 & f9 & _ & _ & _ & _ & _ & E).
    eexists. exact E.
Qed.

(** [create_ack] does not raise on a message that was decoded from
    bytes. *)
Lemma create_ack_decoded (timestamp : string) (payload : bytes) :
  exists cf body,
    Server.create_ack_fields (decode_replace payload) = Some cf /\
    encode (Server.ack_text (lit timestamp) cf) = Some body /\
    Server.create_ack (lit timestamp) (decode_replace payload)
      = Some (frame body).
Proof.
  destruct (create_ack_fields_total (decode_replace payload)) as [cf E].
  destruct (encode_encodable _ (ack_text_encodable timestamp _ cf
                                  (decode_replace_encodable payload) E))
    as [body Eb].
  exists cf, body. split; [exact E|]. split; [exact Eb|].
  unfold Server.create_ack. now rewrite E, Eb.
Qed.

(* ================================================================= *)
(** ** The receiving loop *)

(** One pass over a buffer from which a frame can be taken. *)
Lemma iteration_deframe (e : Server.env) (st : Server.state)
    (payload buffer' : bytes) :
  Server.deframe (Server.buffer st) = Some (payload, buffer') ->
  exists info ack,
    Server.extract_message_info (decode_replace payload) = Some info /\
    Server.create_ack (lit (Server.clock e (Server.handled st)))
                      (decode_replace payload) = Some ack /\
    Server.iteration e st =
      Some (if Server.save_ok e (Server.handled st) (decode_replace payload)
            then if Server.send_ok e (Server.handled st) ack
                 then Server.Continue
                        (handled_state st buffer' (decode_replace payload)
                                       info ack)
                 else Server.Raised
                        (Server.logged st
                           ([Server.Received (decode_replace payload);
                             Server.Info info]
                              ++ [Server.Saved (decode_replace payload)])
                           buffer')
            else Server.Raised
                   (Server.logged st
                      [Server.Received (decode_replace payload);
                       Server.Info info] buffer')).
Proof.
  intros D.
  destruct (extract_message_info_total (decode_replace payload)) as [info Ei].
  destruct (create_ack_decoded (Server.clock e (Server.handled st)) payload)
    as (cf & body & _ & _ & Ea).
  exists info, (frame body). split; [exact Ei|]. split; [exact Ea|].
  unfold Server.iteration. rewrite D. cbv zeta. rewrite Ei, Ea.
  destruct (Server.save_ok e (Server.handled st) (decode_replace payload));
    [|reflexivity].
  destruct (Server.send_ok e (Server.handled st) (frame body)); reflexivity.
Qed.

Lemma iteration_none (e : Server.env) (st : Server.state) :
  Server.deframe (Server.buffer st) = None -> Server.iteration e st = None.
Proof. intros D. unfold Server.iteration. now rewrite D. Qed.

Lemma iteration_shrinks (e : Server.env) (st st' : Server.state) :
  Server.iteration e st = Some (Server.Continue st') ->
  length (Server.buffer st') + 2 <= length (Server.buffer st).
Proof.
  unfold Server.iteration.
  destruct (Server.deframe (Server.buffer st)) as [[payload b']|] eqn:D;
    [|discriminate].
  apply deframe_shrinks in D. cbv zeta.
  destruct (Server.extract_message_info _); [|discriminate].
  destruct (Server.save_ok _ _ _); [|discriminate].
  destruct (Server.create_ack _ _); [|discriminate].
  destruct (Server.send_ok _ _ _); [|discriminate].
  intros [= <-]. exact D.
Qed.

Lemma iteration_some_length (e : Server.env) (st : Server.state)
    (o : Server.outcome) :
  Server.iteration e st = Some o -> 2 <= length (Server.buffer st).
Proof.
  unfold Server.iteration.
  destruct (Server.deframe (Server.buffer st)) as [[payload b']|] eqn:D;
    [|discriminate].
  apply deframe_shrinks in D. lia.
Qed.

(** The loop ends: more fuel than the buffer is long changes nothing. *)
Lemma drain_fuel_more (e : Server.env) (fuel : nat) (st : Server.state) :
  length (Server.buffer st) <= fuel ->
  Server.drain_fuel e (S fuel) st = Server.drain_fuel e fuel st.
Proof.
  revert st; induction fuel as [|fuel IH]; intros st H.
  - cbn. destruct (Server.iteration e st) as [o|] eqn:E; [|reflexivity].
    apply iteration_some_length in E. lia.
  - change (Server.drain_fuel e (S (S fuel)) st)
      with (match Server.iteration e st with
            | None => Server.Continue st
            | Some (Server.Continue st') => Server.drain_fuel e (S fuel) st'
            | Some (Server.Raised st') => Server.Raised st'
            end).
    change (Server.drain_fuel e (S fuel) st)
      with (match Server.iteration e st with
            | None => Server.Continue st
            | Some (Server.Continue st') => Server.drain_fuel e fuel st'
            | Some (Server.Raised st') => Server.Raised st'
            end).
    destruct (Server.iteration e st) as [[st'|st']|] eqn:E; try reflexivity.
    apply IH. apply iteration_shrinks in E. lia.
Qed.

Lemma drain_fuel_stable (e : Server.env) (fuel : nat) (st : Server.state) :
  length (Server.buffer st) <= fuel ->
  Server.drain_fuel e fuel st = Server.drain e st.
Proof.
  unfold Server.drain. induction fuel as [|fuel IH]; intros H.
  - replace (length (Server.buffer st)) with 0 by lia. reflexivity.
  - destruct (Nat.eq_dec (length (Server.buffer st)) (S fuel)) as [->|Hne];
      [reflexivity|].
    rewrite drain_fuel_more by lia. apply IH. lia.
Qed.

Lemma drain_continue (e : Server.env) (st st' : Server.state) :
  Server.iteration e st = Some (Server.Continue st') ->
  Server.drain e st = Server.drain e st'.
Proof.
  intros E. pose proof (iteration_some_length _ _ _ E) as L.
  pose proof (iteration_shrinks _ _ _ E) as K.
  unfold Server.drain at 1.
  destruct (length (Server.buffer st)) as [|fuel] eqn:Len; [lia|].
  cbn [Server.drain_fuel]. rewrite E. apply drain_fuel_stable. lia.
Qed.

Lemma drain_raised (e : Server.env) (st st' : Server.state) :
  Server.iteration e st = Some (Server.Raised st') ->
  Server.drain e st = Server.Raised st'.
Proof.
  intros E. pose proof (iteration_some_length _ _ _ E) as L.
  unfold Server.drain.
  destruct (length (Server.buffer st)) as [|fuel] eqn:Len; [lia|].
  cbn [Server.drain_fuel]. now rewrite E.
Qed.

Lemma drain_done (e : Server.env) (st : Server.state) :
  Server.iteration e st = None -> Server.drain e st = Server.Continue st.
Proof.
  intros E. unfold Server.drain.
  destruct (length (Server.buffer st)); cbn [Server.drain_fuel];
    [reflexivity|now rewrite E].
Qed.

(** When the loop is left normally, no complete frame is in the buffer. *)
Lemma drain_exit (e : Server.env) (fuel : nat) (st st' : Server.state) :
  length (Server.buffer st) <= fuel ->
  Server.drain_fuel e fuel st = Server.Continue st' ->
  Server.iteration e st' = None.
Proof.
  revert st; induction fuel as [|fuel IH]; intros st H.
  - cbn. intros [= <-].
    destruct (Server.iteration e st) as [o|] eqn:E; [|reflexivity].
    apply iteration_some_length in E. lia.
  - cbn [Server.drain_fuel].
    destruct (Server.iteration e st) as [[st1|st1]|] eqn:E.
    + apply IH. apply iteration_shrinks in E. lia.
    + discriminate.
    + now intros [= <-].
Qed.

(** A reliable environment handles a frame at the head of the buffer and
    goes on. *)
Lemma iteration_frame (e : Server.env) (st : Server.state)
    (p rest : bytes) :
  reliable e ->
  bcontains Server.MLLP_END p = false ->
  Server.buffer st = frame p ++ rest ->
  exists info ack,
    Server.extract_message_info (decode_replace p) = Some info /\
    Server.create_ack (lit (Server.clock e (Server.handled st)))
                      (decode_replace p) = Some ack /\
    Server.iteration e st
      = Some (Server.Continue
                (handled_state st rest (decode_replace p) info ack)).
Proof.
  intros [Hsave Hsend] Hp Hb.
  assert (D : Server.deframe (Server.buffer st) = Some (p, rest))
    by (rewrite Hb; now apply deframe_frame).
  destruct (iteration_deframe e st p rest D) as (info & ack & Ei & Ea & E).
  exists info, ack. rewrite Hsave, Hsend in E. auto.
Qed.

(** A frame that is not complete yet holds no end marker. *)
Lemma incomplete_frame (p c1 c2 : bytes) :
  bcontains Server.MLLP_END p = false ->
  c1 ++ c2 = frame p -> c2 <> [] -> Server.deframe c1 = None.
Proof.
  intros Hp Hc Hne. unfold Server.deframe.
  destruct (bfind Server.MLLP_END c1) as [k|] eqn:E.
  - exfalso. pose proof (find_bound Byte.eqb _ _ _ E) as Hb.
    apply (find_app Byte.eqb _ _ c2) in E. rewrite Hc in E.
    pose proof (find_end_frame p [] Hp) as F. rewrite app_nil_r in F.
    unfold bfind in F. rewrite F in E. apply some_inj in E. subst k.
    assert (L : length (c1 ++ c2) = length p + 3)
      by (rewrite Hc; apply frame_length).
    rewrite length_app in L. simpl in Hb.
    destruct c2; [now apply Hne|]. simpl in L. lia.
  - destruct (bfind Server.MLLP_START c1); reflexivity.
Qed.

(** C3. Split-read reassembly: for every payload [p] without markers and
    every split of its frame in two chunks that are not empty, the session
    handles nothing after the first chunk and keeps it in the buffer, and
    after the second chunk it has taken [p], stored its text and sent one
    acknowledgment.  A frame that ends in a lone 0x1C is not complete. *)
Theorem split_read_reassembly (e : Server.env) (p c1 c2 : bytes) :
  clean p -> reliable e ->
  c1 <> [] -> c2 <> [] -> c1 ++ c2 = frame p ->
  exists info ack,
    Server.extract_message_info (decode_replace p) = Some info /\
    Server.create_ack (lit (Server.clock e 0)) (decode_replace p) = Some ack /\
    Server.deframe c1 = None /\
    Server.deframe (Server.MLLP_START ++ p ++ [x1c]) = None /\
    Server.handle_client e [Server.Data c1]
      = Server.Awaiting {| Server.buffer := c1;
                           Server.handled := 0;
                           Server.log := [] |} /\
    Server.deframe (c1 ++ c2) = Some (p, []) /\
    Server.handle_client e [Server.Data c1; Server.Data c2]
      = Server.Awaiting
          {| Server.buffer := [];
             Server.handled := 1;
             Server.log := [Server.Received (decode_replace p);
                            Server.Info info;
                            Server.Saved (decode_replace p);
                            Server.Sent ack] |}.
Proof.
  intros [_ Hp] He Hc1 Hc2 Hc.
  pose proof (incomplete_frame p c1 c2 Hp Hc Hc2) as D1.
  set (st1 := {| Server.buffer := c1; Server.handled := 0;
                 Server.log := [] |}).
  set (st2 := {| Server.buffer := c1 ++ c2; Server.handled := 0;
                 Server.log := [] |}).
  destruct (iteration_frame e st2 p [] He Hp) as (info & ack & Ei & Ea & E2).
  { cbn. now rewrite app_nil_r. }
  exists info, ack. split; [exact Ei|]. split; [exact Ea|].
  split; [exact D1|]. split.
  { apply (incomplete_frame p (Server.MLLP_START ++ p ++ [x1c]) [x0d] Hp);
      [|discriminate].
    unfold frame. cbn. rewrite <- app_assoc. reflexivity. }
  assert (S1 : Server.drain e st1 = Server.Continue st1)
    by (apply drain_done, iteration_none; exact D1).
  assert (S2 : Server.drain e st2
               = Server.Continue
                   (handled_state st2 [] (decode_replace p) info ack)).
  { rewrite (drain_continue e _ _ E2). apply drain_done, iteration_none.
    reflexivity. }
  split; [|split].
  - unfold Server.handle_client. destruct c1 as [|b c1']; [now elim Hc1|].
    cbn [Server.serve Server.buffer Server.handled Server.log app].
    fold st1. now rewrite S1.
  - rewrite Hc, <- (app_nil_r (frame p)). now apply deframe_frame.
  - unfold Server.handle_client. destruct c1 as [|b c1']; [now elim Hc1|].
    cbn [Server.serve Server.buffer Server.handled Server.log app].
    fold st1. rewrite S1. destruct c2 as [|b2 c2']; [now elim Hc2|].
    cbn [Server.serve]. fold st2 in S2 |- *.
    change {| Server.buffer := Server.buffer st1 ++ b2 :: c2';
              Server.handled := Server.handled st1;
              Server.log := Server.log st1 |} with st2.
    rewrite S2. reflexivity.
Qed.

Lemma steady_reliable : reliable steady.
Proof. split; reflexivity. Qed.

(** The end marker split after its first byte. *)
Lemma split_read_reassembly_witness :
  exists info ack,
    Server.extract_message_info (decode_replace [x41]) = Some info /\
    Server.create_ack (lit (Server.clock steady 0)) (decode_replace [x41])
      = Some ack /\
    Server.deframe [x0b; x41; x1c] = None /\
    Server.deframe (Server.MLLP_START ++ [x41] ++ [x1c]) = None /\
    Server.handle_client steady [Server.Data [x0b; x41; x1c]]
      = Server.Awaiting {| Server.buffer := [x0b; x41; x1c];
                           Server.handled := 0;
                           Server.log := [] |} /\
    Server.deframe ([x0b; x41; x1c] ++ [x0d]) = Some ([x41], []) /\
    Server.handle_client steady
        [Server.Data [x0b; x41; x1c]; Server.Data [x0d]]
      = Server.Awaiting
          {| Server.buffer := [];
             Server.handled := 1;
             Server.log := [Server.Received (decode_replace [x41]);
                            Server.Info info;
                            Server.Saved (decode_replace [x41]);
                            Server.Sent ack] |}.
Proof.
  apply (split_read_reassembly steady [x41] [x0b; x41; x1c] [x0d]).
  - exact clean_A.
  - exact steady_reliable.
  - discriminate.
  - discriminate.
  - reflexivity.
Defined.

(* ================================================================= *)
(** ** Storage failures *)

(** C8 as the specification states it fails: with a storage that fails the
    session sends no acknowledgment and does not go on. *)
Lemma storage_failure_counterexample :
  ~ acknowledged_despite_failure disk_full [x41].
Proof.
  intros H. destruct (H eq_refl) as (st & ack & E & _).
  vm_compute in E. discriminate E.
Qed.

(* ================================================================= *)
(** ** Text decoding of the payload *)


(* ================================================================= *)
(** ** Noise before a frame *)

Lemma no_end_before_start (noise p : bytes) :
  bcontains Server.MLLP_END noise = false ->
  bcontains Server.MLLP_END p = false ->
  bcontains Server.MLLP_END (noise ++ x0b :: p) = false.
Proof.
  unfold bcontains, contains. fold (bfind Server.MLLP_END noise).
  fold (bfind Server.MLLP_END p).
  fold (bfind Server.MLLP_END (noise ++ x0b :: p)).
  intros Hn Hp.
  destruct (bfind Server.MLLP_END p) eqn:Ep; [discriminate|].
  induction noise as [|a noise IH].
  - unfold bfind in *. cbn [app]. rewrite find_cons.
    destruct p as [|b p].
    + rewrite startswith_end_short. cbn. reflexivity.
    + rewrite startswith_end. cbn [Byte.eqb andb].
      change (Byte.eqb x1c x0b) with false. cbn [andb option_map].
      rewrite Ep. reflexivity.
  - destruct (bfind Server.MLLP_END (a :: noise)) eqn:En; [discriminate|].
    apply find_end_cons in En as [E1 E2].
    unfold bfind in *. cbn [app]. rewrite find_cons.
    assert (Hs : startswith Byte.eqb Server.MLLP_END
                   (a :: noise ++ x0b :: p) = false).
    { destruct noise as [|b noise].
      - cbn [app]. rewrite startswith_end.
        change (Byte.eqb x0d x0b) with false. apply andb_false_r.
      - cbn [app]. rewrite startswith_end. now rewrite startswith_end in E1. }
    rewrite Hs. rewrite E2 in IH.
    destruct (find Byte.eqb Server.MLLP_END (noise ++ x0b :: p));
      [discriminate (IH eq_refl)|reflexivity].
Qed.

Lemma find_start_after (noise rest : bytes) :
  bcontains Server.MLLP_START noise = false ->
  bfind Server.MLLP_START (noise ++ x0b :: rest) = Some (length noise).
Proof.
  unfold bcontains, contains, bfind.
  induction noise as [|a noise IH]; intros H; [reflexivity|].
  rewrite find_cons in H. cbn [app]. rewrite find_cons.
  assert (E : startswith Byte.eqb Server.MLLP_START
                (a :: noise ++ x0b :: rest)
              = startswith Byte.eqb Server.MLLP_START (a :: noise))
    by reflexivity.
  rewrite E. destruct (startswith Byte.eqb Server.MLLP_START (a :: noise));
    [discriminate|].
  rewrite IH; [reflexivity|].
  destruct (find Byte.eqb Server.MLLP_START noise); [discriminate|reflexivity].
Qed.

Lemma strip_frame (p : bytes) : slice_1_m2 (frame p) = p.
Proof.
  unfold slice_1_m2, slice. rewrite frame_length.
  replace (length p + 3 - 2 - 1) with (length p) by lia.
  change (skipn 1 (frame p)) with (p ++ Server.MLLP_END).
  now rewrite firstn_app, firstn_all, Nat.sub_diag, firstn_O, app_nil_r.
Qed.

(** Noise without markers is dropped, and the frame behind it is taken. *)
Lemma noise_without_markers (noise p rest : bytes) :
  clean noise -> bcontains Server.MLLP_END p = false ->
  Server.deframe (noise ++ frame p ++ rest) = Some (p, rest).
Proof.
  intros [Hs He] Hp. unfold Server.deframe.
  assert (B : bfind Server.MLLP_START (noise ++ frame p ++ rest)
              = Some (length noise))
    by (apply (find_start_after noise _ Hs)).
  assert (F : bfind Server.MLLP_END (noise ++ frame p ++ rest)
              = Some (length noise + S (length p))).
  { pose proof (find_end_after (noise ++ x0b :: p) rest
                  (no_end_before_start noise p He Hp)) as F.
    rewrite length_app in F. cbn [length] in F. rewrite <- F.
    f_equal. unfold frame. cbn [Server.MLLP_START app].
    now rewrite <- !app_assoc. }
  rewrite B, F. cbv zeta. change (length Server.MLLP_END) with 2.
  f_equal. f_equal.
  - unfold slice at 1.
    rewrite skipn_app, skipn_all, Nat.sub_diag, skipn_O, app_nil_l.
    replace (length noise + S (length p) + 2 - length noise)
      with (length (frame p)) by (rewrite frame_length; lia).
    rewrite firstn_app, firstn_all, Nat.sub_diag, firstn_O, app_nil_r.
    apply strip_frame.
  - rewrite skipn_app, skipn_all2 by lia.
    replace (length noise + S (length p) + 2 - length noise)
      with (length (frame p)) by (rewrite frame_length; lia).
    now rewrite app_nil_l, skipn_app, skipn_all, Nat.sub_diag, skipn_O.
Qed.

(** C2. The loop looks for the first end marker of the whole buffer, not
    for the first one after the start marker: with the noise 0x1C 0x0D in
    front of the frame of "A" it takes an empty payload first, stores it
    and acknowledges it, and only then takes "A". *)
Theorem end_marker_in_noise :
  Server.decode_all ([x1c; x0d] ++ frame [x41]) = ([[]; [x41]], []) /\
  exists i0 a0 i1 a1,
    Server.handle_client steady [Server.Data ([x1c; x0d] ++ frame [x41])]
      = Server.Awaiting
          {| Server.buffer := [];
             Server.handled := 2;
             Server.log := [Server.Received []; Server.Info i0;
                            Server.Saved []; Server.Sent a0;
                            Server.Received (lit "A"); Server.Info i1;
                            Server.Saved (lit "A"); Server.Sent a1] |}.
Proof.
  split; [reflexivity|]. do 4 eexists. vm_compute. reflexivity.
Qed.

(* ================================================================= *)
(** ** The sender *)




(** The shape of what [send_hl7_message] returns once the message went
    out. *)
Lemma sent_then (net : Sender.network) (message : str) (payload : bytes) :
  encode message = Some payload ->
  Sender.create net = Sender.Ok tt ->
  Sender.connect net = Sender.Ok tt ->
  Sender.send net (frame payload) = Sender.Ok tt ->
  Sender.send_hl7_message net message
  = (Some match fst (Sender.receive [] (Sender.recv net)) with
          | Sender.Raise e => Sender.handler e
          | Sender.Ok [] => lit "No response received"
          | Sender.Ok (b :: response) =>
              decode_replace
                (remove_all Byte.eqb Sender.MLLP_END
                   (remove_all Byte.eqb Sender.MLLP_START (b :: response)))
          end,
     [Sender.OpConnect; Sender.OpSend (frame payload)]
       ++ repeat Sender.OpRecv (snd (Sender.receive [] (Sender.recv net)))
       ++ [Sender.OpClose]).
Proof.
  intros He Hk Hc Hs. unfold Sender.send_hl7_message.
  rewrite He, Hk, Hc. cbv zeta. rewrite sender_frame, Hs.
  destruct (Sender.receive [] (Sender.recv net)) as [[[|b response]|ex] n];
    reflexivity.
Qed.

(* ================================================================= *)
(** ** More on searching *)

Section FindFacts.
Context {A : Type}.
Variable eqb : A -> A -> bool.
Hypothesis eqb_eq : forall x y, eqb x y = true <-> x = y.

Lemma startswith_prefix (p l : list A) :
  startswith eqb p l = true -> l = p ++ skipn (length p) l.
Proof.
  revert l; induction p as [|x p IH]; intros [|y l]; simpl; intros H;
    try reflexivity; try discriminate.
  apply andb_true_iff in H as [H1 H2]. apply eqb_eq in H1. subst y.
  f_equal. now apply IH.
Qed.

(** Where the first occurrence is, the sequence splits around it. *)
Lemma find_split (sub l : list A) (k : nat) :
  find eqb sub l = Some k ->
  l = firstn k l ++ sub ++ skipn (k + length sub) l.
Proof.
  revert k; induction l as [|y l IH]; intros k.
  - rewrite find_nil. destruct (startswith eqb sub []) eqn:E; [|discriminate].
    intros [= <-]. destruct sub; [reflexivity|discriminate].
  - rewrite find_cons. destruct (startswith eqb sub (y :: l)) eqn:E.
    + intros [= <-]. now apply startswith_prefix.
    + destruct (find eqb sub l) as [j|]; simpl; [|discriminate].
      intros [= <-]. cbn [firstn skipn Nat.add app]. f_equal.
      now apply IH.
Qed.

Lemma find_none_tail (sub : list A) (y : A) (l : list A) :
  find eqb sub (y :: l) = None -> find eqb sub l = None.
Proof.
  rewrite find_cons. destruct (startswith eqb sub (y :: l)); [discriminate|].
  destruct (find eqb sub l); [discriminate|reflexivity].
Qed.

Lemma contains_app_false_r (sub l r : list A) :
  contains eqb sub (l ++ r) = false -> contains eqb sub r = false.
Proof.
  unfold contains. induction l as [|y l IH]; [trivial|].
  cbn [app]. intros H. apply IH.
  destruct (find eqb sub (y :: l ++ r)) eqn:E; [discriminate|].
  now rewrite (find_none_tail _ _ _ E).
Qed.

(** Nothing occurs in front of the first occurrence. *)
Lemma find_first (sub l : list A) (k : nat) :
  sub <> [] -> find eqb sub l = Some k ->
  contains eqb sub (firstn k l) = false.
Proof.
  intros Hne H. unfold contains.
  destruct (find eqb sub (firstn k l)) as [j|] eqn:E; [|reflexivity].
  exfalso. pose proof (find_bound eqb _ _ _ E) as Hb.
  apply (find_app eqb _ _ (skipn k l)) in E.
  rewrite firstn_skipn in E. rewrite E in H. apply some_inj in H. subst j.
  rewrite length_firstn in Hb. destruct sub; [now apply Hne|].
  simpl in Hb. lia.
Qed.

Lemma contains_true_find (sub l : list A) :
  contains eqb sub l = true -> exists k, find eqb sub l = Some k.
Proof.
  unfold contains. destruct (find eqb sub l) as [k|]; [eauto|discriminate].
Qed.
End FindFacts.

Lemma byte_eqb_eq (x y : byte) : Byte.eqb x y = true <-> x = y.
Proof.
  split; [apply Byte.byte_dec_bl|apply Byte.byte_dec_lb].
Qed.

(* ================================================================= *)
(** ** The loop over a buffer, in general *)

Lemma decode_all_fuel_more (fuel : nat) (b : bytes) :
  length b <= fuel ->
  Server.decode_all_fuel (S fuel) b = Server.decode_all_fuel fuel b.
Proof.
  revert b; induction fuel as [|fuel IH]; intros b H.
  - destruct b; [reflexivity|simpl in H; lia].
  - change (Server.decode_all_fuel (S (S fuel)) b)
      with (match Server.deframe b with
            | None => ([], b)
            | Some (payload, b') =>
                let (ps, rest) := Server.decode_all_fuel (S fuel) b' in
                (payload :: ps, rest)
            end).
    change (Server.decode_all_fuel (S fuel) b)
      with (match Server.deframe b with
            | None => ([], b)
            | Some (payload, b') =>
                let (ps, rest) := Server.decode_all_fuel fuel b' in
                (payload :: ps, rest)
            end).
    destruct (Server.deframe b) as [[payload b']|] eqn:D; [|reflexivity].
    apply deframe_shrinks in D. rewrite IH by lia. reflexivity.
Qed.

Lemma decode_all_fuel_stable (fuel : nat) (b : bytes) :
  length b <= fuel -> Server.decode_all_fuel fuel b = Server.decode_all b.
Proof.
  unfold Server.decode_all. induction fuel as [|fuel IH]; intros H.
  - replace (length b) with 0 by lia. reflexivity.
  - destruct (Nat.eq_dec (length b) (S fuel)) as [->|Hne]; [reflexivity|].
    rewrite decode_all_fuel_more by lia. apply IH. lia.
Qed.

(** The two equations of the loop. *)
Lemma decode_all_step (b payload b' : bytes) :
  Server.deframe b = Some (payload, b') ->
  Server.decode_all b
  = (payload :: fst (Server.decode_all b'), snd (Server.decode_all b')).
Proof.
  intros D. pose proof (deframe_shrinks _ _ _ D) as L.
  unfold Server.decode_all at 1.
  destruct (length b) as [|fuel] eqn:Len; [lia|].
  cbn [Server.decode_all_fuel]. rewrite D.
  rewrite decode_all_fuel_stable by lia.
  destruct (Server.decode_all b'); reflexivity.
Qed.

Lemma decode_all_done (b : bytes) :
  Server.deframe b = None -> Server.decode_all b = ([], b).
Proof.
  intros D. unfold Server.decode_all.
  destruct (length b); cbn [Server.decode_all_fuel]; [reflexivity|].
  now rewrite D.
Qed.

Lemma deframe_no_end (b : bytes) :
  bcontains Server.MLLP_END b = false -> Server.deframe b = None.
Proof.
  unfold bcontains, contains, Server.deframe, bfind.
  destruct (find Byte.eqb Server.MLLP_END b); [discriminate|].
  destruct (find Byte.eqb Server.MLLP_START b); reflexivity.
Qed.

Lemma deframe_no_start (b : bytes) :
  bcontains Server.MLLP_START b = false -> Server.deframe b = None.
Proof.
  unfold bcontains, contains, Server.deframe, bfind.
  destruct (find Byte.eqb Server.MLLP_START b); [discriminate|reflexivity].
Qed.

Lemma deframe_none (b : bytes) :
  Server.deframe b = None ->
  bcontains Server.MLLP_START b = false \/
  bcontains Server.MLLP_END b = false.
Proof.
  unfold bcontains, contains, Server.deframe, bfind.
  destruct (find Byte.eqb Server.MLLP_START b); [|now left].
  destruct (find Byte.eqb Server.MLLP_END b); [discriminate|now right].
Qed.

(** What a pass leaves is the end of the buffer. *)
Lemma deframe_suffix (b payload b' : bytes) :
  Server.deframe b = Some (payload, b') ->
  exists k, b' = skipn k b /\ length payload + 2 <= k <= length b.
Proof.
  unfold Server.deframe.
  destruct (bfind Server.MLLP_START b) as [s|]; [|discriminate].
  destruct (bfind Server.MLLP_END b) as [e|] eqn:E; [|discriminate].
  intros [= <- <-]. exists (e + length Server.MLLP_END). split; [reflexivity|].
  apply find_bound in E. split; [|exact E].
  unfold slice_1_m2, slice. rewrite !length_firstn, !length_skipn.
  rewrite !length_firstn, !length_skipn. simpl. lia.
Qed.

(** Frames one behind the other. *)
Lemma decode_all_frames (ps : list bytes) (tail : bytes) :
  Forall (fun p => bcontains Server.MLLP_END p = false) ps ->
  bcontains Server.MLLP_END tail = false ->
  Server.decode_all (concat (map frame ps) ++ tail) = (ps, tail).
Proof.
  intros Hps Ht. induction Hps as [|p ps Hp Hps IH].
  - apply decode_all_done. now apply deframe_no_end.
  - cbn [map concat]. rewrite <- app_assoc.
    rewrite (decode_all_step _ p (concat (map frame ps) ++ tail))
      by now apply deframe_frame.
    now rewrite IH.
Qed.

(** X1. Frames that arrive together: when the buffer holds bytes without
    markers, then the frames of one or more payloads that have no end
    marker (a start marker inside a payload does no harm), then bytes
    without end marker, the loop takes the payloads in their order and
    leaves exactly the bytes behind the last frame. *)
Theorem batch_with_noise_and_tail
    (noise p : bytes) (ps : list bytes) (tail : bytes) :
  clean noise ->
  Forall (fun q => bcontains Server.MLLP_END q = false) (p :: ps) ->
  bcontains Server.MLLP_END tail = false ->
  Server.decode_all (noise ++ concat (map frame (p :: ps)) ++ tail)
  = (p :: ps, tail).
Proof.
  intros Hn Hps Ht. inversion Hps as [|p' ps' Hp Hps']; subst.
  cbn [map concat]. rewrite <- app_assoc.
  rewrite (decode_all_step _ p (concat (map frame ps) ++ tail))
    by now apply noise_without_markers.
  now rewrite decode_all_frames.
Qed.

Lemma batch_with_noise_and_tail_witness :
  Server.decode_all
    ([x55; x1c] ++ concat (map frame [[x41; x0b]; []; [x42]]) ++ [x0b; x43])
  = ([[x41; x0b]; []; [x42]], [x0b; x43]).
Proof.
  apply (batch_with_noise_and_tail [x55; x1c] [x41; x0b] [[]; [x42]]
           [x0b; x43]).
  - split; reflexivity.
  - repeat constructor.
  - reflexivity.
Defined.

Lemma decode_all_rest (b : bytes) :
  Server.deframe (snd (Server.decode_all b)) = None /\
  (exists consumed, b = consumed ++ snd (Server.decode_all b)) /\
  length (concat (fst (Server.decode_all b)))
    + 2 * length (fst (Server.decode_all b))
    + length (snd (Server.decode_all b)) <= length b.
Proof.
  remember (length b) as n eqn:Hn. revert b Hn.
  induction n as [n IH] using lt_wf_ind. intros b Hn.
  destruct (Server.deframe b) as [[payload b']|] eqn:D.
  - destruct (deframe_suffix _ _ _ D) as (k & -> & Hk).
    rewrite (decode_all_step _ _ _ D). cbn [fst snd].
    assert (L : length (skipn k b) < n) by (rewrite length_skipn; lia).
    destruct (IH _ L (skipn k b) eq_refl) as (I1 & (c & I2) & I3).
    split; [exact I1|]. split.
    + exists (firstn k b ++ c). rewrite <- app_assoc, <- I2.
      now rewrite firstn_skipn.
    + cbn [concat length]. rewrite length_app.
      pose proof (length_skipn k b) as Ls. lia.
  - rewrite (decode_all_done _ D). cbn [fst snd concat length].
    split; [exact D|]. split; [now exists []|lia].
Qed.

(** X2. The loop over the buffer ends for every buffer; what it leaves holds
    no start marker or no end marker, it is the end of the buffer it was
    given, and every payload taken costs its own bytes and two more at
    least: nothing is invented and nothing is taken twice. *)
Theorem decode_all_leaves_no_frame (b : bytes) :
  (bcontains Server.MLLP_START (snd (Server.decode_all b)) = false \/
   bcontains Server.MLLP_END (snd (Server.decode_all b)) = false) /\
  (exists consumed, b = consumed ++ snd (Server.decode_all b)) /\
  length (concat (fst (Server.decode_all b)))
    + 2 * length (fst (Server.decode_all b))
    + length (snd (Server.decode_all b)) <= length b.
Proof.
  destruct (decode_all_rest b) as (H1 & H2 & H3).
  split; [now apply deframe_none|]. split; [exact H2|exact H3].
Qed.

(** The start marker is one byte. *)
Lemma contains_start (l : bytes) :
  bcontains Server.MLLP_START l = existsb (Byte.eqb x0b) l.
Proof.
  unfold bcontains, contains, bfind. induction l as [|x l IH]; [reflexivity|].
  rewrite find_cons.
  change (startswith Byte.eqb Server.MLLP_START (x :: l))
    with (Byte.eqb x0b x && true).
  rewrite andb_true_r. cbn [existsb]. rewrite <- IH.
  destruct (Byte.eqb x0b x); [reflexivity|].
  destruct (find Byte.eqb Server.MLLP_START l); reflexivity.
Qed.

Lemma no_start_app (l r : bytes) :
  bcontains Server.MLLP_START (l ++ r) = false <->
  bcontains Server.MLLP_START l = false /\
  bcontains Server.MLLP_START r = false.
Proof.
  rewrite !contains_start, existsb_app. apply orb_false_iff.
Qed.

(** X3. A payload that holds the end marker is cut there: of the frame of
    [a], the end marker and [b], the loop takes [a] alone, and [b] with
    the true end marker stays in the buffer, where no start marker comes
    to deliver it. *)
Theorem end_marker_cuts_payload (a b : bytes) :
  bcontains Server.MLLP_END a = false ->
  bcontains Server.MLLP_START b = false ->
  Server.decode_all (frame (a ++ Server.MLLP_END ++ b))
  = ([a], b ++ Server.MLLP_END).
Proof.
  intros Ha Hs.
  assert (E : frame (a ++ Server.MLLP_END ++ b)
              = frame a ++ (b ++ Server.MLLP_END)).
  { unfold frame. now rewrite <- !app_assoc. }
  rewrite E. rewrite (decode_all_step _ a (b ++ Server.MLLP_END))
    by now apply deframe_frame.
  rewrite decode_all_done; [reflexivity|].
  apply deframe_no_start. apply no_start_app. now split.
Qed.

Lemma end_marker_cuts_payload_witness :
  Server.decode_all (frame ([x41] ++ Server.MLLP_END ++ [x42; x1c]))
  = ([[x41]], [x42; x1c] ++ Server.MLLP_END).
Proof.
  apply (end_marker_cuts_payload [x41] [x42; x1c]); reflexivity.
Defined.

(** An end marker in front of the first start marker: the pass takes an
    empty payload and drops everything up to the end marker. *)
Lemma deframe_phantom (noise rest : bytes) :
  clean noise -> bcontains Server.MLLP_START rest = true ->
  Server.deframe (noise ++ Server.MLLP_END ++ rest) = Some ([], rest).
Proof.
  intros [Hs He] Hr.
  destruct (contains_true_find Byte.eqb _ _ Hr) as [k Hk].
  pose proof (find_split Byte.eqb byte_eqb_eq _ _ _ Hk) as R.
  assert (R1 := find_first Byte.eqb Server.MLLP_START rest k
                  ltac:(discriminate) Hk).
  fold (bcontains Server.MLLP_START (firstn k rest)) in R1.
  set (r1 := firstn k rest) in *.
  set (r2 := skipn (k + length Server.MLLP_START) rest) in *.
  assert (B : bfind Server.MLLP_START (noise ++ Server.MLLP_END ++ rest)
              = Some (length (noise ++ Server.MLLP_END ++ r1))).
  { rewrite R at 1. change (Server.MLLP_START ++ r2) with (x0b :: r2).
    replace (noise ++ Server.MLLP_END ++ r1 ++ x0b :: r2)
      with ((noise ++ Server.MLLP_END ++ r1) ++ x0b :: r2)
      by now rewrite <- !app_assoc.
    apply find_start_after. apply no_start_app. split; [exact Hs|].
    apply no_start_app. split; [reflexivity|exact R1]. }
  unfold Server.deframe.
  rewrite B, (find_end_after noise rest He). cbv zeta.
  change (length Server.MLLP_END) with 2. f_equal. f_equal.
  - unfold slice. rewrite !length_app. change (length Server.MLLP_END) with 2.
    replace (length noise + 2 - (length noise + (2 + length r1))) with 0
      by lia.
    reflexivity.
  - rewrite skipn_app, skipn_all2 by lia.
    replace (length noise + 2 - length noise) with 2 by lia. reflexivity.
Qed.

Lemma firstn_app_cons {A : Type} (n : nat) (l : list A) (x : A) (t : list A) :
  length l < n ->
  firstn n (l ++ x :: t) = l ++ x :: firstn (n - length l - 1) t.
Proof.
  intros H. rewrite firstn_app, firstn_all2 by lia.
  destruct (n - length l) as [|m] eqn:E; [lia|].
  cbn [firstn]. now replace (S m - 1) with m by lia.
Qed.

(** X4. One pass of the loop, in all cases.  It takes a payload and leaves
    [rest] exactly when the buffer is either noise without markers, the
    frame of that payload, which has no end marker, and [rest]; or noise
    without markers, an end marker, and a [rest] that holds a start
    marker, in which case the payload is empty. *)
Theorem deframe_cases (b payload rest : bytes) :
  Server.deframe b = Some (payload, rest) <->
  (exists noise,
      b = noise ++ frame payload ++ rest /\
      clean noise /\ bcontains Server.MLLP_END payload = false) \/
  (payload = [] /\
   exists noise,
     b = noise ++ Server.MLLP_END ++ rest /\
     clean noise /\ bcontains Server.MLLP_START rest = true).
Proof.
  split.
  - intros D. generalize D. unfold Server.deframe at 1.
    destruct (bfind Server.MLLP_START b) as [s|] eqn:Fs; [|discriminate].
    destruct (bfind Server.MLLP_END b) as [e|] eqn:Fe; [|discriminate].
    intros _.
    pose proof (find_split Byte.eqb byte_eqb_eq _ _ _ Fs) as Ss.
    pose proof (find_split Byte.eqb byte_eqb_eq _ _ _ Fe) as Se.
    assert (Ns := find_first Byte.eqb Server.MLLP_START b s
                    ltac:(discriminate) Fs).
    assert (Ne := find_first Byte.eqb Server.MLLP_END b e
                    ltac:(discriminate) Fe).
    pose proof (find_bound Byte.eqb _ _ _ Fs) as Bs.
    pose proof (find_bound Byte.eqb _ _ _ Fe) as Be.
    change (length Server.MLLP_START) with 1 in *.
    change (length Server.MLLP_END) with 2 in *.
    fold (bcontains Server.MLLP_START (firstn s b)) in Ns.
    fold (bcontains Server.MLLP_END (firstn e b)) in Ne.
    destruct (Nat.lt_trichotomy s e) as [Hlt|[Heq|Hgt]].
    + left. set (n1 := firstn s b) in *. set (t := skipn (s + 1) b) in *.
      assert (Ln : length n1 = s) by (apply firstn_length_le; lia).
      assert (Fe' : firstn e b = n1 ++ x0b :: firstn (e - s - 1) t).
      { rewrite Ss at 1. change (Server.MLLP_START ++ t) with (x0b :: t).
        rewrite firstn_app_cons by lia. now rewrite Ln. }
      assert (Sk : skipn e b = skipn (e - s - 1) t).
      { rewrite Ss at 1. change (Server.MLLP_START ++ t) with (x0b :: t).
        rewrite skipn_app, skipn_all2, Ln by lia.
        destruct (e - s) as [|m] eqn:Em; [lia|].
        cbn [app skipn]. now replace (S m - 1) with m by lia. }
      set (p := firstn (e - s - 1) t) in *.
      assert (Sk2 : skipn e b = Server.MLLP_END ++ skipn (e + 2) b).
      { rewrite Se at 1. rewrite skipn_app, skipn_all2
          by (rewrite length_firstn; lia).
        rewrite length_firstn.
        replace (e - Nat.min e (length b)) with 0 by lia. reflexivity. }
      assert (Hb : b = n1 ++ frame p ++ skipn (e + 2) b).
      { rewrite <- (firstn_skipn e b) at 1. rewrite Fe', Sk2.
        unfold frame. cbn [Server.MLLP_START app].
        now rewrite <- !app_assoc. }
      assert (Hn1 : clean n1).
      { split; [exact Ns|].
        rewrite Fe' in Ne. now apply contains_app_false in Ne. }
      assert (Hp : bcontains Server.MLLP_END p = false).
      { rewrite Fe' in Ne.
        change (n1 ++ x0b :: p) with (n1 ++ [x0b] ++ p) in Ne.
        rewrite app_assoc in Ne. now apply contains_app_false_r in Ne. }
      pose proof (noise_without_markers n1 p (skipn (e + 2) b) Hn1 Hp) as D'.
      rewrite <- Hb, D in D'. injection D' as -> ->.
      exists n1. auto.
    + exfalso. subst e. rewrite Ss in Se at 1.
      apply app_inv_head in Se. discriminate Se.
    + right. set (n := firstn e b) in *. set (r := skipn (e + 2) b) in *.
      assert (Hn : clean n).
      { split; [|exact Ne].
        assert (E : firstn s b = n ++ skipn e (firstn s b)).
        { unfold n. rewrite <- (firstn_skipn e (firstn s b)) at 1.
          rewrite firstn_firstn. now replace (Nat.min e s) with e by lia. }
        rewrite E in Ns. now apply no_start_app in Ns. }
      assert (Hr : bcontains Server.MLLP_START r = true).
      { destruct (bcontains Server.MLLP_START r) eqn:Er; [reflexivity|].
        exfalso.
        assert (Hb : bcontains Server.MLLP_START b = false).
        { rewrite Se. apply no_start_app. split; [apply Hn|].
          apply no_start_app. split; [reflexivity|exact Er]. }
        unfold bcontains, contains in Hb. unfold bfind in Fs.
        rewrite Fs in Hb. discriminate. }
      pose proof (deframe_phantom n r Hn Hr) as D'.
      rewrite <- Se, D in D'. injection D' as -> ->.
      split; [reflexivity|]. exists n. auto.
  - intros [(noise & -> & Hn & Hp)|(-> & noise & -> & Hn & Hr)].
    + now apply noise_without_markers.
    + now apply deframe_phantom.
Qed.

(* ================================================================= *)
(** ** Bytes that arrive later *)

(** A pass does not look at what is behind the end marker it found. *)
Lemma deframe_app (b c payload rest : bytes) :
  Server.deframe b = Some (payload, rest) ->
  Server.deframe (b ++ c) = Some (payload, rest ++ c).
Proof.
  unfold Server.deframe.
  destruct (bfind Server.MLLP_START b) as [s|] eqn:Fs; [|discriminate].
  destruct (bfind Server.MLLP_END b) as [e|] eqn:Fe; [|discriminate].
  pose proof (find_bound Byte.eqb _ _ _ Fs) as Bs.
  pose proof (find_bound Byte.eqb _ _ _ Fe) as Be.
  unfold bfind in *.
  rewrite (find_app Byte.eqb _ _ c _ Fs), (find_app Byte.eqb _ _ c _ Fe).
  cbv zeta. change (length Server.MLLP_END) with 2 in *.
  change (length Server.MLLP_START) with 1 in *.
  intros [= <- <-]. f_equal. f_equal.
  - f_equal. unfold slice.
    rewrite skipn_app. replace (s - length b) with 0 by lia.
    rewrite skipn_O, firstn_app.
    replace (e + 2 - s - length (skipn s b)) with 0
      by (rewrite length_skipn; lia).
    now rewrite firstn_O, app_nil_r.
  - rewrite skipn_app. replace (e + 2 - length b) with 0 by lia.
    reflexivity.
Qed.

Lemma iteration_feed (e : Server.env) (st : Server.state) (c : bytes)
    (o : Server.outcome) :
  Server.iteration e st = Some o ->
  Server.iteration e (feed st c) = Some (feed_outcome o c).
Proof.
  unfold Server.iteration.
  destruct (Server.deframe (Server.buffer st)) as [[payload b']|] eqn:D;
    [|discriminate].
  cbn [feed Server.buffer Server.handled Server.log].
  rewrite (deframe_app _ c _ _ D). cbv zeta.
  destruct (Server.extract_message_info _); [|now intros [= <-]].
  destruct (Server.save_ok _ _ _); [|now intros [= <-]].
  destruct (Server.create_ack _ _); [|now intros [= <-]].
  destruct (Server.send_ok _ _ _); now intros [= <-].
Qed.

Lemma drain_feed (e : Server.env) (c : bytes) (st st' : Server.state) :
  Server.drain e st = Server.Continue st' ->
  Server.drain e (feed st c) = Server.drain e (feed st' c).
Proof.
  remember (length (Server.buffer st)) as n eqn:Hn. revert st Hn.
  induction n as [n IH] using lt_wf_ind. intros st Hn H.
  destruct (Server.iteration e st) as [[st1|st1]|] eqn:E.
  - rewrite (drain_continue _ _ _ E) in H.
    pose proof (iteration_feed _ _ c _ E) as E'. cbn [feed_outcome] in E'.
    rewrite (drain_continue _ _ _ E').
    apply (IH (length (Server.buffer st1))); [|reflexivity|exact H].
    apply iteration_shrinks in E. lia.
  - rewrite (drain_raised _ _ _ E) in H. discriminate.
  - rewrite (drain_done _ _ E) in H. now injection H as ->.
Qed.

Lemma drain_feed_raised (e : Server.env) (c : bytes)
    (st st' : Server.state) :
  Server.drain e st = Server.Raised st' ->
  Server.drain e (feed st c) = Server.Raised (feed st' c).
Proof.
  remember (length (Server.buffer st)) as n eqn:Hn. revert st Hn.
  induction n as [n IH] using lt_wf_ind. intros st Hn H.
  destruct (Server.iteration e st) as [[st1|st1]|] eqn:E.
  - rewrite (drain_continue _ _ _ E) in H.
    pose proof (iteration_feed _ _ c _ E) as E'. cbn [feed_outcome] in E'.
    rewrite (drain_continue _ _ _ E').
    apply (IH (length (Server.buffer st1))); [|reflexivity|exact H].
    apply iteration_shrinks in E. lia.
  - rewrite (drain_raised _ _ _ E) in H. injection H as <-.
    pose proof (iteration_feed _ _ c _ E) as E'. cbn [feed_outcome] in E'.
    now apply drain_raised.
  - rewrite (drain_done _ _ E) in H. discriminate.
Qed.

(** With storage and socket that work the loop is left normally. *)
Lemma drain_reliable (e : Server.env) (st : Server.state) :
  reliable e -> exists st', Server.drain e st = Server.Continue st'.
Proof.
  intros [Hsave Hsend].
  remember (length (Server.buffer st)) as n eqn:Hn. revert st Hn.
  induction n as [n IH] using lt_wf_ind. intros st Hn.
  destruct (Server.deframe (Server.buffer st)) as [[payload b']|] eqn:D.
  - destruct (iteration_deframe e st payload b' D) as (info & ack & _ & _ & E).
    rewrite Hsave, Hsend in E. rewrite (drain_continue _ _ _ E).
    apply (IH (length b')); [|reflexivity].
    apply deframe_shrinks in D. lia.
  - exists st. apply drain_done. now apply iteration_none.
Qed.

Lemma serve_data (e : Server.env) (c : bytes)
    (script : list Server.recv_result) (st : Server.state) :
  c <> [] ->
  Server.serve e (Server.Data c :: script) st
  = match Server.drain e (feed st c) with
    | Server.Continue st' => Server.serve e script st'
    | Server.Raised st' => Server.close st' [Server.ErrorLogged]
    end.
Proof. destruct c; [congruence|reflexivity]. Qed.

Lemma feed_feed (st : Server.state) (c1 c2 : bytes) :
  feed (feed st c1) c2 = feed st (c1 ++ c2).
Proof. unfold feed. cbn. now rewrite app_assoc. Qed.

Lemma same_events_refl (s : Server.session) : same_events s s.
Proof. repeat split. Qed.

Lemma concat_nonempty (c : bytes) (cs : list bytes) :
  c <> [] -> concat (c :: cs) <> [].
Proof. destruct c; [congruence|discriminate]. Qed.

Lemma serve_chunks (e : Server.env) (chunks : list bytes)
    (script : list Server.recv_result) (st : Server.state) :
  chunks <> [] -> Forall (fun c => c <> []) chunks ->
  same_events (Server.serve e (map Server.Data chunks ++ script) st)
              (Server.serve e (Server.Data (concat chunks) :: script) st) /\
  (reliable e ->
   Server.serve e (map Server.Data chunks ++ script) st
   = Server.serve e (Server.Data (concat chunks) :: script) st).
Proof.
  intros Hne Hall. revert Hne st.
  induction Hall as [|c cs Hc Hcs IH]; [intros H; now destruct H|].
  intros _ st.
  destruct cs as [|c2 cs].
  - cbn [map concat app]. rewrite app_nil_r.
    split; [apply same_events_refl|reflexivity].
  - assert (Hrest : concat (c2 :: cs) <> [])
      by (apply concat_nonempty; now inversion Hcs).
    specialize (IH ltac:(discriminate)).
    change (map Server.Data (c :: c2 :: cs) ++ script)
      with (Server.Data c :: (map Server.Data (c2 :: cs) ++ script)).
    change (concat (c :: c2 :: cs)) with (c ++ concat (c2 :: cs)).
    rewrite (serve_data e c _ st Hc).
    rewrite (serve_data e (c ++ concat (c2 :: cs)) script st)
      by (destruct c; [congruence|discriminate]).
    rewrite <- feed_feed.
    destruct (Server.drain e (feed st c)) as [st1|st1] eqn:D.
    + rewrite (drain_feed _ _ _ _ D).
      rewrite <- (serve_data e _ script st1 Hrest). apply IH.
    + rewrite (drain_feed_raised _ _ _ _ D). split.
      * repeat split.
      * intros R. destruct (drain_reliable e (feed st c) R) as [st' D'].
        rewrite D' in D. discriminate.
Qed.

Lemma same_events_sym (s1 s2 : Server.session) :
  same_events s1 s2 -> same_events s2 s1.
Proof. intros (H1 & H2 & H3). repeat split; congruence. Qed.

Lemma same_events_trans (s1 s2 s3 : Server.session) :
  same_events s1 s2 -> same_events s2 s3 -> same_events s1 s3.
Proof. intros (H1 & H2 & H3) (K1 & K2 & K3). repeat split; congruence. Qed.

Lemma concat_chunks_nonempty (chunks : list bytes) :
  chunks <> [] -> Forall (fun c => c <> []) chunks -> concat chunks <> [].
Proof.
  intros Hne Hall. destruct Hall as [|c cs Hc Hcs];
    [now contradiction Hne|].
  now apply concat_nonempty.
Qed.

(** With storage and socket that work, the reads can be taken as one. *)
Lemma serve_chunks_reliable (e : Server.env) (chunks : list bytes)
    (st : Server.state) :
  reliable e -> chunks <> [] -> Forall (fun c => c <> []) chunks ->
  Server.serve e (map Server.Data chunks) st
  = Server.serve e [Server.Data (concat chunks)] st.
Proof.
  intros R Hne Hall.
  destruct (serve_chunks e chunks [] st Hne Hall) as [_ H].
  rewrite app_nil_r in H. exact (H R).
Qed.

(** X5. How the bytes are cut into reads does not matter: two sessions
    that receive the same bytes, cut in two ways into chunks that are not
    empty, log the same events, count the same messages and are both
    closed or both open; with storage and socket that work they end in
    the same state, buffer included. *)
Theorem chunking_independence (e : Server.env) (chunks1 chunks2 : list bytes)
    (script : list Server.recv_result) :
  chunks1 <> [] ->
  Forall (fun c => c <> []) chunks1 -> Forall (fun c => c <> []) chunks2 ->
  concat chunks1 = concat chunks2 ->
  same_events
    (Server.handle_client e (map Server.Data chunks1 ++ script))
    (Server.handle_client e (map Server.Data chunks2 ++ script)) /\
  (reliable e ->
   Server.handle_client e (map Server.Data chunks1 ++ script)
   = Server.handle_client e (map Server.Data chunks2 ++ script)).
Proof.
  intros Hne H1 H2 Hc.
  assert (Hne2 : chunks2 <> []).
  { intros ->. apply (concat_chunks_nonempty chunks1 Hne H1).
    now rewrite Hc. }
  unfold Server.handle_client.
  destruct (serve_chunks e chunks1 script
              {| Server.buffer := []; Server.handled := 0;
                 Server.log := [] |} Hne H1) as [A1 B1].
  destruct (serve_chunks e chunks2 script
              {| Server.buffer := []; Server.handled := 0;
                 Server.log := [] |} Hne2 H2) as [A2 B2].
  rewrite <- Hc in A2, B2. split.
  - exact (same_events_trans _ _ _ A1 (same_events_sym _ _ A2)).
  - intros R. now rewrite (B1 R), (B2 R).
Qed.

Lemma chunking_independence_witness :
  same_events
    (Server.handle_client steady
       (map Server.Data [[x1c; x0b]; [x41; x1c]; [x0d; x0b; x42]; [x1c; x0d]]
          ++ [Server.Data []]))
    (Server.handle_client steady
       (map Server.Data [[x1c; x0b; x41]; [x1c; x0d; x0b; x42; x1c; x0d]]
          ++ [Server.Data []])) /\
  Server.handle_client steady
    (map Server.Data [[x1c; x0b]; [x41; x1c]; [x0d; x0b; x42]; [x1c; x0d]]
       ++ [Server.Data []])
  = Server.handle_client steady
      (map Server.Data [[x1c; x0b; x41]; [x1c; x0d; x0b; x42; x1c; x0d]]
         ++ [Server.Data []]).
Proof.
  assert (Hne : [[x1c; x0b]; [x41; x1c]; [x0d; x0b; x42]; [x1c; x0d]] <> [])
    by discriminate.
  assert (H1 : Forall (fun c : bytes => c <> [])
                 [[x1c; x0b]; [x41; x1c]; [x0d; x0b; x42]; [x1c; x0d]])
    by (repeat constructor; discriminate).
  assert (H2 : Forall (fun c : bytes => c <> [])
                 [[x1c; x0b; x41]; [x1c; x0d; x0b; x42; x1c; x0d]])
    by (repeat constructor; discriminate).
  destruct (chunking_independence steady _ _ [Server.Data []] Hne H1 H2
              eq_refl) as [K1 K2].
  split; [exact K1|exact (K2 steady_reliable)].
Defined.

(* ================================================================= *)
(** ** The session and the frames of its buffer *)

Lemma stored_app (l r : list Server.event) :
  stored (l ++ r) = stored l ++ stored r.
Proof. apply flat_map_app. Qed.

Lemma acknowledged_app (l r : list Server.event) :
  acknowledged (l ++ r) = acknowledged l ++ acknowledged r.
Proof. apply flat_map_app. Qed.

Lemma drain_decode_all (e : Server.env) (st : Server.state) :
  reliable e ->
  exists st',
    Server.drain e st = Server.Continue st' /\
    Server.buffer st' = snd (Server.decode_all (Server.buffer st)) /\
    Server.handled st'
    = Server.handled st + length (fst (Server.decode_all (Server.buffer st))) /\
    stored (Server.log st')
    = stored (Server.log st)
        ++ map decode_replace (fst (Server.decode_all (Server.buffer st))) /\
    map Some (acknowledged (Server.log st'))
    = map Some (acknowledged (Server.log st))
        ++ acks_for e (Server.handled st)
             (fst (Server.decode_all (Server.buffer st))).
Proof.
  intros R. destruct R as [Hsave Hsend].
  remember (length (Server.buffer st)) as n eqn:Hn. revert st Hn.
  induction n as [n IH] using lt_wf_ind. intros st Hn.
  destruct (Server.deframe (Server.buffer st)) as [[payload b']|] eqn:D.
  - destruct (iteration_deframe e st payload b' D) as (info & ack & _ & Ea & E).
    rewrite Hsave, Hsend in E. rewrite (drain_continue _ _ _ E).
    rewrite (decode_all_step _ _ _ D). cbn [fst snd length map acks_for].
    set (st1 := handled_state st b' (decode_replace payload) info ack).
    destruct (IH (length (Server.buffer st1))
                 ltac:(apply deframe_shrinks in D; cbn; lia) st1 eq_refl)
      as (st' & Hd & Hb & Hh & Hs & Ha).
    exists st'. split; [exact Hd|]. split; [exact Hb|].
    cbn [st1 handled_state Server.buffer Server.handled Server.log] in *.
    split; [lia|]. split.
    + rewrite Hs, stored_app. cbn [stored flat_map app].
      now rewrite <- app_assoc.
    + rewrite Ha, acknowledged_app. cbn [acknowledged flat_map app].
      rewrite map_app, <- app_assoc, Ea. reflexivity.
  - exists st. rewrite (decode_all_done _ D). cbn [fst snd length map acks_for].
    split; [apply drain_done; now apply iteration_none|].
    split; [reflexivity|]. split; [lia|].
    split; now rewrite app_nil_r.
Qed.

(** X6. The session and the loop agree: with storage and socket that work,
    after any number of reads that are not empty the buffer is what the
    loop leaves of the bytes received, one message is counted for every
    payload it takes, the texts stored are the payloads decoded, in their
    order, and the acknowledgments sent are those [create_ack] builds for
    them. *)
Theorem session_handles_decoded (e : Server.env) (chunks : list bytes) :
  reliable e -> chunks <> [] -> Forall (fun c => c <> []) chunks ->
  exists st,
    Server.handle_client e (map Server.Data chunks) = Server.Awaiting st /\
    Server.buffer st = snd (Server.decode_all (concat chunks)) /\
    Server.handled st = length (fst (Server.decode_all (concat chunks))) /\
    stored (Server.log st)
    = map decode_replace (fst (Server.decode_all (concat chunks))) /\
    map Some (acknowledged (Server.log st))
    = acks_for e 0 (fst (Server.decode_all (concat chunks))).
Proof.
  intros R Hne Hall. unfold Server.handle_client.
  rewrite (serve_chunks_reliable e chunks _ R Hne Hall).
  rewrite serve_data by now apply concat_chunks_nonempty.
  destruct (drain_decode_all e
              (feed {| Server.buffer := []; Server.handled := 0;
                       Server.log := [] |} (concat chunks)) R)
    as (st' & Hd & H1 & H2 & H3 & H4).
  rewrite Hd. exists st'. split; [reflexivity|].
  cbn [feed Server.buffer Server.handled Server.log app stored acknowledged
       flat_map map Nat.add] in *.
  auto.
Qed.

Lemma session_handles_decoded_witness :
  exists st,
    Server.handle_client steady
      (map Server.Data [[x1c; x0d; x0b]; [x41; x1c]; [x0d; x0b; x42]])
    = Server.Awaiting st /\
    Server.buffer st
    = snd (Server.decode_all
             (concat [[x1c; x0d; x0b]; [x41; x1c]; [x0d; x0b; x42]])) /\
    Server.handled st
    = length (fst (Server.decode_all
                     (concat [[x1c; x0d; x0b]; [x41; x1c];
                              [x0d; x0b; x42]]))) /\
    stored (Server.log st)
    = map decode_replace
          (fst (Server.decode_all
                  (concat [[x1c; x0d; x0b]; [x41; x1c];
                           [x0d; x0b; x42]]))) /\
    map Some (acknowledged (Server.log st))
    = acks_for steady 0
        (fst (Server.decode_all
                (concat [[x1c; x0d; x0b]; [x41; x1c]; [x0d; x0b; x42]]))).
Proof.
  apply (session_handles_decoded steady
           [[x1c; x0d; x0b]; [x41; x1c]; [x0d; x0b; x42]] steady_reliable).
  - discriminate.
  - repeat constructor; discriminate.
Defined.

Lemma iteration_served (e : Server.env) (st : Server.state)
    (o : Server.outcome) :
  served_state e st -> Server.iteration e st = Some o ->
  match o with
  | Server.Continue st' => served_state e st'
  | Server.Raised st' =>
      Server.handled st' = Server.handled st /\
      exists evs,
        Server.log st' = Server.log st ++ evs /\
        last_events e (Server.handled st) (evs ++ [Server.ErrorLogged])
  end.
Proof.
  intros Inv E.
  destruct (Server.deframe (Server.buffer st)) as [[payload b']|] eqn:D;
    [|now rewrite (iteration_none _ _ D) in E].
  destruct (iteration_deframe e st payload b' D) as (info & ack & Ei & Ea & E').
  rewrite E' in E. apply some_inj in E. subst o.
  destruct (Server.save_ok e (Server.handled st) (decode_replace payload))
    eqn:Hsave.
  - destruct (Server.send_ok e (Server.handled st) ack) eqn:Hsend.
    + unfold served_state, handled_state.
      cbn [Server.handled Server.log]. now apply served_next.
    + cbn [Server.logged Server.handled Server.log]. split; [reflexivity|].
      eexists. split; [reflexivity|]. right. right. right.
      exists (decode_replace payload), info, ack. auto.
  - cbn [Server.logged Server.handled Server.log]. split; [reflexivity|].
    eexists. split; [reflexivity|]. right. right. left.
    exists (decode_replace payload), info. auto.
Qed.

Lemma drain_served (e : Server.env) (st : Server.state) :
  served_state e st ->
  match Server.drain e st with
  | Server.Continue st' => served_state e st'
  | Server.Raised st' =>
      exists evs tail,
        Server.log st' = evs ++ tail /\
        served e (Server.handled st') evs /\
        last_events e (Server.handled st') (tail ++ [Server.ErrorLogged])
  end.
Proof.
  remember (length (Server.buffer st)) as n eqn:Hn. revert st Hn.
  induction n as [n IH] using lt_wf_ind. intros st Hn Inv.
  destruct (Server.iteration e st) as [[st1|st1]|] eqn:E.
  - rewrite (drain_continue _ _ _ E).
    apply (IH (length (Server.buffer st1))).
    + apply iteration_shrinks in E. lia.
    + reflexivity.
    + exact (iteration_served e st _ Inv E).
  - rewrite (drain_raised _ _ _ E).
    destruct (iteration_served e st _ Inv E) as (Hh & evs & Hl & Ht).
    exists (Server.log st), evs. rewrite Hh. auto.
  - now rewrite (drain_done _ _ E).
Qed.

Lemma serve_served (e : Server.env) (script : list Server.recv_result)
    (st : Server.state) :
  served_state e st ->
  match Server.serve e script st with
  | Server.Awaiting st' => served_state e st'
  | Server.Closed st' =>
      exists evs tail,
        Server.log st' = evs ++ tail ++ [Server.ConnClosed] /\
        served e (Server.handled st') evs /\
        last_events e (Server.handled st') tail
  end.
Proof.
  revert st. induction script as [|r script IH]; intros st Inv; [exact Inv|].
  destruct r as [data|].
  - destruct data as [|x data].
    + cbn. exists (Server.log st), []. split; [reflexivity|].
      split; [exact Inv|now left].
    + rewrite serve_data by discriminate.
      assert (Inv' : served_state e (feed st (x :: data))) by exact Inv.
      pose proof (drain_served e _ Inv') as Hd.
      destruct (Server.drain e (feed st (x :: data))) as [st1|st1].
      * now apply IH.
      * destruct Hd as (evs & tail & Hl & Hs & Ht).
        exists evs, (tail ++ [Server.ErrorLogged]).
        cbn [Server.close Server.logged Server.log Server.handled].
        rewrite Hl, <- !app_assoc. auto.
  - cbn. exists (Server.log st), [Server.ErrorLogged].
    split; [reflexivity|]. split; [exact Inv|]. right. now left.
Qed.

(** X7. The log of every session, whatever the peer, the storage and the
    socket do: a block received, information, stored, acknowledgment for
    each message counted, each acknowledgment built from the message
    stored just before it; if the connection was closed, then at most one
    message that was not acknowledged, an error that is logged only for a
    failure, and the closing as the last event. *)
Theorem session_log_shape (e : Server.env)
    (script : list Server.recv_result) :
  match Server.handle_client e script with
  | Server.Awaiting st => served e (Server.handled st) (Server.log st)
  | Server.Closed st =>
      exists evs tail,
        Server.log st = evs ++ tail ++ [Server.ConnClosed] /\
        served e (Server.handled st) evs /\
        last_events e (Server.handled st) tail
  end.
Proof. apply serve_served. constructor. Qed.

(** X8. A frame that the peer does not finish is dropped in silence: when
    the peer closes after a part of a frame, sent in any number of reads,
    nothing is stored, nothing is acknowledged, no error is logged, and
    the connection is closed, whatever storage and socket do. *)
Theorem unfinished_frame_is_dropped
    (e : Server.env) (p : bytes) (chunks : list bytes) (missing : bytes) :
  bcontains Server.MLLP_END p = false ->
  chunks <> [] -> Forall (fun c => c <> []) chunks ->
  concat chunks ++ missing = frame p -> missing <> [] ->
  exists st,
    Server.handle_client e (map Server.Data chunks ++ [Server.Data []])
    = Server.Closed st /\
    Server.handled st = 0 /\
    Server.log st = [Server.ConnClosed].
Proof.
  intros Hp Hne Hall Hc Hm.
  destruct (serve_chunks e chunks [Server.Data []]
              {| Server.buffer := []; Server.handled := 0;
                 Server.log := [] |} Hne Hall) as [(K1 & K2 & K3) _].
  fold (Server.handle_client e (map Server.Data chunks ++ [Server.Data []]))
    in K1, K2, K3.
  assert (E : Server.serve e [Server.Data (concat chunks); Server.Data []]
                {| Server.buffer := []; Server.handled := 0;
                   Server.log := [] |}
              = Server.Closed {| Server.buffer := concat chunks;
                                 Server.handled := 0;
                                 Server.log := [Server.ConnClosed] |}).
  { rewrite serve_data by now apply concat_chunks_nonempty.
    rewrite drain_done; [reflexivity|].
    apply iteration_none.
    exact (incomplete_frame p (concat chunks) missing Hp Hc Hm). }
  rewrite E in K1, K2, K3. cbn in K1, K2, K3.
  destruct (Server.handle_client e
              (map Server.Data chunks ++ [Server.Data []])) as [st|st];
    [discriminate K1|].
  exists st. auto.
Qed.

Lemma unfinished_frame_is_dropped_witness :
  exists st,
    Server.handle_client disk_full
      (map Server.Data [[x0b]; [x41; x1c]] ++ [Server.Data []])
    = Server.Closed st /\
    Server.handled st = 0 /\
    Server.log st = [Server.ConnClosed].
Proof.
  apply (unfinished_frame_is_dropped disk_full [x41] [[x0b]; [x41; x1c]]
           [x0d]).
  - reflexivity.
  - discriminate.
  - repeat constructor; discriminate.
  - reflexivity.
  - discriminate.
Defined.

(* ================================================================= *)
(** ** What [extract_message_info] reads *)

Lemma last_cons {A : Type} (x d : A) (l : list A) :
  last (x :: l) d = last l x.
Proof.
  revert x d; induction l as [|y l IH]; intros x d; [reflexivity|].
  change (last (x :: y :: l) d) with (last (y :: l) d).
  now rewrite (IH y d), (IH y x).
Qed.

(** The three segment names exclude one another. *)
Lemma segment_names (line : str) :
  (sstartswith (lit "MSH|") line = true ->
   sstartswith (lit "PID|") line = false /\
   sstartswith (lit "FT1|") line = false) /\
  (sstartswith (lit "PID|") line = true ->
   sstartswith (lit "FT1|") line = false).
Proof.
  destruct line as [|c line]; [split; discriminate|].
  unfold sstartswith, lit. cbn [list_ascii_of_string map startswith].
  split.
  - intros H. apply andb_true_iff in H as [H _].
    apply N.eqb_eq in H. subst c. split; reflexivity.
  - intros H. apply andb_true_iff in H as [H _].
    apply N.eqb_eq in H. subst c. reflexivity.
Qed.

Lemma getitem_nth {A : Type} (xs : list A) (i : nat) (d x : A) :
  Server.getitem xs i = Some x -> nth i xs d = x.
Proof. intros H. now apply nth_error_nth. Qed.

Lemma picked_cons (segment : str) (n i : nat) (line : str)
    (lines : list str) :
  picked segment n i (line :: lines)
  = (if sstartswith segment line && (n <? length (ssplit PIPE line))
     then [nth i (ssplit PIPE line) []] else [])
      ++ picked segment n i lines.
Proof. reflexivity. Qed.

Lemma info_lines_picked (lines : list str) (info : Server.message_info) :
  Server.info_lines info lines
  = Some {| Server.message_type :=
              last (picked (lit "MSH|") 8 8 lines) (Server.message_type info);
            Server.patient_id :=
              last (picked (lit "PID|") 3 3 lines) (Server.patient_id info);
            Server.codes :=
              Server.codes info ++ picked (lit "FT1|") 25 24 lines |}.
Proof.
  revert info; induction lines as [|line lines IH]; intros info.
  - cbn. rewrite app_nil_r. now destruct info.
  - cbn [Server.info_lines]. rewrite !picked_cons.
    destruct (segment_names line) as [Hm Hp].
    unfold Server.info_line.
    destruct (sstartswith (lit "MSH|") line) eqn:M.
    + destruct (Hm eq_refl) as [P F]. rewrite P, F. cbn [andb app].
      destruct (8 <? length (ssplit PIPE line)) eqn:L.
      * apply Nat.ltb_lt in L.
        destruct (getitem_some (ssplit PIPE line) 8 L) as [x E]. rewrite E.
        rewrite IH. cbn [Server.message_type Server.patient_id Server.codes].
        rewrite (getitem_nth _ _ [] _ E). cbn [app]. now rewrite last_cons.
      * now rewrite IH.
    + destruct (sstartswith (lit "PID|") line) eqn:P.
      * rewrite (Hp eq_refl). cbn [andb app].
        destruct (3 <? length (ssplit PIPE line)) eqn:L.
        -- apply Nat.ltb_lt in L.
           destruct (getitem_some (ssplit PIPE line) 3 L) as [x E]. rewrite E.
           rewrite IH.
           cbn [Server.message_type Server.patient_id Server.codes].
           rewrite (getitem_nth _ _ [] _ E). cbn [app]. now rewrite last_cons.
        -- now rewrite IH.
      * destruct (sstartswith (lit "FT1|") line) eqn:F.
        -- cbn [andb app].
           destruct (25 <? length (ssplit PIPE line)) eqn:L.
           ++ apply Nat.ltb_lt in L.
              rewrite (proj2 (Nat.ltb_lt 24 (length (ssplit PIPE line))))
                by lia.
              destruct (getitem_some (ssplit PIPE line) 24) as [x E]; [lia|].
              rewrite E, IH.
              cbn [Server.message_type Server.patient_id Server.codes].
              rewrite (getitem_nth _ _ [] _ E). now rewrite <- app_assoc.
           ++ now rewrite IH.
        -- cbn [andb app]. now rewrite IH.
Qed.

(** X10. What [extract_message_info] returns, for every message: the
    message type is field 8 of the last line that starts with MSH and has
    more than 8 fields, the patient identifier field 3 of the last line
    that starts with PID and has more than 3 fields, each of them Unknown
    without such a line; the codes are the fields 24 of the lines that
    start with FT1 and have more than 25 fields, in their order.  A line
    FT1 of 25 fields gives no code. *)
Theorem extract_message_info_picks (message : str) :
  Server.extract_message_info message
  = Some {| Server.message_type :=
              last (picked (lit "MSH|") 8 8 (ssplit CR message))
                   (lit "Unknown");
            Server.patient_id :=
              last (picked (lit "PID|") 3 3 (ssplit CR message))
                   (lit "Unknown");
            Server.codes := picked (lit "FT1|") 25 24 (ssplit CR message) |}.
Proof. unfold Server.extract_message_info. now rewrite info_lines_picked. Qed.

(* ================================================================= *)
(** ** An acknowledgment read as a message *)

(** The fields [create_ack] reads hold no separator. *)
Lemma create_ack_fields_plain (message : str) (cf : Server.control_fields) :
  Server.create_ack_fields message = Some cf -> plain_fields cf.
Proof.
  intros E.
  destruct (Nat.lt_ge_cases (length (ssplit PIPE (first_line message))) 10)
    as [Hs|Hl].
  - rewrite (create_ack_fields_short message Hs) in E.
    apply some_inj in E. subst cf.
    repeat split; not_in_lit.
  - destruct (create_ack_fields_long message Hl)
      as (f2 & f3 & f4 & f5 & f9 & E2 & E3 & E4 & E5 & E9 & E').
    rewrite E' in E. apply some_inj in E. subst cf.
    unfold plain_fields, plain. cbn [Server.sending_app Server.sending_facility
      Server.receiving_app Server.receiving_facility Server.msg_control_id].
    pose proof (field_clean message 2 f2 E2).
    pose proof (field_clean message 3 f3 E3).
    pose proof (field_clean message 4 f4 E4).
    pose proof (field_clean message 5 f5 E5).
    pose proof (field_clean message 9 f9 E9).
    tauto.
Qed.

Lemma first_line_ack (timestamp : str) (cf : Server.control_fields) :
  plain timestamp -> plain_fields cf ->
  ssplit CR (Server.ack_text timestamp cf)
  = [ack_header timestamp cf; ack_status cf; []].
Proof.
  intros [_ Ht] ([_ Ha] & [_ Hb] & [_ Hc] & [_ Hd] & [_ Hm]).
  now apply ack_lines.
Qed.

Lemma header_fields_ack (timestamp : str) (cf : Server.control_fields) :
  plain timestamp -> plain_fields cf ->
  ssplit PIPE (ack_header timestamp cf)
  = [lit "MSH"; lit "^~\&"; Server.receiving_app cf;
     Server.receiving_facility cf; Server.sending_app cf;
     Server.sending_facility cf; timestamp; []; lit "ACK^P03";
     Server.msg_control_id cf; lit "P"; lit "2.5"].
Proof.
  intros [Ht _] ([Ha _] & [Hb _] & [Hc _] & [Hd _] & [Hm _]).
  now apply ack_header_fields.
Qed.

(** X11. An acknowledgment read as a message: the control fields
    [create_ack] reads in the acknowledgment of any message are those of
    the message with sender and receiver exchanged and the same control
    ID, and [extract_message_info] finds the type ACK^P03, no patient and
    no code in it. *)
Theorem acknowledgment_read_back
    (timestamp message : str) (cf : Server.control_fields) :
  plain timestamp ->
  Server.create_ack_fields message = Some cf ->
  Server.create_ack_fields (Server.ack_text timestamp cf)
    = Some (swapped cf) /\
  Server.extract_message_info (Server.ack_text timestamp cf)
    = Some {| Server.message_type := lit "ACK^P03";
              Server.patient_id := lit "Unknown";
              Server.codes := [] |}.
Proof.
  intros Ht E. pose proof (create_ack_fields_plain message cf E) as Hcf.
  pose proof (first_line_ack timestamp cf Ht Hcf) as L.
  pose proof (header_fields_ack timestamp cf Ht Hcf) as F.
  split.
  - unfold Server.create_ack_fields. rewrite L. cbv zeta. rewrite F.
    reflexivity.
  - unfold Server.extract_message_info. rewrite L.
    cbn [Server.info_lines].
    assert (H1 : Server.info_line
                   {| Server.message_type := lit "Unknown";
                      Server.patient_id := lit "Unknown";
                      Server.codes := [] |} (ack_header timestamp cf)
                 = Some {| Server.message_type := lit "ACK^P03";
                           Server.patient_id := lit "Unknown";
                           Server.codes := [] |}).
    { unfold Server.info_line.
      change (sstartswith (lit "MSH|") (ack_header timestamp cf)) with true.
      cbv iota. rewrite F. reflexivity. }
    rewrite H1.
    assert (H2 : forall info, Server.info_line info (ack_status cf)
                              = Some info) by reflexivity.
    rewrite H2. reflexivity.
Qed.

Lemma acknowledgment_read_back_witness :
  Server.create_ack_fields
    (Server.ack_text (lit "20240102030405")
       {| Server.sending_app := lit "EHR";
          Server.sending_facility := lit "HOSPITAL";
          Server.receiving_app := lit "REVSTREAM";
          Server.receiving_facility := lit "INTEGRATION";
          Server.msg_control_id := lit "MSG001" |})
    = Some {| Server.sending_app := lit "REVSTREAM";
              Server.sending_facility := lit "INTEGRATION";
              Server.receiving_app := lit "EHR";
              Server.receiving_facility := lit "HOSPITAL";
              Server.msg_control_id := lit "MSG001" |} /\
  Server.extract_message_info
    (Server.ack_text (lit "20240102030405")
       {| Server.sending_app := lit "EHR";
          Server.sending_facility := lit "HOSPITAL";
          Server.receiving_app := lit "REVSTREAM";
          Server.receiving_facility := lit "INTEGRATION";
          Server.msg_control_id := lit "MSG001" |})
    = Some {| Server.message_type := lit "ACK^P03";
              Server.patient_id := lit "Unknown";
              Server.codes := [] |}.
Proof.
  apply (acknowledgment_read_back (lit "20240102030405") sample_message).
  - split; not_in_lit.
  - reflexivity.
Defined.

(* ================================================================= *)
(** ** The bytes of an encoded text *)

Lemma byte_of_inj (m n : N) :
  (m < 256)%N -> (n < 256)%N -> byte_of m = byte_of n -> m = n.
Proof.
  intros Hm Hn E. apply (f_equal Byte.to_N) in E.
  now rewrite !to_N_byte_of in E.
Qed.

(** A byte below 0x80 in the encoding is a character of the text. *)
Lemma encode1_ascii (c n : N) (bs : bytes) :
  encode1 c = Some bs -> (n < 0x80)%N -> In (byte_of n) bs -> c = n.
Proof.
  unfold encode1. intros E Hn Hin.
  destruct (N.ltb_spec c 0x80).
  { apply some_inj in E. subst bs. destruct Hin as [Hin|[]].
    apply byte_of_inj in Hin; lia. }
  exfalso.
  destruct (N.ltb_spec c 0x800).
  { apply some_inj in E. subst bs.
    destruct Hin as [Hin|[Hin|[]]]; apply byte_of_inj in Hin; lia. }
  destruct (N.ltb_spec c 0x10000).
  { destruct ((0xD800 <=? c) && (c <? 0xE000))%N; [discriminate|].
    apply some_inj in E. subst bs.
    destruct Hin as [Hin|[Hin|[Hin|[]]]]; apply byte_of_inj in Hin; lia. }
  destruct (N.ltb_spec c 0x110000); [|discriminate].
  apply some_inj in E. subst bs.
  destruct Hin as [Hin|[Hin|[Hin|[Hin|[]]]]]; apply byte_of_inj in Hin; lia.
Qed.

Lemma encode_ascii (s : str) (n : N) (bs : bytes) :
  encode s = Some bs -> (n < 0x80)%N -> In (byte_of n) bs -> In n s.
Proof.
  revert bs; induction s as [|c s IH]; intros bs; cbn [encode].
  - intros <-%some_inj _ [].
  - destruct (encode1 c) as [a|] eqn:E1; [|discriminate].
    destruct (encode s) as [b|]; [|discriminate].
    intros <-%some_inj Hn Hin. apply in_app_or in Hin as [Hin|Hin].
    + left. exact (encode1_ascii c n a E1 Hn Hin).
    + right. exact (IH b eq_refl Hn Hin).
Qed.

Lemma encode_marker_free (s : str) (bs : bytes) :
  encode s = Some bs -> marker_free s -> ~ In x0b bs /\ ~ In x1c bs.
Proof.
  intros E H. unfold marker_free in H. rewrite Forall_forall in H. split.
  - intros Hin. apply (encode_ascii s 0x0B bs E) in Hin; [|lia].
    now apply H in Hin.
  - intros Hin. apply (encode_ascii s 0x1C bs E) in Hin; [|lia].
    now apply H in Hin.
Qed.



(* ================================================================= *)
(** ** Markers in what was received *)

Lemma no_1c_no_end (l : bytes) :
  ~ In x1c l -> bcontains Server.MLLP_END l = false.
Proof.
  unfold bcontains, contains, bfind. induction l as [|a l IH]; intros H.
  - reflexivity.
  - rewrite find_cons.
    assert (Ha : Byte.eqb x1c a = false).
    { destruct (Byte.eqb x1c a) eqn:E; [|reflexivity].
      apply byte_eqb_eq in E. exfalso. apply H. now left. }
    assert (Hs : startswith Byte.eqb Server.MLLP_END (a :: l) = false).
    { destruct l as [|b l]; [apply startswith_end_short|].
      rewrite startswith_end. now rewrite Ha. }
    rewrite Hs.
    assert (Hl : ~ In x1c l) by (intros K; apply H; now right).
    specialize (IH Hl).
    destruct (find Byte.eqb Server.MLLP_END l); [discriminate|reflexivity].
Qed.

(** [replace(MLLP_START, b'')] drops the bytes 0x0B. *)
Lemma remove_start (l : bytes) :
  remove_all Byte.eqb Sender.MLLP_START l
  = filter (fun x => negb (Byte.eqb x0b x)) l.
Proof.
  unfold remove_all. induction l as [|x l IH]; [reflexivity|].
  cbn [remove_from filter].
  change (startswith Byte.eqb Sender.MLLP_START (x :: l))
    with (Byte.eqb x0b x && true).
  rewrite andb_true_r. change (length Sender.MLLP_START - 1) with 0.
  destruct (Byte.eqb x0b x); cbn [negb]; now rewrite IH.
Qed.

Lemma filter_no_0b (l : bytes) :
  ~ In x0b l -> filter (fun x => negb (Byte.eqb x0b x)) l = l.
Proof.
  induction l as [|x l IH]; intros H; [reflexivity|]. cbn [filter].
  destruct (Byte.eqb x0b x) eqn:E.
  - apply byte_eqb_eq in E. exfalso. apply H. now left.
  - cbn [negb]. rewrite IH; [reflexivity|]. intros K. apply H. now right.
Qed.

Lemma remove_start_frames (bodies : list bytes) :
  Forall (fun b => ~ In x0b b) bodies ->
  remove_all Byte.eqb Sender.MLLP_START (concat (map frame bodies))
  = concat (map (fun b => b ++ Sender.MLLP_END) bodies).
Proof.
  rewrite remove_start. induction 1 as [|b bodies Hb _ IH]; [reflexivity|].
  cbn [map concat]. rewrite filter_app, IH. f_equal.
  unfold frame. cbn [Server.MLLP_START app filter Byte.eqb negb].
  change (Byte.eqb x0b x0b) with true. cbn [negb].
  rewrite filter_app, (filter_no_0b b Hb). reflexivity.
Qed.

(** [replace(MLLP_END, b'')] on a text that ends with the end marker. *)
Lemma remove_end_after (b rest : bytes) :
  ~ In x1c b ->
  remove_all Byte.eqb Sender.MLLP_END (b ++ Sender.MLLP_END ++ rest)
  = b ++ remove_all Byte.eqb Sender.MLLP_END rest.
Proof.
  unfold remove_all. induction b as [|x b IH]; intros H.
  - reflexivity.
  - cbn [app remove_from].
    assert (Hx : Byte.eqb x1c x = false).
    { destruct (Byte.eqb x1c x) eqn:E; [|reflexivity].
      apply byte_eqb_eq in E. exfalso. apply H. now left. }
    assert (Hs : startswith Byte.eqb Sender.MLLP_END
                   (x :: b ++ Sender.MLLP_END ++ rest) = false).
    { unfold Sender.MLLP_END at 1. cbn [startswith]. now rewrite Hx. }
    rewrite Hs. f_equal. apply IH. intros K. apply H. now right.
Qed.

Lemma remove_end_frames (bodies : list bytes) :
  Forall (fun b => ~ In x1c b) bodies ->
  remove_all Byte.eqb Sender.MLLP_END
    (concat (map (fun b => b ++ Sender.MLLP_END) bodies))
  = concat bodies.
Proof.
  induction 1 as [|b bodies Hb _ IH]; [reflexivity|].
  cbn [map concat]. rewrite <- app_assoc, (remove_end_after b _ Hb), IH.
  reflexivity.
Qed.

Lemma contains_end_after (l rest : bytes) :
  bcontains Sender.MLLP_END (l ++ Sender.MLLP_END ++ rest) = true.
Proof.
  unfold bcontains, contains. induction l as [|x l IH]; [reflexivity|].
  cbn [app]. rewrite find_cons.
  destruct (startswith Byte.eqb Sender.MLLP_END _); [reflexivity|].
  destruct (find Byte.eqb Sender.MLLP_END _); [reflexivity|discriminate].
Qed.

Lemma frame_has_end (p rest : bytes) :
  bcontains Sender.MLLP_END (frame p ++ rest) = true.
Proof.
  unfold frame. rewrite <- !app_assoc, app_assoc.
  apply contains_end_after.
Qed.

(** The part of a frame that has arrived holds no end marker as long as
    something is missing. *)
Lemma frame_prefix_no_end (p c1 c2 : bytes) :
  bcontains Server.MLLP_END p = false ->
  c1 ++ c2 = frame p -> c2 <> [] ->
  bcontains Sender.MLLP_END c1 = false.
Proof.
  intros Hp Hc Hne. unfold bcontains, contains.
  destruct (find Byte.eqb Sender.MLLP_END c1) as [k|] eqn:E; [|reflexivity].
  exfalso. pose proof (find_bound Byte.eqb _ _ _ E) as Hb.
  apply (find_app Byte.eqb _ _ c2) in E. rewrite Hc in E.
  pose proof (find_end_frame p [] Hp) as F. rewrite app_nil_r in F.
  unfold bfind in F. change Sender.MLLP_END with Server.MLLP_END in E.
  rewrite F in E. apply some_inj in E. subst k.
  assert (L : length (c1 ++ c2) = length p + 3)
    by (rewrite Hc; apply frame_length).
  rewrite length_app in L. simpl in Hb.
  destruct c2; [now apply Hne|]. simpl in L. lia.
Qed.

(** Reading a frame that arrives in pieces. *)
Lemma receive_frame (p : bytes) (chunks : list bytes) (acc : bytes)
    (more : list (Sender.result bytes)) :
  bcontains Server.MLLP_END p = false ->
  chunks <> [] -> Forall (fun c => c <> []) chunks ->
  acc ++ concat chunks = frame p ->
  Sender.receive acc (map Sender.Ok chunks ++ more)
  = (Sender.Ok (frame p), length chunks).
Proof.
  intros Hp Hne Hall. revert Hne acc.
  induction Hall as [|c cs Hc Hcs IH]; [intros H; now destruct H|].
  intros _ acc Hacc. cbn [map app Sender.receive].
  destruct c as [|x c]; [congruence|].
  destruct cs as [|c2 cs].
  - cbn [concat] in Hacc. rewrite app_nil_r in Hacc. rewrite Hacc.
    pose proof (frame_has_end p []) as F. rewrite app_nil_r in F.
    rewrite F. reflexivity.
  - assert (Hrest : concat (c2 :: cs) <> [])
      by (apply concat_nonempty; now inversion Hcs).
    change (concat ((x :: c) :: c2 :: cs))
      with ((x :: c) ++ concat (c2 :: cs)) in Hacc.
    rewrite app_assoc in Hacc.
    rewrite (frame_prefix_no_end p _ _ Hp Hacc Hrest).
    rewrite (IH ltac:(discriminate) _ Hacc). reflexivity.
Qed.

(* ================================================================= *)
(** ** The reads of the sender *)


(* ================================================================= *)
(** ** Answers *)

Lemma receive_one (response : bytes) (more : list (Sender.result bytes)) :
  response <> [] -> bcontains Sender.MLLP_END response = true ->
  Sender.receive [] (Sender.Ok response :: more) = (Sender.Ok response, 1).
Proof.
  intros Hne He. destruct response as [|x r]; [congruence|].
  cbn [Sender.receive app]. now rewrite He.
Qed.

Lemma answered (chunks : list bytes) (message : str) (payload : bytes) :
  encode message = Some payload ->
  Sender.send_hl7_message (answering chunks) message
  = (Some match fst (Sender.receive [] (map Sender.Ok chunks)) with
          | Sender.Raise e => Sender.handler e
          | Sender.Ok [] => lit "No response received"
          | Sender.Ok (b :: response) =>
              decode_replace
                (remove_all Byte.eqb Sender.MLLP_END
                   (remove_all Byte.eqb Sender.MLLP_START (b :: response)))
          end,
     [Sender.OpConnect; Sender.OpSend (frame payload)]
       ++ repeat Sender.OpRecv
            (snd (Sender.receive [] (map Sender.Ok chunks)))
       ++ [Sender.OpClose]).
Proof. intros He. now apply sent_then. Qed.

(** X14. Several frames in one answer: when one read returns the frames of
    several bodies without marker bytes, [send_hl7_message] returns one
    text, the bodies joined and decoded. *)
Theorem frames_in_one_answer
    (message : str) (payload b : bytes) (bodies : list bytes) :
  encode message = Some payload ->
  Forall (fun x => ~ In x0b x /\ ~ In x1c x) (b :: bodies) ->
  fst (Sender.send_hl7_message
         (answering [concat (map frame (b :: bodies))]) message)
  = Some (decode_replace (concat (b :: bodies))).
Proof.
  intros He Hall. rewrite (answered _ message payload He). cbn [fst map].
  rewrite receive_one.
  - cbn [fst].
    assert (H0 : Forall (fun x => ~ In x0b x) (b :: bodies))
      by (eapply Forall_impl; [|exact Hall]; now intros x [? _]).
    assert (H1 : Forall (fun x => ~ In x1c x) (b :: bodies))
      by (eapply Forall_impl; [|exact Hall]; now intros x [_ ?]).
    pose proof (remove_start_frames _ H0) as R0.
    pose proof (remove_end_frames _ H1) as R1.
    change (concat (frame b :: map frame bodies))
      with (concat (map frame (b :: bodies))).
    destruct (concat (map frame (b :: bodies))) as [|x r] eqn:C;
      [discriminate C|].
    cbv beta iota. now rewrite R0, R1.
  - discriminate.
  - cbn [map concat]. apply frame_has_end.
Qed.

Lemma frames_in_one_answer_witness :
  fst (Sender.send_hl7_message
         (answering [concat (map frame [[x41]; [x42; x43]])]) (lit "X"))
  = Some (decode_replace (concat [[x41]; [x42; x43]])).
Proof.
  apply (frames_in_one_answer (lit "X") [x58] [x41] [[x42; x43]]).
  - reflexivity.
  - repeat constructor; intros H; cbn in H; intuition discriminate.
Defined.

(* ================================================================= *)
(** ** A message and its acknowledgment *)

Lemma marker_free_lit_ok (s : str) :
  forallb (fun c => negb (N.eqb c 0x0B) && negb (N.eqb c 0x1C)) s = true ->
  marker_free s.
Proof.
  intros H. unfold marker_free. apply Forall_forall. intros c Hc.
  rewrite forallb_forall in H. specialize (H c Hc).
  apply andb_true_iff in H as [H1 H2].
  apply negb_true_iff in H1, H2. apply N.eqb_neq in H1, H2. auto.
Qed.

Lemma first_line_marker_free (message : str) :
  marker_free message -> marker_free (first_line message).
Proof.
  unfold marker_free. intros H. unfold first_line.
  pose proof (split_Forall N.eqb _ CR message H) as F. unfold ssplit.
  destruct (split N.eqb CR message); [constructor|]. now inversion F.
Qed.

Lemma field_marker_free (message : str) (i : nat) (f : str) :
  marker_free message ->
  nth_error (ssplit PIPE (first_line message)) i = Some f -> marker_free f.
Proof.
  intros H E. apply nth_error_In in E.
  pose proof (split_Forall N.eqb _ PIPE _ (first_line_marker_free _ H)) as F.
  rewrite Forall_forall in F. exact (F f E).
Qed.

Lemma ack_text_marker_free (timestamp message : str)
    (cf : Server.control_fields) :
  marker_free timestamp -> marker_free message ->
  Server.create_ack_fields message = Some cf ->
  marker_free (Server.ack_text timestamp cf).
Proof.
  intros Ht H E.
  assert (K : marker_free (Server.sending_app cf) /\
              marker_free (Server.sending_facility cf) /\
              marker_free (Server.receiving_app cf) /\
              marker_free (Server.receiving_facility cf) /\
              marker_free (Server.msg_control_id cf)).
  { destruct (Nat.lt_ge_cases (length (ssplit PIPE (first_line message))) 10)
      as [Hs|Hl].
    - rewrite (create_ack_fields_short message Hs) in E.
      apply some_inj in E. subst cf. unfold default_fields.
      cbn [Server.sending_app Server.sending_facility Server.receiving_app
           Server.receiving_facility Server.msg_control_id].
      repeat split; now apply marker_free_lit_ok.
    - destruct (create_ack_fields_long message Hl)
        as (f2 & f3 & f4 & f5 & f9 & E2 & E3 & E4 & E5 & E9 & E').
      rewrite E' in E. apply some_inj in E. subst cf.
      cbn [Server.sending_app Server.sending_facility Server.receiving_app
           Server.receiving_facility Server.msg_control_id].
      repeat split; eapply field_marker_free; eauto. }
  destruct K as (K1 & K2 & K3 & K4 & K5).
  unfold Server.ack_text, marker_free in *.
  repeat (apply Forall_app; split);
    first [assumption | now apply marker_free_lit_ok].
Qed.

(** The session that receives one whole frame. *)
Lemma one_frame_session (e : Server.env) (p : bytes) :
  reliable e -> bcontains Server.MLLP_END p = false ->
  exists info ack,
    Server.extract_message_info (decode_replace p) = Some info /\
    Server.create_ack (lit (Server.clock e 0)) (decode_replace p)
      = Some ack /\
    Server.handle_client e [Server.Data (frame p)]
      = Server.Awaiting
          {| Server.buffer := [];
             Server.handled := 1;
             Server.log := [Server.Received (decode_replace p);
                            Server.Info info;
                            Server.Saved (decode_replace p);
                            Server.Sent ack] |}.
Proof.
  intros R Hp.
  set (st0 := feed {| Server.buffer := []; Server.handled := 0;
                      Server.log := [] |} (frame p)).
  destruct (iteration_frame e st0 p [] R Hp) as (info & ack & Ei & Ea & E).
  { unfold st0, feed. cbn. now rewrite app_nil_r. }
  exists info, ack. split; [exact Ei|]. split; [exact Ea|].
  unfold Server.handle_client. rewrite serve_data by discriminate.
  fold st0. rewrite (drain_continue _ _ _ E).
  rewrite drain_done by (apply iteration_none; reflexivity).
  reflexivity.
Qed.

(** X15. Sender and receiver together: for a message without the marker
    characters, sent to a receiver whose storage and socket work, the
    receiver stores the very text of the message and sends one
    acknowledgment, however the frame is cut into reads; and however that
    acknowledgment is cut into reads, [send_hl7_message] returns its text,
    and reads once for each piece. *)
Theorem exchange_round_trip
    (e : Server.env) (message : str) (payload : bytes) :
  encode message = Some payload ->
  marker_free message ->
  marker_free (lit (Server.clock e 0)) ->
  reliable e ->
  exists cf info ack,
    Server.create_ack_fields message = Some cf /\
    (forall parts,
        parts <> [] -> Forall (fun c => c <> []) parts ->
        concat parts = frame payload ->
        Server.handle_client e (map Server.Data parts)
        = Server.Awaiting
            {| Server.buffer := [];
               Server.handled := 1;
               Server.log := [Server.Received message; Server.Info info;
                              Server.Saved message; Server.Sent ack] |}) /\
    forall chunks,
      chunks <> [] -> Forall (fun c => c <> []) chunks ->
      concat chunks = ack ->
      Sender.send_hl7_message (answering chunks) message
      = (Some (Server.ack_text (lit (Server.clock e 0)) cf),
         [Sender.OpConnect; Sender.OpSend (frame payload)]
           ++ repeat Sender.OpRecv (length chunks) ++ [Sender.OpClose]).
Proof.
  intros He Hm Ht R.
  pose proof (decode_replace_encode message payload He) as Hd.
  destruct (encode_marker_free message payload He Hm) as [_ P1].
  pose proof (no_1c_no_end payload P1) as Hp.
  destruct (one_frame_session e payload R Hp) as (info & ack & Ei & Ea & S).
  rewrite Hd in *.
  unfold Server.create_ack in Ea.
  destruct (Server.create_ack_fields message) as [cf|] eqn:Ecf;
    [|discriminate].
  destruct (encode (Server.ack_text (lit (Server.clock e 0)) cf))
    as [body|] eqn:Eb; [|discriminate].
  apply some_inj in Ea. subst ack.
  exists cf, info, (frame body). split; [reflexivity|]. split.
  { intros parts Hne Hall Hc. unfold Server.handle_client.
    rewrite (serve_chunks_reliable e parts _ R Hne Hall), Hc. exact S. }
  intros chunks Hne Hall Hc.
  pose proof (ack_text_marker_free _ message cf Ht Hm Ecf) as Hat.
  destruct (encode_marker_free _ body Eb Hat) as [B0 B1].
  pose proof (no_1c_no_end body B1) as Hb.
  rewrite (answered chunks message payload He).
  pose proof (receive_frame body chunks [] [] Hb Hne Hall Hc) as Rc.
  rewrite app_nil_r in Rc. rewrite Rc. cbn [fst snd].
  f_equal. f_equal.
  assert (R0 := remove_start_frames [body] ltac:(repeat constructor; exact B0)).
  assert (R1 := remove_end_frames [body] ltac:(repeat constructor; exact B1)).
  cbn [map concat] in R0, R1. rewrite !app_nil_r in R0, R1.
  change (frame body) with (x0b :: body ++ Server.MLLP_END) in R0 |- *.
  cbv beta iota. rewrite R0, R1.
  exact (decode_replace_encode _ body Eb).
Qed.

Lemma steady_stamp : marker_free (lit (Server.clock steady 0)).
Proof. now apply marker_free_lit_ok. Qed.

Lemma sample_marker_free : marker_free sample_message.
Proof. now apply marker_free_lit_ok. Qed.

Lemma exchange_round_trip_witness :
  exists payload cf info ack,
    encode sample_message = Some payload /\
    Server.create_ack_fields sample_message = Some cf /\
    (forall parts,
        parts <> [] -> Forall (fun c => c <> []) parts ->
        concat parts = frame payload ->
        Server.handle_client steady (map Server.Data parts)
        = Server.Awaiting
            {| Server.buffer := [];
               Server.handled := 1;
               Server.log := [Server.Received sample_message;
                              Server.Info info;
                              Server.Saved sample_message;
                              Server.Sent ack] |}) /\
    forall chunks,
      chunks <> [] -> Forall (fun c => c <> []) chunks ->
      concat chunks = ack ->
      Sender.send_hl7_message (answering chunks) sample_message
      = (Some (Server.ack_text (lit (Server.clock steady 0)) cf),
         [Sender.OpConnect; Sender.OpSend (frame payload)]
           ++ repeat Sender.OpRecv (length chunks) ++ [Sender.OpClose]).
Proof.
  destruct (encode sample_message) as [payload|] eqn:E;
    [|discriminate E].
  exists payload.
  destruct (exchange_round_trip steady sample_message payload E
              sample_marker_free steady_stamp steady_reliable)
    as (cf & info & ack & H1 & H2 & H3).
  exists cf, info, ack. auto.
Defined.

(* ================================================================= *)
(** ** The default message of the sender *)

Lemma notin_check (x : N) (s : str) :
  forallb (fun c => negb (N.eqb c x)) s = true -> ~ In x s.
Proof.
  intros H Hin. rewrite forallb_forall in H. specialize (H x Hin).
  now rewrite N.eqb_refl in H.
Qed.

Lemma digits_notin (x : N) (s : str) :
  ((x < 48)%N \/ (57 < x)%N) -> digits s -> ~ In x s.
Proof.
  intros Hx H Hin. unfold digits in H. rewrite Forall_forall in H.
  specialize (H x Hin). lia.
Qed.

Lemma digits_plain (s : str) : digits s -> plain s.
Proof.
  intros H. split; apply digits_notin; try exact H;
    [right|left]; reflexivity.
Qed.

Lemma digits_marker_free (s : str) : digits s -> marker_free s.
Proof.
  unfold digits, marker_free. apply Forall_impl. intros c H. lia.
Qed.

Lemma digits_encodable (s : str) : digits s -> encodable_str s.
Proof.
  unfold digits, encodable_str. apply Forall_impl. intros c H.
  unfold encodable. destruct (N.ltb_spec c 0xD800); [reflexivity|lia].
Qed.

(** The six segments. *)
Lemma default_message_lines (timestamp : str) :
  digits timestamp ->
  ssplit CR (Sender.create_default_mdm_message timestamp)
  = [lit "MSH|^~\&|EHR|HOSPITAL|REVSTREAM|INTEGRATION|" ++ timestamp
       ++ lit "||MDM^T02|MSG001|P|2.5";
     lit "EVN|T02|" ++ timestamp;
     lit ("PID|1||PAT001^^^HOSPITAL^MR||DOE^JOHN^A||19800115|M|||"
            ++ "123 MAIN ST^^ANYTOWN^ST^12345");
     lit "PV1|1|I|MED^101^A|E|||DOC001^SMITH^JANE|||MED||||ADM";
     lit "TXA|1|OP|TX|" ++ timestamp ++ lit "|DOC001^SMITH^JANE|"
       ++ timestamp ++ lit "||||DOC123||||||AU";
     lit ("OBX|1|TX|PROCEDURE^Operative Note||"
            ++ "Patient presents with acute appendicitis. "
            ++ "Laparoscopic appendectomy performed successfully. "
            ++ "No complications observed. "
            ++ "Diagnosis: Acute appendicitis with peritoneal abscess.||");
     []].
Proof.
  intros H. pose proof (proj2 (digits_plain _ H)) as Hcr.
  unfold Sender.create_default_mdm_message, ssplit.
  repeat change ([CR] ++ ?x) with (CR :: x).
  repeat (rewrite (split_app_sep N.eqb N_eqb_eq);
          [|no_sep (@not_in_app N) notin_check]).
  reflexivity.
Qed.

Lemma default_header_fields (timestamp : str) :
  digits timestamp ->
  ssplit PIPE (lit "MSH|^~\&|EHR|HOSPITAL|REVSTREAM|INTEGRATION|"
                 ++ timestamp ++ lit "||MDM^T02|MSG001|P|2.5")
  = [lit "MSH"; lit "^~\&"; lit "EHR"; lit "HOSPITAL"; lit "REVSTREAM";
     lit "INTEGRATION"; timestamp; []; lit "MDM^T02"; lit "MSG001";
     lit "P"; lit "2.5"].
Proof.
  intros H. pose proof (proj1 (digits_plain _ H)) as Hp. unfold ssplit.
  change (lit "MSH|^~\&|EHR|HOSPITAL|REVSTREAM|INTEGRATION|"
            ++ timestamp ++ lit "||MDM^T02|MSG001|P|2.5")
    with (lit "MSH" ++ PIPE :: lit "^~\&" ++ PIPE :: lit "EHR" ++ PIPE ::
          lit "HOSPITAL" ++ PIPE :: lit "REVSTREAM" ++ PIPE ::
          lit "INTEGRATION" ++ PIPE :: timestamp ++ PIPE :: [] ++ PIPE ::
          lit "MDM^T02" ++ PIPE :: lit "MSG001" ++ PIPE :: lit "P" ++ PIPE ::
          lit "2.5").
  repeat (rewrite (split_app_sep N.eqb N_eqb_eq);
          [|no_sep (@not_in_app N) notin_check]).
  rewrite (split_no_sep N.eqb N_eqb_eq)
    by no_sep (@not_in_app N) notin_check.
  reflexivity.
Qed.

(** X16. The default message of the sender, for every timestamp made of
    digits: the receiver reads the type MDM^T02 and the patient
    PAT001^^^HOSPITAL^MR in it and no code, [create_ack] reads the
    control fields EHR, HOSPITAL, REVSTREAM, INTEGRATION and MSG001, and
    the text holds no marker character and can be encoded. *)
Theorem default_message_is_well_formed (timestamp : str) :
  digits timestamp ->
  Server.extract_message_info (Sender.create_default_mdm_message timestamp)
    = Some {| Server.message_type := lit "MDM^T02";
              Server.patient_id := lit "PAT001^^^HOSPITAL^MR";
              Server.codes := [] |} /\
  Server.create_ack_fields (Sender.create_default_mdm_message timestamp)
    = Some {| Server.sending_app := lit "EHR";
              Server.sending_facility := lit "HOSPITAL";
              Server.receiving_app := lit "REVSTREAM";
              Server.receiving_facility := lit "INTEGRATION";
              Server.msg_control_id := lit "MSG001" |} /\
  marker_free (Sender.create_default_mdm_message timestamp) /\
  encodable_str (Sender.create_default_mdm_message timestamp).
Proof.
  intros H.
  pose proof (default_message_lines timestamp H) as L.
  pose proof (default_header_fields timestamp H) as F.
  split; [|split; [|split]].
  - unfold Server.extract_message_info. rewrite L.
    cbn [Server.info_lines].
    assert (H1 : Server.info_line
                   {| Server.message_type := lit "Unknown";
                      Server.patient_id := lit "Unknown";
                      Server.codes := [] |}
                   (lit "MSH|^~\&|EHR|HOSPITAL|REVSTREAM|INTEGRATION|"
                      ++ timestamp ++ lit "||MDM^T02|MSG001|P|2.5")
                 = Some {| Server.message_type := lit "MDM^T02";
                           Server.patient_id := lit "Unknown";
                           Server.codes := [] |}).
    { unfold Server.info_line.
      change (sstartswith (lit "MSH|")
                (lit "MSH|^~\&|EHR|HOSPITAL|REVSTREAM|INTEGRATION|"
                   ++ timestamp ++ lit "||MDM^T02|MSG001|P|2.5"))
        with true.
      cbv iota. rewrite F. reflexivity. }
    rewrite H1.
    assert (H2 : forall info,
               Server.info_line info (lit "EVN|T02|" ++ timestamp)
               = Some info) by reflexivity.
    rewrite H2.
    assert (H3 : forall info,
               Server.info_line info
                 (lit "TXA|1|OP|TX|" ++ timestamp
                    ++ lit "|DOC001^SMITH^JANE|" ++ timestamp
                    ++ lit "||||DOC123||||||AU")
               = Some info) by reflexivity.
    vm_compute Server.info_line at 1. cbv iota beta.
    vm_compute Server.info_line at 1. cbv iota beta.
    rewrite H3.
    vm_compute. reflexivity.
  - unfold Server.create_ack_fields. rewrite L. cbv zeta. rewrite F.
    reflexivity.
  - pose proof (digits_marker_free _ H) as Hm.
    unfold Sender.create_default_mdm_message, marker_free in *.
    repeat (apply Forall_app; split);
      first [assumption | now apply marker_free_lit_ok].
  - pose proof (digits_encodable _ H) as He.
    unfold Sender.create_default_mdm_message, encodable_str in *.
    repeat (apply Forall_app; split);
      first [assumption | apply lit_encodable | repeat constructor].
Qed.

Lemma digits_stamp : digits (lit "20240102030405").
Proof. unfold digits. repeat constructor; vm_compute; discriminate. Qed.

Lemma default_message_is_well_formed_witness :
  Server.extract_message_info
    (Sender.create_default_mdm_message (lit "20240102030405"))
    = Some {| Server.message_type := lit "MDM^T02";
              Server.patient_id := lit "PAT001^^^HOSPITAL^MR";
              Server.codes := [] |} /\
  Server.create_ack_fields
    (Sender.create_default_mdm_message (lit "20240102030405"))
    = Some {| Server.sending_app := lit "EHR";
              Server.sending_facility := lit "HOSPITAL";
              Server.receiving_app := lit "REVSTREAM";
              Server.receiving_facility := lit "INTEGRATION";
              Server.msg_control_id := lit "MSG001" |} /\
  marker_free (Sender.create_default_mdm_message (lit "20240102030405")) /\
  encodable_str (Sender.create_default_mdm_message (lit "20240102030405")).
Proof.
  exact (default_message_is_well_formed (lit "20240102030405") digits_stamp).
Defined.

(* ================================================================= *)
(** ** A segment terminator in front of the message *)

(** X17. A segment terminator in front of a message: [create_ack] reads the
    empty first line and answers with the default control fields, control
    ID 0, while [extract_message_info] reads the message as if the
    terminator were not there. *)
Theorem leading_terminator_defaults (message : str) :
  Server.create_ack_fields (CR :: message) = Some default_fields /\
  Server.extract_message_info (CR :: message)
  = Server.extract_message_info message.
Proof.
  assert (L : ssplit CR (CR :: message) = [] :: ssplit CR message).
  { unfold ssplit. cbn [split]. now rewrite N.eqb_refl. }
  split.
  - unfold Server.create_ack_fields. rewrite L. reflexivity.
  - unfold Server.extract_message_info. rewrite L. reflexivity.
Qed.

(* ================================================================= *)
(** ** The end marker and the acknowledgments *)

Lemma encode_app (a b : str) :
  encode (a ++ b)
  = match encode a, encode b with
    | Some x, Some y => Some (x ++ y)
    | _, _ => None
    end.
Proof.
  induction a as [|c a IH]; cbn [app encode].
  - now destruct (encode b).
  - rewrite IH. destruct (encode1 c) as [x|]; [|reflexivity].
    destruct (encode a) as [y|]; [|reflexivity].
    destruct (encode b) as [z|]; [|reflexivity].
    now rewrite app_assoc.
Qed.

(** A carriage return that follows bytes without carriage return, the
    last of which is not 0x1C, ends no end marker. *)
Lemma no_end_through_cr (l r : bytes) :
  ~ In x0d l -> last l x00 <> x1c ->
  bcontains Server.MLLP_END (l ++ x0d :: r) = bcontains Server.MLLP_END r.
Proof.
  unfold bcontains, contains, bfind. revert r.
  induction l as [|a l IH]; intros r Hcr Hlast.
  - cbn [app]. rewrite find_cons.
    assert (Hs : startswith Byte.eqb Server.MLLP_END (x0d :: r) = false)
      by (destruct r; reflexivity).
    rewrite Hs. now destruct (find Byte.eqb Server.MLLP_END r).
  - cbn [app]. rewrite find_cons.
    assert (Hs : startswith Byte.eqb Server.MLLP_END (a :: l ++ x0d :: r)
                 = false).
    { destruct l as [|b l].
      - cbn [app]. rewrite startswith_end.
        destruct (Byte.eqb x1c a) eqn:E; [|reflexivity].
        apply byte_eqb_eq in E. subst a. now contradiction Hlast.
      - cbn [app]. rewrite startswith_end.
        destruct (Byte.eqb x0d b) eqn:E; [|apply andb_false_r].
        apply byte_eqb_eq in E. subst b. exfalso. apply Hcr. right. now left. }
    rewrite Hs.
    assert (Hcr' : ~ In x0d l) by (intros K; apply Hcr; now right).
    assert (Hlast' : last l x00 <> x1c).
    { destruct l as [|b l]; [discriminate|exact Hlast]. }
    specialize (IH r Hcr' Hlast').
    destruct (find Byte.eqb Server.MLLP_END (l ++ x0d :: r));
      destruct (find Byte.eqb Server.MLLP_END r);
      cbn [option_map]; congruence.
Qed.

Lemma encode_no_cr (s : str) (bs : bytes) :
  encode s = Some bs -> ~ In CR s -> ~ In x0d bs.
Proof.
  intros E H Hin. apply H. apply (encode_ascii s 13 bs E); [lia|exact Hin].
Qed.

(** The encoding of a text that ends with an ASCII literal ends with the
    bytes of the literal. *)
Lemma encode_ends (s t : str) (bs tail : bytes) (z : byte) :
  encode (s ++ t) = Some bs -> encode t = Some (tail ++ [z]) ->
  last bs x00 = z.
Proof.
  rewrite encode_app. intros E Et. rewrite Et in E.
  destruct (encode s) as [x|]; [|discriminate].
  apply some_inj in E. subst bs. rewrite app_assoc. apply last_last.
Qed.

Lemma header_ends (timestamp : str) (cf : Server.control_fields) :
  ack_header timestamp cf
  = (lit "MSH|^~\&|" ++ Server.receiving_app cf ++ lit "|"
       ++ Server.receiving_facility cf ++ lit "|" ++ Server.sending_app cf
       ++ lit "|" ++ Server.sending_facility cf ++ lit "|" ++ timestamp
       ++ lit "||ACK^P03|" ++ Server.msg_control_id cf) ++ lit "|P|2.5".
Proof. unfold ack_header. now rewrite <- !app_assoc. Qed.

Lemma status_ends (cf : Server.control_fields) :
  ack_status cf
  = (lit "MSA|AA|" ++ Server.msg_control_id cf)
      ++ lit "|Message received successfully".
Proof. unfold ack_status. now rewrite <- !app_assoc. Qed.

(** The body of an acknowledgment holds no end marker, whatever the fields
    are. *)
Lemma ack_body_no_end (timestamp : str) (cf : Server.control_fields)
    (body : bytes) :
  plain timestamp -> plain_fields cf ->
  encode (Server.ack_text timestamp cf) = Some body ->
  bcontains Server.MLLP_END body = false.
Proof.
  intros Ht Hcf E.
  pose proof Ht as [_ Ht'].
  pose proof Hcf as ([_ Ha] & [_ Hb] & [_ Hc] & [_ Hd] & [_ Hm]).
  assert (Hh : ~ In CR (ack_header timestamp cf)).
  { unfold ack_header. repeat apply not_in_app; try assumption; not_in_lit. }
  assert (Hs : ~ In CR (ack_status cf)).
  { unfold ack_status. repeat apply not_in_app; try assumption; not_in_lit. }
  rewrite ack_text_lines in E.
  change (ack_header timestamp cf ++ CR :: ack_status cf ++ [CR])
    with (ack_header timestamp cf ++ [CR] ++ ack_status cf ++ [CR]) in E.
  rewrite !encode_app in E.
  destruct (encode (ack_header timestamp cf)) as [h|] eqn:Eh;
    [|discriminate].
  destruct (encode (ack_status cf)) as [s|] eqn:Es;
    [|now destruct (encode [CR])].
  change (encode [CR]) with (Some [x0d]) in E. apply some_inj in E.
  subst body. cbn [app].
  rewrite (no_end_through_cr h).
  - rewrite (no_end_through_cr s); [reflexivity| |].
    + exact (encode_no_cr _ _ Es Hs).
    + rewrite status_ends in Es.
      rewrite (encode_ends _ (lit "|Message received successfully") s
                 (firstn 29 (map byte_of
                               (lit "|Message received successfully")))
                 x79 Es eq_refl).
      discriminate.
  - exact (encode_no_cr _ _ Eh Hh).
  - rewrite header_ends in Eh.
    rewrite (encode_ends _ (lit "|P|2.5") h
               (firstn 5 (map byte_of (lit "|P|2.5"))) x35 Eh eq_refl).
    discriminate.
Qed.

(** X18. Every acknowledgment is one frame: for a message that can be
    encoded and a timestamp without separators, the bytes [create_ack]
    returns are the frame of a body that holds no end marker, whatever the
    fields of the message hold (marker characters included); the loop of
    the receiver takes exactly that body from it, and the body decodes to
    the text of the acknowledgment. *)
Theorem acknowledgment_is_one_frame (timestamp : string) (message : str) :
  plain (lit timestamp) -> encodable_str message ->
  exists cf body,
    Server.create_ack_fields message = Some cf /\
    Server.create_ack (lit timestamp) message = Some (frame body) /\
    bcontains Server.MLLP_END body = false /\
    Server.decode_all (frame body) = ([body], []) /\
    decode_replace body = Server.ack_text (lit timestamp) cf.
Proof.
  intros Ht Hm.
  destruct (create_ack_fields_total message) as [cf Ecf].
  destruct (encode_encodable _ (ack_text_encodable timestamp _ cf Hm Ecf))
    as [body Eb].
  pose proof (ack_body_no_end (lit timestamp) cf body Ht
                (create_ack_fields_plain message cf Ecf) Eb) as Hb.
  exists cf, body. split; [exact Ecf|]. split.
  - unfold Server.create_ack. now rewrite Ecf, Eb.
  - split; [exact Hb|]. split.
    + rewrite <- (app_nil_r (frame body)).
      rewrite (decode_all_step _ body []) by now apply deframe_frame.
      reflexivity.
    + exact (decode_replace_encode _ body Eb).
Qed.

Lemma acknowledgment_is_one_frame_witness :
  exists cf body,
    Server.create_ack_fields
      (lit "MSH|^~\&|A|B|C|D|1||T|" ++ [0x0B; 0x1C]%N ++ lit "|P|2.5")
    = Some cf /\
    Server.create_ack (lit "20240102030405")
      (lit "MSH|^~\&|A|B|C|D|1||T|" ++ [0x0B; 0x1C]%N ++ lit "|P|2.5")
    = Some (frame body) /\
    bcontains Server.MLLP_END body = false /\
    Server.decode_all (frame body) = ([body], []) /\
    decode_replace body = Server.ack_text (lit "20240102030405") cf.
Proof.
  apply (acknowledgment_is_one_frame "20240102030405"
           (lit "MSH|^~\&|A|B|C|D|1||T|" ++ [0x0B; 0x1C]%N ++ lit "|P|2.5")).
  - split; not_in_lit.
  - unfold encodable_str. repeat constructor.
Defined.

(* ================================================================= *)
(** ** The answer, read piece by piece *)






(* ================================================================= *)
(** ** The sender, step by step *)







(* ================================================================= *)
(** ** The socket of the sender *)




(* ================================================================= *)
(** ** A failure in the middle of a read *)

(** The loop up to the [k]-th payload of the buffer, when storage and
    socket work for the payloads before it: their four events each are
    logged, and the [k]-th payload is the next one to be taken. *)
Lemma drain_until (e : Server.env) (k : nat) :
  forall (st : Server.state) (payload : bytes),
    nth_error (fst (Server.decode_all (Server.buffer st))) k = Some payload ->
    (forall j q,
        j < k ->
        nth_error (fst (Server.decode_all (Server.buffer st))) j = Some q ->
        goes_through e (Server.handled st + j) q) ->
    exists st1 rest evs,
      Server.deframe (Server.buffer st1) = Some (payload, rest) /\
      Server.drain e st = Server.drain e st1 /\
      Server.handled st1 = Server.handled st + k /\
      Server.log st1 = Server.log st ++ evs /\
      length evs = 4 * k /\
      stored evs
      = map decode_replace
          (firstn k (fst (Server.decode_all (Server.buffer st)))) /\
      map Some (acknowledged evs)
      = acks_for e (Server.handled st)
          (firstn k (fst (Server.decode_all (Server.buffer st)))).
Proof.
  induction k as [|k IH]; intros st payload Hk Hgo.
  - destruct (Server.deframe (Server.buffer st)) as [[q rest]|] eqn:D.
    + rewrite (decode_all_step _ _ _ D) in Hk. cbn in Hk.
      injection Hk as ->.
      exists st, rest, []. rewrite app_nil_r, Nat.add_0_r.
      repeat split; auto.
    + rewrite (decode_all_done _ D) in Hk. discriminate Hk.
  - destruct (Server.deframe (Server.buffer st)) as [[q rest]|] eqn:D.
    2:{ rewrite (decode_all_done _ D) in Hk. discriminate Hk. }
    rewrite (decode_all_step _ _ _ D) in Hk, Hgo |- *.
    cbn [fst nth_error firstn] in Hk, Hgo |- *.
    destruct (Hgo 0 q ltac:(lia) eq_refl) as [Hsave Hsend].
    rewrite Nat.add_0_r in Hsave, Hsend.
    destruct (iteration_deframe e st q rest D) as (info & ack & Ei & Ea & E).
    rewrite Hsave, (Hsend ack Ea) in E.
    set (st2 := handled_state st rest (decode_replace q) info ack) in *.
    destruct (IH st2 payload Hk) as (st1 & rest1 & evs & D1 & Dr & Hh & Hl
                                       & Hlen & Hst & Hack).
    { intros j q' Hj Hq'. cbn [st2 handled_state Server.handled].
      replace (S (Server.handled st) + j) with (Server.handled st + S j)
        by lia.
      apply Hgo; [lia|exact Hq']. }
    exists st1, rest1,
      ([Server.Received (decode_replace q); Server.Info info;
        Server.Saved (decode_replace q); Server.Sent ack] ++ evs).
    split; [exact D1|].
    split; [now rewrite (drain_continue e st st2 E)|].
    split; [rewrite Hh; cbn; lia|].
    split; [rewrite Hl; cbn [st2 handled_state Server.log];
            now rewrite <- app_assoc|].
    split; [rewrite length_app, Hlen; cbn [length]; lia|].
    split.
    + rewrite stored_app, Hst. reflexivity.
    + rewrite acknowledged_app, map_app, Hack. cbn [acks_for].
      rewrite Ea. reflexivity.
Qed.

(** C8, amended.  Storage failure ends the session: for every message the
    loop takes from the buffer, the first of a read or a later one, from
    any state of the session: when storage and socket worked for the
    messages before it and [save_message] fails on it, the error is logged
    and the connection is closed.  The messages before it were stored and
    acknowledged; for the message that failed, nothing is stored and no
    acknowledgment is sent; the frames behind it in the buffer and the
    reads that would follow are not handled. *)
Theorem storage_failure_ends_session
    (e : Server.env) (st : Server.state) (data : bytes)
    (script : list Server.recv_result) (k : nat) (payload : bytes) :
  data <> [] ->
  nth_error (fst (Server.decode_all (Server.buffer st ++ data))) k
    = Some payload ->
  (forall j q,
      j < k ->
      nth_error (fst (Server.decode_all (Server.buffer st ++ data))) j
        = Some q ->
      goes_through e (Server.handled st + j) q) ->
  Server.save_ok e (Server.handled st + k) (decode_replace payload) = false ->
  exists st' info evs,
    Server.serve e (Server.Data data :: script) st = Server.Closed st' /\
    Server.extract_message_info (decode_replace payload) = Some info /\
    Server.handled st' = Server.handled st + k /\
    Server.log st'
    = Server.log st ++ evs
        ++ [Server.Received (decode_replace payload); Server.Info info;
            Server.ErrorLogged; Server.ConnClosed] /\
    length evs = 4 * k /\
    stored evs
    = map decode_replace
        (firstn k (fst (Server.decode_all (Server.buffer st ++ data)))) /\
    map Some (acknowledged evs)
    = acks_for e (Server.handled st)
        (firstn k (fst (Server.decode_all (Server.buffer st ++ data)))).
Proof.
  intros Hd Hk Hgo Hsave.
  destruct (drain_until e k (feed st data) payload Hk Hgo)
    as (st1 & rest & evs & D & Dr & Hh & Hl & Hlen & Hst & Hack).
  cbn [feed Server.handled Server.log Server.buffer] in Hh, Hl, Hst, Hack.
  destruct (iteration_deframe e st1 payload rest D)
    as (info & ack & Ei & _ & E).
  rewrite Hh, Hsave in E.
  rewrite serve_data by exact Hd. rewrite Dr, (drain_raised e _ _ E).
  eexists. exists info, evs. split; [reflexivity|].
  split; [exact Ei|].
  unfold Server.logged. cbn [Server.handled Server.log].
  split; [exact Hh|]. rewrite Hl, <- !app_assoc.
  split; [reflexivity|]. split; [exact Hlen|].
  split; [exact Hst|exact Hack].
Qed.

Lemma storage_failure_ends_session_witness :
  exists st' info evs,
    Server.handle_client (disk_full_after 1)
      [Server.Data (frame [x41] ++ frame [x42] ++ frame [x43]);
       Server.Data (frame [x44])]
    = Server.Closed st' /\
    Server.extract_message_info (lit "B") = Some info /\
    Server.handled st' = 1 /\
    Server.log st'
    = [] ++ evs
        ++ [Server.Received (lit "B"); Server.Info info;
            Server.ErrorLogged; Server.ConnClosed] /\
    length evs = 4 /\
    stored evs = [lit "A"] /\
    map Some (acknowledged evs)
    = [Server.create_ack (lit "20240102030405") (lit "A")].
Proof.
  apply (storage_failure_ends_session (disk_full_after 1)
           {| Server.buffer := []; Server.handled := 0; Server.log := [] |}
           (frame [x41] ++ frame [x42] ++ frame [x43])
           [Server.Data (frame [x44])] 1 [x42]).
  - discriminate.
  - reflexivity.
  - intros j q Hj Hq.
    destruct j as [|j]; [|lia].
    injection Hq as <-. split; [reflexivity|]. intros ack _. reflexivity.
  - reflexivity.
Defined.

(** X9. When an acknowledgment cannot be sent, its message has been stored
    already.  For every message the loop takes from the buffer, the first
    of a read or a later one: when storage and socket worked for the
    messages before it, the message is stored and the sending of its
    acknowledgment fails, then the error is logged and the connection is
    closed; the frames behind it in the buffer and the reads that would
    follow are not handled. *)
Theorem send_failure_after_storage
    (e : Server.env) (st : Server.state) (data : bytes)
    (script : list Server.recv_result) (k : nat) (payload : bytes) :
  data <> [] ->
  nth_error (fst (Server.decode_all (Server.buffer st ++ data))) k
    = Some payload ->
  (forall j q,
      j < k ->
      nth_error (fst (Server.decode_all (Server.buffer st ++ data))) j
        = Some q ->
      goes_through e (Server.handled st + j) q) ->
  Server.save_ok e (Server.handled st + k) (decode_replace payload) = true ->
  (forall ack,
      Server.create_ack (lit (Server.clock e (Server.handled st + k)))
                        (decode_replace payload) = Some ack ->
      Server.send_ok e (Server.handled st + k) ack = false) ->
  exists st' info evs,
    Server.serve e (Server.Data data :: script) st = Server.Closed st' /\
    Server.extract_message_info (decode_replace payload) = Some info /\
    Server.handled st' = Server.handled st + k /\
    Server.log st'
    = Server.log st ++ evs
        ++ [Server.Received (decode_replace payload); Server.Info info;
            Server.Saved (decode_replace payload);
            Server.ErrorLogged; Server.ConnClosed] /\
    length evs = 4 * k /\
    stored evs
    = map decode_replace
        (firstn k (fst (Server.decode_all (Server.buffer st ++ data)))) /\
    map Some (acknowledged evs)
    = acks_for e (Server.handled st)
        (firstn k (fst (Server.decode_all (Server.buffer st ++ data)))).
Proof.
  intros Hd Hk Hgo Hsave Hsend.
  destruct (drain_until e k (feed st data) payload Hk Hgo)
    as (st1 & rest & evs & D & Dr & Hh & Hl & Hlen & Hst & Hack).
  cbn [feed Server.handled Server.log Server.buffer] in Hh, Hl, Hst, Hack.
  destruct (iteration_deframe e st1 payload rest D)
    as (info & ack & Ei & Ea & E).
  rewrite Hh in Ea, E. rewrite Hsave, (Hsend ack Ea) in E.
  rewrite serve_data by exact Hd. rewrite Dr, (drain_raised e _ _ E).
  eexists. exists info, evs. split; [reflexivity|].
  split; [exact Ei|].
  unfold Server.logged. cbn [Server.handled Server.log].
  split; [exact Hh|]. rewrite Hl, <- !app_assoc.
  split; [reflexivity|]. split; [exact Hlen|].
  split; [exact Hst|exact Hack].
Qed.

Lemma send_failure_after_storage_witness :
  exists st' info evs,
    Server.handle_client (peer_gone_after 1)
      [Server.Data (frame [x41] ++ frame [x42] ++ frame [x43]);
       Server.Data (frame [x44])]
    = Server.Closed st' /\
    Server.extract_message_info (lit "B") = Some info /\
    Server.handled st' = 1 /\
    Server.log st'
    = [] ++ evs
        ++ [Server.Received (lit "B"); Server.Info info;
            Server.Saved (lit "B");
            Server.ErrorLogged; Server.ConnClosed] /\
    length evs = 4 /\
    stored evs = [lit "A"] /\
    map Some (acknowledged evs)
    = [Server.create_ack (lit "20240102030405") (lit "A")].
Proof.
  apply (send_failure_after_storage (peer_gone_after 1)
           {| Server.buffer := []; Server.handled := 0; Server.log := [] |}
           (frame [x41] ++ frame [x42] ++ frame [x43])
           [Server.Data (frame [x44])] 1 [x42]).
  - discriminate.
  - reflexivity.
  - intros j q Hj Hq.
    destruct j as [|j]; [|lia].
    injection Hq as <-. split; [reflexivity|]. intros ack _. reflexivity.
  - reflexivity.
  - intros ack _. reflexivity.
Defined.

(* ================================================================= *)
(** ** The bytes of an acknowledgment *)

(** What [create_ack] returns for a message that was decoded from bytes:
    the frame of a body which is the UTF-8 encoding of the two lines. *)
Lemma create_ack_body (timestamp : string) (payload : bytes) :
  exists cf body,
    Server.create_ack_fields (decode_replace payload) = Some cf /\
    Server.create_ack (lit timestamp) (decode_replace payload)
      = Some (frame body) /\
    decode_strict body
      = Some (ack_header (lit timestamp) cf ++ [CR]
                ++ ack_status cf ++ [CR]).
Proof.
  destruct (create_ack_decoded timestamp payload)
    as (cf & body & Ec & Eb & Ea).
  exists cf, body. split; [exact Ec|]. split; [exact Ea|].
  rewrite (decode_strict_encode _ _ Eb), ack_text_lines. reflexivity.
Qed.

Lemma create_ack_fields_id (message : str) (cf : Server.control_fields) :
  Server.create_ack_fields message = Some cf ->
  Server.msg_control_id cf = control_id message.
Proof.
  intros E. unfold control_id.
  destruct (Nat.leb_spec 10 (length (ssplit PIPE (first_line message))))
    as [H|H].
  - destruct (create_ack_fields_long message H)
      as (f2 & f3 & f4 & f5 & f9 & _ & _ & _ & _ & E9 & Ecf).
    rewrite Ecf in E. injection E as <-. cbn [Server.msg_control_id].
    symmetry. now apply nth_error_nth.
  - rewrite (create_ack_fields_short message H) in E. now injection E as <-.
Qed.

(** C5. Acknowledgment identity: for every received payload whose first
    line has at least 10 pipe-delimited fields, with sending application
    [A] in field 2, sending facility [B] in field 3, receiving application
    [C] in field 4, receiving facility [D] in field 5 and control ID [M1]
    in field 9, [create_ack] returns the bytes of a frame: the start
    marker, a body, the end marker.  The body is well-formed UTF-8 and
    reads MSH|^~\&|C|D|A|B|timestamp||ACK^P03|M1|P|2.5, a carriage return,
    MSA|AA|M1|Message received successfully, a carriage return: the routing
    fields are swapped, in the header fields 2 to 5, and the status line
    echoes the control ID with the accept code AA. *)
Theorem acknowledgment_identity
    (timestamp : string) (payload : bytes) (A B C D M1 : str) :
  10 <= length (ssplit PIPE (first_line (decode_replace payload))) ->
  nth_error (ssplit PIPE (first_line (decode_replace payload))) 2 = Some A ->
  nth_error (ssplit PIPE (first_line (decode_replace payload))) 3 = Some B ->
  nth_error (ssplit PIPE (first_line (decode_replace payload))) 4 = Some C ->
  nth_error (ssplit PIPE (first_line (decode_replace payload))) 5 = Some D ->
  nth_error (ssplit PIPE (first_line (decode_replace payload))) 9 = Some M1 ->
  plain (lit timestamp) ->
  exists body header status,
    Server.create_ack (lit timestamp) (decode_replace payload)
      = Some (Server.MLLP_START ++ body ++ Server.MLLP_END) /\
    decode_strict body = Some (header ++ [CR] ++ status ++ [CR]) /\
    header
      = lit "MSH|^~\&|" ++ C ++ lit "|" ++ D ++ lit "|" ++ A ++ lit "|" ++ B
          ++ lit "|" ++ lit timestamp ++ lit "||ACK^P03|" ++ M1
          ++ lit "|P|2.5" /\
    status = lit "MSA|AA|" ++ M1 ++ lit "|Message received successfully" /\
    ssplit PIPE header
      = [lit "MSH"; lit "^~\&"; C; D; A; B; lit timestamp; [];
         lit "ACK^P03"; M1; lit "P"; lit "2.5"] /\
    ssplit PIPE status
      = [lit "MSA"; lit "AA"; M1; lit "Message received successfully"] /\
    ssplit CR (header ++ [CR] ++ status ++ [CR]) = [header; status; []].
Proof.
  intros Hlen EA EB EC ED EM Hts.
  destruct (create_ack_fields_long _ Hlen)
    as (f2 & f3 & f4 & f5 & f9 & E2 & E3 & E4 & E5 & E9 & Ecf).
  rewrite EA in E2. rewrite EB in E3. rewrite EC in E4. rewrite ED in E5.
  rewrite EM in E9.
  apply some_inj in E2, E3, E4, E5, E9. subst f2 f3 f4 f5 f9.
  destruct (create_ack_body timestamp payload)
    as (cf & body & Ecf' & Ea & Ed).
  rewrite Ecf in Ecf'. apply some_inj in Ecf'. subst cf.
  pose proof (create_ack_fields_plain _ _ Ecf) as Hcf.
  set (cf := {| Server.sending_app := A;
                Server.sending_facility := B;
                Server.receiving_app := C;
                Server.receiving_facility := D;
                Server.msg_control_id := M1 |}) in *.
  exists body, (ack_header (lit timestamp) cf), (ack_status cf).
  split; [exact Ea|]. split; [exact Ed|].
  split; [reflexivity|]. split; [reflexivity|].
  split; [now apply header_fields_ack|].
  split; [apply ack_status_fields; apply Hcf|].
  change (ack_header (lit timestamp) cf ++ [CR] ++ ack_status cf ++ [CR])
    with (ack_header (lit timestamp) cf ++ CR :: ack_status cf ++ CR :: []).
  rewrite <- ack_text_lines. now apply first_line_ack.
Qed.

Lemma acknowledgment_identity_witness :
  exists body header status,
    Server.create_ack (lit "20240102030405") (decode_replace first_payload)
      = Some (Server.MLLP_START ++ body ++ Server.MLLP_END) /\
    decode_strict body = Some (header ++ [CR] ++ status ++ [CR]) /\
    header
      = lit ("MSH|^~\&|REVSTREAM|INTEGRATION|EHR|HOSPITAL|"
               ++ "20240102030405||ACK^P03|MSG001|P|2.5") /\
    status = lit "MSA|AA|MSG001|Message received successfully" /\
    ssplit PIPE header
      = [lit "MSH"; lit "^~\&"; lit "REVSTREAM"; lit "INTEGRATION";
         lit "EHR"; lit "HOSPITAL"; lit "20240102030405"; [];
         lit "ACK^P03"; lit "MSG001"; lit "P"; lit "2.5"] /\
    ssplit PIPE status
      = [lit "MSA"; lit "AA"; lit "MSG001";
         lit "Message received successfully"] /\
    ssplit CR (header ++ [CR] ++ status ++ [CR]) = [header; status; []].
Proof.
  apply (acknowledgment_identity "20240102030405" first_payload
           (lit "EHR") (lit "HOSPITAL") (lit "REVSTREAM") (lit "INTEGRATION")
           (lit "MSG001")).
  - vm_compute. lia.
  - reflexivity.
  - reflexivity.
  - reflexivity.
  - reflexivity.
  - reflexivity.
  - split; not_in_lit.
Defined.

(* ================================================================= *)
(** ** Two frames in one read *)

(** C4. Multi-frame batching: when the frames of two payloads without
    markers arrive in one read, the loop takes [p1] then [p2] and empties
    the buffer.  Exactly two acknowledgments are sent, in that order; each
    is the frame of well-formed UTF-8 that reads a header line, a carriage
    return, MSA|AA| with the control ID of its own message and |Message
    received successfully, a carriage return; the control ID is field 9 of
    the first line of the message when that line has at least 10 fields,
    and 0 otherwise, and the header carries it too.  When the first
    acknowledgment has been sent the frame of [p2] is still whole in the
    buffer. *)
Theorem batched_frames_in_order (e : Server.env) (p1 p2 : bytes) :
  clean p1 -> clean p2 -> reliable e ->
  let m1 := decode_replace p1 in
  let m2 := decode_replace p2 in
  let st0 := {| Server.buffer := frame p1 ++ frame p2;
                Server.handled := 0;
                Server.log := [] |} in
  exists i1 i2 cf1 cf2 body1 body2,
    Server.decode_all (frame p1 ++ frame p2) = ([p1; p2], []) /\
    Server.extract_message_info m1 = Some i1 /\
    Server.extract_message_info m2 = Some i2 /\
    Server.create_ack_fields m1 = Some cf1 /\
    Server.create_ack_fields m2 = Some cf2 /\
    Server.msg_control_id cf1 = control_id m1 /\
    Server.msg_control_id cf2 = control_id m2 /\
    decode_strict body1
      = Some (ack_header (lit (Server.clock e 0)) cf1 ++ [CR]
                ++ (lit "MSA|AA|" ++ control_id m1
                      ++ lit "|Message received successfully") ++ [CR]) /\
    decode_strict body2
      = Some (ack_header (lit (Server.clock e 1)) cf2 ++ [CR]
                ++ (lit "MSA|AA|" ++ control_id m2
                      ++ lit "|Message received successfully") ++ [CR]) /\
    let st1 := handled_state st0 (frame p2) m1 i1 (frame body1) in
    let st2 := handled_state st1 [] m2 i2 (frame body2) in
    Server.iteration e st0 = Some (Server.Continue st1) /\
    Server.iteration e st1 = Some (Server.Continue st2) /\
    Server.iteration e st2 = None /\
    Server.handle_client e [Server.Data (frame p1 ++ frame p2)]
      = Server.Awaiting
          {| Server.buffer := [];
             Server.handled := 2;
             Server.log := [Server.Received m1; Server.Info i1;
                            Server.Saved m1; Server.Sent (frame body1);
                            Server.Received m2; Server.Info i2;
                            Server.Saved m2; Server.Sent (frame body2)] |}.
Proof.
  intros [_ H1] [_ H2] He m1 m2 st0.
  destruct (iteration_frame e st0 p1 (frame p2) He H1 eq_refl)
    as (i1 & a1 & Ei1 & Ea1 & E1).
  destruct (create_ack_body (Server.clock e 0) p1)
    as (cf1 & body1 & Ec1 & Ea1' & Eb1).
  change (Server.handled st0) with 0 in Ea1. fold m1 in Ea1, Ea1', Ec1, Ei1.
  rewrite Ea1' in Ea1. apply some_inj in Ea1. subst a1. fold m1 in E1.
  set (st1 := handled_state st0 (frame p2) m1 i1 (frame body1)) in *.
  destruct (iteration_frame e st1 p2 [] He H2) as (i2 & a2 & Ei2 & Ea2 & E2).
  { cbn. now rewrite app_nil_r. }
  destruct (create_ack_body (Server.clock e 1) p2)
    as (cf2 & body2 & Ec2 & Ea2' & Eb2).
  change (Server.handled st1) with 1 in Ea2. fold m2 in Ea2, Ea2', Ec2, Ei2.
  rewrite Ea2' in Ea2. apply some_inj in Ea2. subst a2. fold m2 in E2.
  set (st2 := handled_state st1 [] m2 i2 (frame body2)) in *.
  assert (E3 : Server.iteration e st2 = None)
    by (apply iteration_none; reflexivity).
  pose proof (create_ack_fields_id m1 cf1 Ec1) as Hid1.
  pose proof (create_ack_fields_id m2 cf2 Ec2) as Hid2.
  exists i1, i2, cf1, cf2, body1, body2.
  split.
  { unfold Server.decode_all. rewrite length_app, !frame_length.
    replace (length p1 + 3 + (length p2 + 3))
      with (S (S (length p1 + length p2 + 4))) by lia.
    cbn [Server.decode_all_fuel].
    rewrite (deframe_frame p1 (frame p2) H1).
    rewrite <- (app_nil_r (frame p2)), (deframe_frame p2 [] H2).
    destruct (length p1 + length p2 + 4); reflexivity. }
  split; [exact Ei1|]. split; [exact Ei2|].
  split; [exact Ec1|]. split; [exact Ec2|].
  split; [exact Hid1|]. split; [exact Hid2|].
  split; [rewrite <- Hid1; exact Eb1|].
  split; [rewrite <- Hid2; exact Eb2|].
  cbv zeta. fold st1 st2.
  split; [exact E1|]. split; [exact E2|]. split; [exact E3|].
  unfold Server.handle_client, frame at 1.
  cbn [Server.MLLP_START app Server.serve Server.buffer Server.handled
       Server.log].
  change {| Server.buffer := x0b :: (p1 ++ Server.MLLP_END) ++ frame p2;
            Server.handled := 0;
            Server.log := [] |} with st0.
  rewrite (drain_continue e _ _ E1), (drain_continue e _ _ E2),
    (drain_done e _ E3).
  reflexivity.
Qed.

Lemma batched_frames_in_order_witness :
  exists i1 i2 body1 body2,
    Server.decode_all (frame first_payload ++ frame second_payload)
      = ([first_payload; second_payload], []) /\
    decode_strict body1
      = Some (lit ("MSH|^~\&|REVSTREAM|INTEGRATION|EHR|HOSPITAL|"
                     ++ "20240102030405||ACK^P03|MSG001|P|2.5")
                ++ [CR]
                ++ lit "MSA|AA|MSG001|Message received successfully"
                ++ [CR]) /\
    decode_strict body2
      = Some (lit ("MSH|^~\&|BILLING|FINANCE|LAB|CLINIC|"
                     ++ "20240102030405||ACK^P03|MSG002|P|2.5")
                ++ [CR]
                ++ lit "MSA|AA|MSG002|Message received successfully"
                ++ [CR]) /\
    Server.iteration steady
        {| Server.buffer := frame first_payload ++ frame second_payload;
           Server.handled := 0;
           Server.log := [] |}
      = Some (Server.Continue
                {| Server.buffer := frame second_payload;
                   Server.handled := 1;
                   Server.log :=
                     [Server.Received (decode_replace first_payload);
                      Server.Info i1;
                      Server.Saved (decode_replace first_payload);
                      Server.Sent (frame body1)] |}) /\
    Server.handle_client steady
      [Server.Data (frame first_payload ++ frame second_payload)]
      = Server.Awaiting
          {| Server.buffer := [];
             Server.handled := 2;
             Server.log :=
               [Server.Received (decode_replace first_payload);
                Server.Info i1;
                Server.Saved (decode_replace first_payload);
                Server.Sent (frame body1);
                Server.Received (decode_replace second_payload);
                Server.Info i2;
                Server.Saved (decode_replace second_payload);
                Server.Sent (frame body2)] |}.
Proof.
  destruct (batched_frames_in_order steady first_payload second_payload)
    as (i1 & i2 & cf1 & cf2 & body1 & body2 & Hd & _ & _ & Ec1 & Ec2
        & _ & _ & Eb1 & Eb2 & H).
  { split; reflexivity. }
  { split; reflexivity. }
  { exact steady_reliable. }
  cbv zeta in H. destruct H as (E1 & _ & _ & Hh).
  assert (K1 : cf1 = {| Server.sending_app := lit "EHR";
                        Server.sending_facility := lit "HOSPITAL";
                        Server.receiving_app := lit "REVSTREAM";
                        Server.receiving_facility := lit "INTEGRATION";
                        Server.msg_control_id := lit "MSG001" |}).
  { apply some_inj. rewrite <- Ec1. reflexivity. }
  assert (K2 : cf2 = {| Server.sending_app := lit "LAB";
                        Server.sending_facility := lit "CLINIC";
                        Server.receiving_app := lit "BILLING";
                        Server.receiving_facility := lit "FINANCE";
                        Server.msg_control_id := lit "MSG002" |}).
  { apply some_inj. rewrite <- Ec2. reflexivity. }
  subst cf1 cf2.
  exists i1, i2, body1, body2.
  split; [exact Hd|]. split; [exact Eb1|]. split; [exact Eb2|].
  split; [exact E1|exact Hh].
Defined.

(* ================================================================= *)
(** ** The positions of the header fields *)

Lemma picked_none (segment : str) (n i : nat) (lines : list str) :
  Forall (fun l => sstartswith segment l = false) lines ->
  picked segment n i lines = [].
Proof.
  induction 1 as [|l lines Hl _ IH]; [reflexivity|].
  rewrite picked_cons, Hl, IH. reflexivity.
Qed.

Lemma picked_app (segment : str) (n i : nat) (l r : list str) :
  picked segment n i (l ++ r) = picked segment n i l ++ picked segment n i r.
Proof. unfold picked. apply flat_map_app. Qed.

Lemma picked_last (segment : str) (n : nat) (before after : list str)
    (line f d : str) :
  sstartswith segment line = true ->
  nth_error (ssplit PIPE line) n = Some f ->
  Forall (fun l => sstartswith segment l = false) after ->
  last (picked segment n n (before ++ line :: after)) d = f.
Proof.
  intros Hs Hf Ha.
  rewrite picked_app, picked_cons, (picked_none _ _ _ _ Ha), Hs.
  assert (L : n < length (ssplit PIPE line))
    by (apply nth_error_Some; congruence).
  apply Nat.ltb_lt in L. rewrite L. cbn [andb app].
  rewrite (nth_error_nth _ _ _ Hf). apply last_last.
Qed.

(** C9, amended.  Header field positions, for every decoded payload.  The
    message type is field 8 (counted from 0 by pipe splits) of the last
    line that starts with MSH| and has more than 8 fields, wherever that
    line stands in the message, and Unknown when no line starts with MSH|.
    The message identifier is field 9 of the first line whenever that line
    has at least 10 fields, whatever it starts with, and 0 otherwise; it is
    what correlates the acknowledgment: the bytes [create_ack] returns are
    the frame of a text whose header carries it and whose status line is
    MSA|AA| and the identifier. *)
Theorem header_field_positions (timestamp : string) (payload : bytes) :
  exists info cf body,
    Server.extract_message_info (decode_replace payload) = Some info /\
    Server.message_type info
      = last (picked (lit "MSH|") 8 8 (ssplit CR (decode_replace payload)))
             (lit "Unknown") /\
    (forall before line after f8,
        ssplit CR (decode_replace payload) = before ++ line :: after ->
        sstartswith (lit "MSH|") line = true ->
        nth_error (ssplit PIPE line) 8 = Some f8 ->
        Forall (fun l => sstartswith (lit "MSH|") l = false) after ->
        Server.message_type info = f8) /\
    (Forall (fun l => sstartswith (lit "MSH|") l = false)
            (ssplit CR (decode_replace payload)) ->
     Server.message_type info = lit "Unknown") /\
    Server.create_ack_fields (decode_replace payload) = Some cf /\
    (forall f9,
        10 <= length (ssplit PIPE (first_line (decode_replace payload))) ->
        nth_error (ssplit PIPE (first_line (decode_replace payload))) 9
          = Some f9 ->
        Server.msg_control_id cf = f9) /\
    (length (ssplit PIPE (first_line (decode_replace payload))) < 10 ->
     Server.msg_control_id cf = lit "0") /\
    Server.create_ack (lit timestamp) (decode_replace payload)
      = Some (Server.MLLP_START ++ body ++ Server.MLLP_END) /\
    decode_strict body
      = Some (ack_header (lit timestamp) cf ++ [CR]
                ++ (lit "MSA|AA|" ++ Server.msg_control_id cf
                      ++ lit "|Message received successfully") ++ [CR]).
Proof.
  destruct (create_ack_body timestamp payload) as (cf & body & Ec & Ea & Eb).
  pose proof (create_ack_fields_id _ _ Ec) as Hid.
  eexists. exists cf, body.
  split; [unfold Server.extract_message_info; apply info_lines_picked|].
  cbn [Server.message_type].
  split; [reflexivity|]. split; [|split].
  - intros before line after f8 -> Hs Hf Ha. now apply picked_last.
  - intros H. now rewrite (picked_none _ _ _ _ H).
  - split; [exact Ec|]. split; [|split; [|split; [exact Ea|exact Eb]]].
    + intros f9 Hlen E9. rewrite Hid. unfold control_id.
      apply Nat.leb_le in Hlen. rewrite Hlen. now apply nth_error_nth.
    + intros Hlen. rewrite Hid. unfold control_id.
      apply Nat.leb_gt in Hlen. now rewrite Hlen.
Qed.

Lemma header_field_positions_witness :
  decode_replace odd_payload
    = lit "XXX|1|2|3|4|5|6|7|8|ID9|10" ++ [CR]
        ++ lit "MSH|^~\&|a|b|c|d|e||TYPE|ID|P|2.5" /\
  exists info cf body,
    Server.extract_message_info (decode_replace odd_payload) = Some info /\
    Server.message_type info = lit "TYPE" /\
    Server.create_ack_fields (decode_replace odd_payload) = Some cf /\
    Server.msg_control_id cf = lit "ID9" /\
    Server.create_ack (lit "20240102030405") (decode_replace odd_payload)
      = Some (Server.MLLP_START ++ body ++ Server.MLLP_END) /\
    decode_strict body
      = Some (lit "MSH|^~\&|4|5|2|3|20240102030405||ACK^P03|ID9|P|2.5"
                ++ [CR] ++ lit "MSA|AA|ID9|Message received successfully"
                ++ [CR]).
Proof.
  split; [reflexivity|].
  destruct (header_field_positions "20240102030405" odd_payload)
    as (info & cf & body & Ei & _ & Et & _ & Ec & E9 & _ & Ea & Eb).
  exists info, cf, body.
  split; [exact Ei|].
  split.
  { apply (Et [lit "XXX|1|2|3|4|5|6|7|8|ID9|10"]
              (lit "MSH|^~\&|a|b|c|d|e||TYPE|ID|P|2.5") []);
      [reflexivity|reflexivity|reflexivity|constructor]. }
  split; [exact Ec|].
  assert (H9 : Server.msg_control_id cf = lit "ID9").
  { apply E9; [vm_compute; lia|reflexivity]. }
  split; [exact H9|]. split; [exact Ea|].
  rewrite Eb. f_equal.
  assert (Ecf : cf = {| Server.sending_app := lit "2";
                        Server.sending_facility := lit "3";
                        Server.receiving_app := lit "4";
                        Server.receiving_facility := lit "5";
                        Server.msg_control_id := lit "ID9" |}).
  { apply some_inj. rewrite <- Ec. reflexivity. }
  rewrite Ecf. reflexivity.
Defined.

(* ================================================================= *)
(** ** UTF-8: what decodes with no error is the encoding of its text *)
















(* ================================================================= *)
(** ** Payloads that are not UTF-8 *)


